(** * AgentCast: the client-side reliability layer

    A shallow embedding of [dist/browser.js] (failure classifier, circuit
    breaker, retry schedule, container operations), of the [BrowserAgent]
    class (session lifecycle, confirmation gate) and of the [initialize],
    [stop] and [resize] paths of the deprecated [withBrowser] mixin, followed
    by the properties of the specification that concern them and by further
    properties of the code.

    Conventions.
    - JavaScript numbers that hold counters and millisecond timestamps are [Z].
    - [Date.now()] reads the field [clock] of the world; the clock advances at
      suspension points only (a [container.fetch] that takes some time, a
      sleep), never inside synchronous code.
    - The remote container is an oracle: the n-th request issued through
      [container.fetch] receives the n-th exchange of the oracle.
    - JavaScript exceptions and Effect failures are values of [JsError]; an
      awaited [Effect.runPromise] hands a failure to its caller wrapped in a
      [FiberFailure].
    - Calls on one object do not overlap: a method runs to completion before
      the next one starts. *)

From Stdlib Require Import ZArith String Ascii List Bool Lia.
From Stdlib Require Import Sorted.
From stdpp Require Import base option gmap strings list.

Set Warnings "-register-all".

Local Open Scope string_scope.
Local Open Scope Z_scope.

(** ** JavaScript string primitives *)

Module Js.

(** [hay.includes(needle)] *)
Fixpoint includes (hay needle : string) : bool :=
  if String.prefix needle hay then true
  else match hay with
       | EmptyString => false
       | String _ rest => includes rest needle
       end.

(** [s.slice(0, n)] for [0 <= n].  JavaScript counts UTF-16 code units, this
    function counts bytes: the two agree on ASCII text, which is what the
    session identifiers sliced in [browser.js] are taken to be. *)
Definition slice0 (s : string) (n : nat) : string := String.substring 0 n s.

(** [s.replace(pat, by)] with a string pattern: the first occurrence only. *)
Fixpoint replace (s pat by_ : string) : string :=
  if String.prefix pat s
  then by_ ++ String.substring (String.length pat) (String.length s - String.length pat) s
  else match s with
       | EmptyString => EmptyString
       | String c rest => String c (replace rest pat by_)
       end.

(** Truthiness of an optional string: [undefined] and [''] are falsy. *)
Definition truthy (s : option string) : bool :=
  match s with
  | Some EmptyString | None => false
  | Some _ => true
  end.

(** [a || b] on optional strings whose right operand is a string. *)
Definition or_else (a : option string) (b : string) : string :=
  match a with
  | Some (String c r) => String c r
  | _ => b
  end.

End Js.

(** ** Error values ([errors.js]) *)

(** A thrown JavaScript value.  [Error] is a plain [Error]; [ZodError] is what
    [schema.parse] throws; [RangeError] is what the engine throws when the
    call stack overflows; [FiberFailure] is the rejection of
    [Effect.runPromise] for an effect that failed with [failure]: an [Error]
    of the Effect runtime, which is not an instance of the class of [failure],
    has no [_tag] and no [cause] property, and keeps the failure inside.  The
    others are the tagged errors of [errors.js].  All of them are instances of
    [Error] and carry a [message]. *)
Inductive JsError : Type :=
| Error (message : string)
| ZodError (message : string)
| ContainerStartError (message : string) (sessionId : option string) (cause : option JsError)
| BrowserError (message : string) (cause : option JsError)
| NavigationError (message : string) (url : string) (cause : option JsError)
| SessionNotConnectedError (message : string) (sessionId : string)
| ScreenshotError (message : string)
| RangeError (message : string)
| FiberFailure (message : string) (failure : JsError).

(** [error.message] *)
Definition message_of (e : JsError) : string :=
  match e with
  | Error m | ZodError m | ContainerStartError m _ _ | BrowserError m _
  | NavigationError m _ _ | SessionNotConnectedError m _ | ScreenshotError m
  | RangeError m | FiberFailure m _ => m
  end.

(** The [_tag] of a tagged error, the constructor name otherwise. *)
Definition tag_of (e : JsError) : string :=
  match e with
  | Error _ => "Error"
  | ZodError _ => "ZodError"
  | ContainerStartError _ _ _ => "ContainerStartError"
  | BrowserError _ _ => "BrowserError"
  | NavigationError _ _ _ => "NavigationError"
  | SessionNotConnectedError _ _ => "SessionNotConnectedError"
  | ScreenshotError _ => "ScreenshotError"
  | RangeError _ => "RangeError"
  | FiberFailure _ _ => "FiberFailure"
  end.

(** [error.cause] *)
Definition cause_of (e : JsError) : option JsError :=
  match e with
  | ContainerStartError _ _ c | BrowserError _ c | NavigationError _ _ c => c
  | _ => None
  end.

(** [error instanceof ContainerStartError] *)
Definition isContainerStartError (e : JsError) : bool :=
  match e with ContainerStartError _ _ _ => true | _ => false end.

(** ** Failure classifier ([browser.js], lines 13-28) *)

Definition isRetryableError (error : JsError) : bool :=
  let msg := message_of error in
  Js.includes msg "Connection refused"
  || Js.includes msg "container port not found"
  || Js.includes msg "Monitor failed"
  || Js.includes msg "The operation was aborted"
  || Js.includes msg "timeout"
  || Js.includes msg "Container crashed"
  || (Js.includes msg "Container start failed" && negb (Js.includes msg "non-retryable")).

Definition isNonRetryableError (error : JsError) : bool :=
  let msg := message_of error in
  Js.includes msg "non-retryable"
  || Js.includes msg "validation"
  || Js.includes msg "invalid".

(** ** Circuit breaker ([browser.js], lines 29-72) *)

Module CircuitBreaker.

Record Entry : Type := mkEntry {
  failures : Z;
  lastFailure : Z;
  open : bool
}.

Definition CIRCUIT_BREAKER_THRESHOLD : Z := 5.
Definition CIRCUIT_BREAKER_WINDOW_MS : Z := 5 * 60 * 1000.
Definition CIRCUIT_BREAKER_COOLDOWN_MS : Z := 10 * 60 * 1000.

(** The module-level [Map] is passed explicitly; the result is the verdict
    and the map after the call.  [now] is the value of [Date.now()]. *)
Definition checkCircuitBreaker (now : Z) (sessionId : string)
    (circuitBreakerState : gmap string Entry) : bool * gmap string Entry :=
  match circuitBreakerState !! sessionId with
  | None => (true, circuitBreakerState)
  | Some state =>
      if CIRCUIT_BREAKER_WINDOW_MS <? now - lastFailure state
      then (true, delete sessionId circuitBreakerState)
      else if open state
      then if CIRCUIT_BREAKER_COOLDOWN_MS <? now - lastFailure state
           then (true, delete sessionId circuitBreakerState)
           else (false, circuitBreakerState)
      else (true, circuitBreakerState)
  end.

Definition recordCircuitBreakerFailure (now : Z) (sessionId : string)
    (circuitBreakerState : gmap string Entry) : gmap string Entry :=
  let state := default (mkEntry 0 0 false) (circuitBreakerState !! sessionId) in
  let failures' := failures state + 1 in
  let open' := if CIRCUIT_BREAKER_THRESHOLD <=? failures' then true else open state in
  <[sessionId := mkEntry failures' now open']> circuitBreakerState.

Definition recordCircuitBreakerSuccess (sessionId : string)
    (circuitBreakerState : gmap string Entry) : gmap string Entry :=
  delete sessionId circuitBreakerState.

End CircuitBreaker.

(** ** The remote container and the world

    What [browser.js] exchanges with the container through
    [container.fetch(switchPort(new Request(...), 8080))]. *)

Module Remote.

Record Viewport : Type := mkViewport { width : Z; height : Z }.

Inductive ColorScheme : Type := light | dark.

(** The JSON body of [POST /start]. *)
Record StartBody : Type := mkStartBody {
  viewport : Viewport;
  startUrl : option string;
  colorScheme : ColorScheme;
  apiKey : option string;
  fingerprint : option string
}.

Inductive Endpoint : Type :=
| PostStart (body : StartBody)
| PostStop
| PostInstruction (instruction : string)
| PostResize (viewport : Viewport)
| PostReload
| PostExtract (schemaDef : string) (instruction : string).

(** A request addressed to the container of one session. *)
Record Request : Type := mkRequest { container : string; endpoint : Endpoint }.

(** The parsed JSON of a response; absent fields are [None] / [false]. *)
Record Json : Type := mkJson {
  success : bool;
  error : option string;
  wsEndpoint : option string;
  data : string
}.

(** A response: its status, what [res.text()] yields ([None] when reading
    the body fails) and what [res.json()] yields ([inl m] when it throws an
    error with message [m]). *)
Record HttpResponse : Type := mkResponse {
  status : Z;
  text : option string;
  json : string + Json
}.

(** [res.ok] *)
Definition ok (res : HttpResponse) : bool := (200 <=? status res) && (status res <=? 299).

Inductive Reply : Type :=
| Rejects (message : string)      (* [container.fetch] rejects with an error *)
| Responds (res : HttpResponse).

(** One exchange: how long the call takes and how it ends. *)
Record Exchange : Type := mkExchange { took : Z; reply : Reply }.

End Remote.

(** The world a container operation runs in. *)
Record World : Type := mkWorld {
  clock : Z;                                        (* [Date.now()] *)
  deadline : option Z;                              (* of the enclosing [Effect.timeoutFail] *)
  circuitBreakerState : gmap string CircuitBreaker.Entry;
  remote : nat -> Remote.Request -> Remote.Exchange; (* the container *)
  fetched : list Remote.Request;                    (* requests issued so far, oldest first *)
  slept : list Z                                    (* delays waited so far, oldest first *)
}.

Definition set_clock (t : Z) (w : World) : World :=
  mkWorld t (deadline w) (circuitBreakerState w) (remote w) (fetched w) (slept w).
Definition set_deadline (d : option Z) (w : World) : World :=
  mkWorld (clock w) d (circuitBreakerState w) (remote w) (fetched w) (slept w).
Definition set_circuitBreakerState (m : gmap string CircuitBreaker.Entry) (w : World) : World :=
  mkWorld (clock w) (deadline w) m (remote w) (fetched w) (slept w).
Definition log_fetch (r : Remote.Request) (w : World) : World :=
  mkWorld (clock w) (deadline w) (circuitBreakerState w) (remote w) (fetched w ++ [r]) (slept w).
Definition log_sleep (d : Z) (w : World) : World :=
  mkWorld (clock w) (deadline w) (circuitBreakerState w) (remote w) (fetched w) (slept w ++ [d]).

(** ** Effects

    An [Eff A] is a computation that can suspend: it ends with a value, with a
    failure (an Effect failure or a rejected promise), or it is interrupted by
    the deadline of an enclosing [Effect.timeoutFail].  [OutOfFuel] is the
    artefact of bounding the retry driver; [startBrowser_total] shows that it
    never comes out of [startBrowser]. *)

Inductive Outcome (A : Type) : Type :=
| Done (a : A)
| Failed (e : JsError)
| Interrupted
| OutOfFuel.
Arguments Done {A} a.
Arguments Failed {A} e.
Arguments Interrupted {A}.
Arguments OutOfFuel {A}.

Definition Eff (A : Type) : Type := World -> Outcome A * World.

Definition ret {A} (a : A) : Eff A := fun w => (Done a, w).
Definition throw {A} (e : JsError) : Eff A := fun w => (Failed e, w).
Definition bind {A B} (m : Eff A) (k : A -> Eff B) : Eff B :=
  fun w =>
    match m w with
    | (Done a, w') => k a w'
    | (Failed e, w') => (Failed e, w')
    | (Interrupted, w') => (Interrupted, w')
    | (OutOfFuel, w') => (OutOfFuel, w')
    end.
Definition modify (f : World -> World) : Eff unit := fun w => (Done tt, f w).

Declare Scope eff_scope.
Delimit Scope eff_scope with eff.
Notation "'let*' x ':=' m 'in' k" := (bind m (fun x => k))
  (at level 10, x pattern, m at level 100, k at level 200) : eff_scope.
Notation "m '>>' k" := (bind m (fun _ => k))
  (at level 65, right associativity) : eff_scope.
Local Open Scope eff_scope.

(** A suspension of [d] milliseconds: the clock advances, unless the deadline
    falls within the suspension, in which case the fiber is interrupted at the
    deadline.  When the wake-up and the deadline fall on the same millisecond
    the code races two timers and either may win; the model lets the deadline
    win, and no statement below depends on how that tie is resolved. *)
Definition suspend (d : Z) : Eff unit :=
  fun w =>
    let wake := clock w + Z.max 0 d in
    match deadline w with
    | Some dl => if dl <=? wake then (Interrupted, set_clock (Z.max (clock w) dl) w)
                 else (Done tt, set_clock wake w)
    | None => (Done tt, set_clock wake w)
    end.

(** [await container.fetch(request)] *)
Definition fetch (req : Remote.Request) : Eff Remote.Reply :=
  fun w =>
    let ex := remote w (length (fetched w)) req in
    (suspend (Remote.took ex) >> ret (Remote.reply ex)) (log_fetch req w).

(** A timer-based sleep ([Effect.sleep], [setTimeout] in a promise). *)
Definition sleep (d : Z) : Eff unit :=
  fun w => suspend d (log_sleep d w).

(** [Effect.tryPromise({ try, catch })]: a rejection of [try] becomes the
    failure computed by [catch], which may itself touch the world. *)
Definition tryPromise {A} (try_ : Eff A) (catch_ : JsError -> World -> JsError * World) : Eff A :=
  fun w =>
    match try_ w with
    | (Failed e, w1) => let '(e', w2) := catch_ e w1 in (Failed e', w2)
    | r => r
    end.

(** [Effect.mapError(f)] *)
Definition mapError {A} (f : JsError -> JsError) (self : Eff A) : Eff A :=
  fun w =>
    match self w with
    | (Failed e, w1) => (Failed (f e), w1)
    | r => r
    end.

(** [Effect.catchAll(() => Effect.void)] *)
Definition catchAll_void (self : Eff unit) : Eff unit :=
  fun w =>
    match self w with
    | (Failed _, w1) => (Done tt, w1)
    | r => r
    end.

(** [Effect.timeoutFail({ duration, onTimeout })]: the inner effect runs under
    a deadline; when the deadline interrupts it, the result is the failure
    [onTimeout]. *)
Definition timeoutFail {A} (duration : Z) (onTimeout : JsError) (self : Eff A) : Eff A :=
  fun w =>
    let outer := deadline w in
    let mine := clock w + duration in
    let inner := match outer with Some o => Z.min o mine | None => mine end in
    match self (set_deadline (Some inner) w) with
    | (Interrupted, w1) =>
        if mine <=? clock w1 then (Failed onTimeout, set_deadline outer w1)
        else (Interrupted, set_deadline outer w1)
    | (r, w1) => (r, set_deadline outer w1)
    end.

(** The message of the [FiberFailure] that the Effect runtime builds for a
    failure which is an [Error]: the message of the failure, or the default
    of the runtime when that is empty. *)
Definition fiberFailureMessage (e : JsError) : string :=
  if String.eqb (message_of e) EmptyString then "An error has occurred" else message_of e.

(** [await Effect.runPromise(self)]: the promise resolves with the result of
    the effect and rejects with a [FiberFailure] around its failure. *)
Definition runPromise {A} (self : Eff A) : Eff A :=
  fun w =>
    match self w with
    | (Failed e, w1) => (Failed (FiberFailure (fiberFailureMessage e) e), w1)
    | (r, w1) => (r, w1)
    end.

(** ** Schedules ([effect/Schedule])

    The combinators of the Effect library that [containerRetrySchedule] is
    built from.  A schedule is a state machine stepped with each failure; a
    step yields the next state, an output and a decision.  Effect expresses a
    decision to continue as an interval that starts at [now + delay]; here it
    is the delay itself, so the union of two intervals (the earlier start) is
    the smaller delay and their intersection (the later start) the larger. *)

Module Schedule.

Inductive Decision : Type :=
| Continue (delay : Z)
| Stop.

Record t (In Out : Type) : Type := mk {
  State : Type;
  initial : State;
  step : In -> State -> State * Out * Decision
}.
Arguments mk {In Out State} initial step.
Arguments State {In Out} _.
Arguments initial {In Out} _.
Arguments step {In Out} _ _ _.

(** [Schedule.exponential(base, factor)]: the i-th recurrence (from 0) is
    delayed by [base * factor^i] and outputs that duration. *)
Definition exponential {In} (base factor : Z) : t In Z :=
  mk (State := nat) 0%nat
     (fun _ i => let d := base * factor ^ Z.of_nat i in (S i, d, Continue d)).

(** [Schedule.spaced(d)]: every recurrence is delayed by [d]; the output
    counts the recurrences. *)
Definition spaced {In} (d : Z) : t In nat :=
  mk (State := nat) 0%nat (fun _ i => (S i, i, Continue d)).

(** [Schedule.recurs(n)] is [whileOutput(forever, k => k < n)]: [forever]
    outputs 0, 1, 2, ... and the schedule continues while the output is
    below [n]. *)
Definition recurs {In} (n : nat) : t In nat :=
  mk (State := nat) 0%nat
     (fun _ i => (S i, i, if (i <? n)%nat then Continue 0 else Stop)).

(** [Schedule.union(that)(self)]: continues as long as either continues,
    with the smaller of the two delays. *)
Definition union {In O1 O2} (self : t In O1) (that : t In O2) : t In (O1 * O2) :=
  mk (State := State self * State that) (initial self, initial that)
     (fun input st =>
        let '(l', l, ld) := step self input (fst st) in
        let '(r', r, rd) := step that input (snd st) in
        ((l', r'), (l, r),
         match ld, rd with
         | Stop, Stop => Stop
         | Stop, Continue d => Continue d
         | Continue d, Stop => Continue d
         | Continue d1, Continue d2 => Continue (Z.min d1 d2)
         end)).

(** [Schedule.compose(that)(self)]: the output of [self] is the input of
    [that]; stops as soon as either stops, else the larger delay. *)
Definition compose {In O1 O2} (self : t In O1) (that : t O1 O2) : t In O2 :=
  mk (State := State self * State that) (initial self, initial that)
     (fun input st =>
        let '(l', out, ld) := step self input (fst st) in
        let '(r', out2, rd) := step that out (snd st) in
        ((l', r'), out2,
         match ld, rd with
         | Continue d1, Continue d2 => Continue (Z.max d1 d2)
         | _, _ => Stop
         end)).

(** [Schedule.whileInput(f)(self)]: continues only while [f input] holds. *)
Definition whileInput {In Out} (f : In -> bool) (self : t In Out) : t In Out :=
  mk (State := State self) (initial self)
     (fun input st =>
        let '(st', out, d) := step self input st in
        (st', out,
         match d with
         | Continue delay => if f input then Continue delay else Stop
         | Stop => Stop
         end)).

End Schedule.

(** [Effect.retry(policy)(self)]: run [self]; on a failure step the policy
    with the failure as input; if it continues, sleep for the delay and run
    [self] again, otherwise fail with that failure.  The driver of an
    arbitrary policy need not terminate, hence the fuel. *)
Fixpoint retry_from {A Out} (fuel : nat) (self : Eff A) (policy : Schedule.t JsError Out)
    (st : Schedule.State policy) : Eff A :=
  fun w =>
    match self w with
    | (Failed e, w1) =>
        match Schedule.step policy e st with
        | (st', _, Schedule.Continue d) =>
            match fuel with
            | O => (OutOfFuel, w1)
            | S fuel' => (sleep d >> retry_from fuel' self policy st') w1
            end
        | (_, _, Schedule.Stop) => (Failed e, w1)
        end
    | r => r
    end.

Definition retry {A Out} (fuel : nat) (policy : Schedule.t JsError Out) (self : Eff A) : Eff A :=
  retry_from fuel self policy (Schedule.initial policy).

(** ** Container operations ([browser.js], lines 73-300) *)

Module Browser.
Import Remote.

(** [BrowserOptions] *)
Record BrowserOptions : Type := mkOptions {
  opt_viewport : option Viewport;
  opt_startUrl : option string;
  opt_colorScheme : option ColorScheme;
  opt_apiKey : option string;
  opt_fingerprint : option string
}.

(** A Zod schema: its definition [_def] and its [parse], which returns the
    validated value or throws a [ZodError] with the given message. *)
Record ZodSchema (T : Type) : Type := mkSchema {
  _def : string;
  parse : string -> string + T
}.
Arguments mkSchema {T} _ _.
Arguments _def {T} _.
Arguments parse {T} _ _.

Definition containerRetrySchedule : Schedule.t JsError nat :=
  Schedule.whileInput isRetryableError
    (Schedule.compose
       (Schedule.union (Schedule.exponential 1000 2) (Schedule.spaced 5000))
       (Schedule.recurs 20)).

(** Fuel handed to the retry driver by [startBrowser]. *)
Definition retryFuel : nat := 32.

Definition circuitOpenMessage (sessionId : string) : string :=
  "Circuit breaker is open for session " ++ Js.slice0 sessionId 8
  ++ ". Too many consecutive failures. Please wait before retrying.".

Definition recordSuccess (sessionId : string) : Eff unit :=
  modify (fun w => set_circuitBreakerState
                     (CircuitBreaker.recordCircuitBreakerSuccess sessionId (circuitBreakerState w)) w).

Definition recordFailure (sessionId : string) (w : World) : World :=
  set_circuitBreakerState
    (CircuitBreaker.recordCircuitBreakerFailure (clock w) sessionId (circuitBreakerState w)) w.

(** The body [startBrowser] sends (lines 89-95) and the request around it. *)
Definition startBody (options : BrowserOptions) : StartBody :=
  mkStartBody
    (default (mkViewport 1280 720) (opt_viewport options))
    (opt_startUrl options)
    (default dark (opt_colorScheme options))
    (opt_apiKey options)
    (opt_fingerprint options).

Definition startRequest (sessionId : string) (options : BrowserOptions) : Request :=
  mkRequest sessionId (PostStart (startBody options)).

(** The [try] function of [startBrowser] (lines 97-124). *)
Definition startBrowser_try (sessionId : string) (options : BrowserOptions) : Eff Json :=
  let* rep := fetch (startRequest sessionId options) in
  match rep with
  | Rejects m => throw (Error m)
  | Responds res =>
      if negb (ok res) then
        let errorText := default "failed to read error" (text res) in
        if (400 <=? status res) && (status res <? 500)
        then throw (Error ("Container start failed (non-retryable): " ++ errorText))
        else throw (Error ("Container start failed: " ++ errorText))
      else
        match json res with
        | inl m => throw (Error m)
        | inr data =>
            if Js.truthy (error data)
            then throw (Error ("Container start error: " ++ default "" (error data)))
            else if negb (success data)
            then throw (Error "Container start returned success=false")
            else recordSuccess sessionId >> ret data
        end
  end.

(** The [catch] function of [startBrowser] (lines 125-135). *)
Definition startBrowser_catch (sessionId : string) (error : JsError) (w : World)
    : JsError * World :=
  let w' := recordFailure sessionId w in
  if isNonRetryableError error
  then (ContainerStartError (message_of error) (Some sessionId) (Some error), w')
  else (error, w').

(** One attempt: the [Effect.tryPromise] of lines 96-135. *)
Definition startBrowser_attempt (sessionId : string) (options : BrowserOptions) : Eff Json :=
  tryPromise (startBrowser_try sessionId options) (startBrowser_catch sessionId).

Definition startBrowser (sessionId : string) (options : BrowserOptions) : Eff Json :=
  fun w =>
    let '(allowed, cb) :=
      CircuitBreaker.checkCircuitBreaker (clock w) sessionId (circuitBreakerState w) in
    let w0 := set_circuitBreakerState cb w in
    if negb allowed then
      (Failed (ContainerStartError (circuitOpenMessage sessionId) (Some sessionId) None), w0)
    else
      mapError
        (fun error =>
           if isContainerStartError error then error
           else ContainerStartError (message_of error) (Some sessionId) (Some error))
        (timeoutFail 120000
           (ContainerStartError "Container start timeout after 2 minutes" (Some sessionId) None)
           (retry retryFuel containerRetrySchedule (startBrowser_attempt sessionId options)))
        w0.

(** Best effort: every failure of the call is swallowed (lines 157-172). *)
Definition stopBrowser (sessionId : string) : Eff unit :=
  catchAll_void
    (tryPromise
       (fetch (mkRequest sessionId PostStop) >> ret tt)
       (fun error w =>
          (BrowserError ("Failed to stop container: " ++ message_of error) (Some error), w))).

Definition sendInstruction (sessionId : string) (instruction : string) : Eff Json :=
  tryPromise
    (let* rep := fetch (mkRequest sessionId (PostInstruction instruction)) in
     match rep with
     | Rejects m => throw (Error m)
     | Responds res =>
         if negb (ok res)
         then throw (Error ("Instruction failed: " ++ default "failed to read error" (text res)))
         else match json res with
              | inl m => throw (Error m)
              | inr data => ret data
              end
     end)
    (fun error w =>
       (BrowserError ("Failed to send instruction: " ++ message_of error) (Some error), w)).

Definition resizeBrowser (sessionId : string) (viewport : Viewport) : Eff unit :=
  tryPromise
    (let* rep := fetch (mkRequest sessionId (PostResize viewport)) in
     match rep with
     | Rejects m => throw (Error m)
     | Responds res =>
         if negb (ok res)
         then throw (Error ("Resize failed: " ++ default "failed to read error" (text res)))
         else ret tt
     end)
    (fun error w => (BrowserError ("Failed to resize: " ++ message_of error) (Some error), w)).

Definition reloadBrowser (sessionId : string) : Eff unit :=
  tryPromise
    (let* rep := fetch (mkRequest sessionId PostReload) in
     match rep with
     | Rejects m => throw (Error m)
     | Responds res =>
         if negb (ok res)
         then throw (Error ("Reload failed: " ++ default "failed to read error" (text res)))
         else ret tt
     end)
    (fun error w => (BrowserError ("Failed to reload: " ++ message_of error) (Some error), w)).

Definition navigateBrowser (sessionId : string) (url : string) : Eff unit :=
  mapError
    (fun error =>
       NavigationError ("Failed to navigate to " ++ url ++ ": " ++ message_of error) url (Some error))
    (sendInstruction sessionId ("go to " ++ url) >> ret tt).

(** The request [extractData] sends (lines 269-276). *)
Definition extractRequest {T} (sessionId : string) (schema : ZodSchema T) : Request :=
  mkRequest sessionId
    (PostExtract (_def schema)
       "Extract data matching the provided schema from the current page").

(** [extractData] (lines 261-300): the remote call, the checks on the
    response and the validation of the payload all run inside one [try]
    whose [catch] wraps whatever was thrown in a [BrowserError]. *)
Definition extractData {T} (sessionId : string) (schema : ZodSchema T) : Eff T :=
  tryPromise
    (let* rep := fetch (extractRequest sessionId schema) in
     match rep with
     | Rejects m => throw (Error m)
     | Responds res =>
         if negb (ok res)
         then throw (Error ("Extraction failed: " ++ default "failed to read error" (text res)))
         else match json res with
              | inl m => throw (Error m)
              | inr data =>
                  if negb (success data) || Js.truthy (error data)
                  then throw (Error (Js.or_else (error data) "Extraction failed"))
                  else match parse schema (Remote.data data) with
                       | inl m => throw (ZodError m)
                       | inr parsed => ret parsed
                       end
              end
     end)
    (fun error w =>
       (BrowserError ("Failed to extract data: " ++ message_of error) (Some error), w)).

End Browser.

(** ** Session records ([types.ts], [constants.js]) *)

Module SessionStatus.
Inductive t : Type :=
| starting | ready | active | idle | stopping | stopped | error
| connecting | connected | disconnected | disabled.
End SessionStatus.

Module Constants.
Definition DEFAULT_WORKER_URL : string := "http://localhost:1337".
Definition CONFIRMATION_TIMEOUT_MS : Z := 60000.

(** [getWorkerUrl(config)] for a string or absent [config]. *)
Definition getWorkerUrl (config : option string) : string :=
  match config with
  | Some url => url
  | None => DEFAULT_WORKER_URL
  end.
End Constants.

(** ** The [BrowserAgent] class

    Methods take the object ([this]) and the world and return the outcome of
    the promise, the object and the world afterwards.  Calls on one agent are
    serialized: a method runs to completion before the next one starts. *)

Module BrowserAgent.
Import Remote.

Record SessionState : Type := mkSession {
  id : string;
  name : option string;
  status : SessionStatus.t;
  viewUrl : string;
  cdpUrl : string;
  wsEndpoint : option string;
  createdAt : Z;
  lastActivity : Z;
  viewport : Viewport;
  colorScheme : option ColorScheme;
  error : option string      (* Error message if status is 'error' *)
}.

Definition set_status (v : SessionStatus.t) (s : SessionState) : SessionState :=
  mkSession (id s) (name s) v (viewUrl s) (cdpUrl s) (wsEndpoint s) (createdAt s)
    (lastActivity s) (viewport s) (colorScheme s) (error s).
Definition set_wsEndpoint (v : option string) (s : SessionState) : SessionState :=
  mkSession (id s) (name s) (status s) (viewUrl s) (cdpUrl s) v (createdAt s)
    (lastActivity s) (viewport s) (colorScheme s) (error s).
Definition set_lastActivity (v : Z) (s : SessionState) : SessionState :=
  mkSession (id s) (name s) (status s) (viewUrl s) (cdpUrl s) (wsEndpoint s) (createdAt s)
    v (viewport s) (colorScheme s) (error s).
Definition set_viewport (v : Viewport) (s : SessionState) : SessionState :=
  mkSession (id s) (name s) (status s) (viewUrl s) (cdpUrl s) (wsEndpoint s) (createdAt s)
    (lastActivity s) v (colorScheme s) (error s).
Definition set_error (v : option string) (s : SessionState) : SessionState :=
  mkSession (id s) (name s) (status s) (viewUrl s) (cdpUrl s) (wsEndpoint s) (createdAt s)
    (lastActivity s) (viewport s) (colorScheme s) v.

(** The fields of the object: [this.name] comes from the [Agent] base
    class.  The confirmation slot is modelled in [ConfirmationGate]. *)
Record Agent : Type := mkAgent {
  this_name : string;
  _session : option SessionState;
  _workerUrl : string
}.

Definition with_session (s : SessionState) (this : Agent) : Agent :=
  mkAgent (this_name this) (Some s) (_workerUrl this).

Definition Method (A : Type) : Type := Agent -> World -> Outcome A * Agent * World.

(** [this._session?.status] and [this._session?.lastActivity] *)
Definition status_of (this : Agent) : option SessionStatus.t := status <$> _session this.
Definition lastActivity_of (this : Agent) : option Z := lastActivity <$> _session this.

Record InitOptions : Type := mkInit {
  opt_sessionId : string;
  opt_name : option string;
  opt_viewport : option Viewport;
  opt_startUrl : option string;
  opt_workerUrl : option string;
  opt_colorScheme : option ColorScheme
}.

(** [initialize] (lines 111-184).  What the [catch] block receives is the
    rejection of [Effect.runPromise]: the record keeps its message, and since
    it is no [ContainerStartError] the caller gets a new [ContainerStartError]
    with that message and the rejection as its cause. *)
Definition initialize (options : InitOptions) : Method unit :=
  fun this w =>
    let sessionId := opt_sessionId options in
    let baseUrl :=
      Js.or_else (opt_workerUrl options)
        (Js.or_else (Some (_workerUrl this)) (Constants.getWorkerUrl None)) in
    let session :=
      mkSession sessionId (opt_name options) SessionStatus.starting
        (baseUrl ++ "/view/" ++ sessionId)
        (Js.replace baseUrl "http" "ws" ++ "/cdp/" ++ sessionId)
        None (clock w) (clock w)
        (default (mkViewport 1280 720) (opt_viewport options))
        (Some (default dark (opt_colorScheme options)))
        None in
    let this1 := mkAgent (this_name this) (Some session) baseUrl in
    match runPromise
            (Browser.startBrowser sessionId
               (Browser.mkOptions (Some (viewport session)) (opt_startUrl options)
                  (colorScheme session) None None)) w with
    | (Done data, w1) =>
        (Done tt,
         with_session (set_wsEndpoint (Remote.wsEndpoint data)
                         (set_status SessionStatus.ready session)) this1,
         w1)
    | (Failed error, w1) =>
        (Failed (if isContainerStartError error then error
                 else ContainerStartError (message_of error) (Some sessionId) (Some error)),
         with_session (set_error (Some (message_of error))
                         (set_status SessionStatus.error session)) this1,
         w1)
    | (Interrupted, w1) => (Interrupted, this1, w1)
    | (OutOfFuel, w1) => (OutOfFuel, this1, w1)
    end.

(** The wait loop of lines 209-214: poll while the status is 'starting'. *)
Fixpoint wait_while_starting (attemptsLeft : nat) (this : Agent) : Eff unit :=
  match attemptsLeft with
  | O => ret tt
  | S n =>
      match status_of this with
      | Some SessionStatus.starting => sleep 1000 >> wait_while_starting n this
      | _ => ret tt
      end
  end.

Definition initFailedMessage (this : Agent) : string :=
  default "Browser initialization failed" (_session this ≫= error).

(** The wait loop of lines 248-273, after the [initialize] of line 239. *)
Fixpoint wait_after_initialize (attemptsLeft : nat) (sessionId : string) (this : Agent)
    : Eff unit :=
  match attemptsLeft with
  | O =>
      match status_of this with
      | Some SessionStatus.ready => ret tt
      | _ => throw (SessionNotConnectedError "Browser initialization timeout" sessionId)
      end
  | S n =>
      match status_of this with
      | Some SessionStatus.ready => ret tt
      | Some SessionStatus.error =>
          throw (SessionNotConnectedError (initFailedMessage this) sessionId)
      | _ => sleep 1000 >> wait_after_initialize n sessionId this
      end
  end.

Definition lift {A} (m : Eff A) : Method A :=
  fun this w => let '(r, w1) := m w in (r, this, w1).

(** [ensureInitialized] (lines 190-281) *)
Definition ensureInitialized : Method unit :=
  fun this w =>
    match status_of this with
    | Some SessionStatus.ready => (Done tt, this, w)
    | Some SessionStatus.error =>
        (Failed (SessionNotConnectedError (initFailedMessage this)
                   (default (this_name this) (id <$> _session this))),
         this, w)
    | Some SessionStatus.starting =>
        let sessionId := default (this_name this) (id <$> _session this) in
        lift (wait_while_starting 60 this >>
              match status_of this with
              | Some SessionStatus.ready => ret tt
              | Some SessionStatus.error =>
                  throw (SessionNotConnectedError (initFailedMessage this) sessionId)
              | _ => throw (SessionNotConnectedError "Browser initialization timeout" sessionId)
              end)
             this w
    | None | Some SessionStatus.stopped =>
        let sessionId := default (this_name this) (id <$> _session this) in
        let workerUrl := Js.or_else (Some (_workerUrl this)) (Constants.getWorkerUrl None) in
        let viewport := default (mkViewport 1280 720) (viewport <$> _session this) in
        let colorScheme := default dark (_session this ≫= colorScheme) in
        let name := default sessionId (_session this ≫= name) in
        match initialize (mkInit sessionId (Some name) (Some viewport) None
                            (Some workerUrl) (Some colorScheme)) this w with
        | (Done _, this1, w1) => lift (wait_after_initialize 60 sessionId this1) this1 w1
        | r => r
        end
    | Some _ =>
        (Failed (SessionNotConnectedError "Browser not initialized or not ready"
                   (default (this_name this) (id <$> _session this))),
         this, w)
    end.

(** The common shape of the session-scoped operations: make sure the browser
    is ready, await [Effect.runPromise] of the one remote call, and on success
    store what [update] changes and the time of the activity. *)
Definition session_op {A} (call : string -> Eff A)
    (update : SessionState -> SessionState) : Method A :=
  fun this w =>
    match ensureInitialized this w with
    | (Done _, this1, w1) =>
        match _session this1 with
        | Some s =>
            match runPromise (call (id s)) w1 with
            | (Done a, w2) =>
                (Done a, with_session (set_lastActivity (clock w2) (update s)) this1, w2)
            | (r, w2) => (r, this1, w2)
            end
        | None => (Failed (Error "Cannot read properties of null"), this1, w1)
        end
    | (Failed e, this1, w1) => (Failed e, this1, w1)
    | (Interrupted, this1, w1) => (Interrupted, this1, w1)
    | (OutOfFuel, this1, w1) => (OutOfFuel, this1, w1)
    end.

Definition goto (url : string) : Method unit :=
  session_op (fun sid => Browser.navigateBrowser sid url) (fun s => s).

Definition act (instruction : string) : Method unit :=
  session_op (fun sid => Browser.sendInstruction sid instruction >> ret tt) (fun s => s).

Definition extract {T} (schema : Browser.ZodSchema T) : Method T :=
  session_op (fun sid => Browser.extractData sid schema) (fun s => s).

Definition resize (viewport : Viewport) : Method unit :=
  session_op (fun sid => Browser.resizeBrowser sid viewport) (set_viewport viewport).

Definition reload : Method unit :=
  session_op (fun sid => Browser.reloadBrowser sid) (fun s => s).

(** The object while [stop] awaits the remote call (line 358). *)
Definition stop_entered (this : Agent) : Agent :=
  match _session this with
  | None => this
  | Some s => with_session (set_status SessionStatus.stopping s) this
  end.

(** [stop] (lines 353-370): whatever the awaited call does is caught. *)
Definition stop : Method unit :=
  fun this w =>
    match _session this with
    | None => (Done tt, this, w)
    | Some s =>
        let this1 := stop_entered this in
        let '(_, w1) := runPromise (Browser.stopBrowser (id s)) w in
        (Done tt, with_session (set_status SessionStatus.stopped
                                  (set_status SessionStatus.stopping s)) this1, w1)
    end.

End BrowserAgent.

(** ** The confirmation gate ([confirm], [resolveConfirmation])

    The same code in [BrowserAgent] (lines 375-405) and in the mixin.  It
    reads one thing of the session, whether it exists, and otherwise lives on
    its own state: the slot [_confirmationPromise], the promises it created
    and the timers it started.  A promise is named by its number; [settled]
    maps a settled promise to its value and the time it was settled at.  The
    callback of every timer is the same closure: it looks at the slot when it
    fires. *)

Module ConfirmationGate.

Record Gate : Type := mkGate {
  hasSession : bool;                    (* [this._session] is not null *)
  _confirmationPromise : option nat;    (* the pending [{ resolve, reject }] *)
  settled : gmap nat (bool * Z);
  created : nat;                        (* promises created so far *)
  timers : list Z;                      (* due times of the pending timers, ascending *)
  now : Z
}.

(** [resolve(value)] of promise [p]: settling a settled promise does nothing. *)
Definition resolve (p : nat) (value : bool) (g : Gate) : Gate :=
  match settled g !! p with
  | Some _ => g
  | None => mkGate (hasSession g) (_confirmationPromise g)
              (<[p := (value, now g)]> (settled g)) (created g) (timers g) (now g)
  end.

Definition clear_slot (g : Gate) : Gate :=
  mkGate (hasSession g) None (settled g) (created g) (timers g) (now g).

Fixpoint insert_timer (due : Z) (ts : list Z) : list Z :=
  match ts with
  | [] => [due]
  | t :: rest => if due <? t then due :: t :: rest else t :: insert_timer due rest
  end.

(** [confirm(prompt, options)]: the number of the promise it returns.  The
    timer is due [timeoutMs] later; this is what [setTimeout] does for delays
    within its range (up to 2^31 - 1 ms), a larger delay is not followed
    here. *)
Definition confirm (timeout : option Z) (g : Gate) : Outcome nat * Gate :=
  if negb (hasSession g)
  then (Failed (SessionNotConnectedError "Session not initialized" "unknown"), g)
  else
    let timeoutMs := default Constants.CONFIRMATION_TIMEOUT_MS timeout in
    let p := created g in
    (Done p,
     mkGate (hasSession g) (Some p) (settled g) (S p)
       (insert_timer (now g + Z.max 0 timeoutMs) (timers g)) (now g)).

(** The callback handed to [setTimeout] (lines 388-393). *)
Definition on_timeout (g : Gate) : Gate :=
  match _confirmationPromise g with
  | Some p => clear_slot (resolve p false g)
  | None => g
  end.

(** [resolveConfirmation(value)] (lines 400-405) *)
Definition resolveConfirmation (value : bool) (g : Gate) : Gate :=
  match _confirmationPromise g with
  | Some p => clear_slot (resolve p value g)
  | None => g
  end.

(** Run the timers that are due by [upto], each at its due time. *)
Fixpoint run_timers (ts : list Z) (upto : Z) (g : Gate) : Gate :=
  match ts with
  | [] => mkGate (hasSession g) (_confirmationPromise g) (settled g) (created g) [] (now g)
  | t :: rest =>
      if t <=? upto
      then run_timers rest upto
             (on_timeout (mkGate (hasSession g) (_confirmationPromise g) (settled g)
                            (created g) rest (Z.max (now g) t)))
      else mkGate (hasSession g) (_confirmationPromise g) (settled g) (created g)
             (t :: rest) (now g)
  end.

(** Time passes: [dt] milliseconds later, with the due timers run. *)
Definition elapse (dt : Z) (g : Gate) : Gate :=
  let upto := now g + Z.max 0 dt in
  let g' := run_timers (timers g) upto g in
  mkGate (hasSession g') (_confirmationPromise g') (settled g') (created g') (timers g') upto.

(** What a test drives the gate with. *)
Inductive Event : Type :=
| Confirm (timeout : option Z)
| Resolve (value : bool)
| Elapse (dt : Z).

Definition handle (g : Gate) (ev : Event) : Gate :=
  match ev with
  | Confirm timeout => snd (confirm timeout g)
  | Resolve value => resolveConfirmation value g
  | Elapse dt => elapse dt g
  end.

Definition run (evs : list Event) (g : Gate) : Gate := fold_left handle evs g.

(** An agent with a session and nothing pending, at time [t]. *)
Definition idle (t : Z) : Gate := mkGate true None ∅ 0 [] t.

End ConfirmationGate.

(** ** The [withBrowser] mixin: [env], [context], [initialize], [stop] and
    [resize] *)

Module BrowserMixin.
Import Remote.

(** [SessionState] of the mixin has no [error] field. *)
Record SessionState : Type := mkSession {
  id : string;
  name : option string;
  status : SessionStatus.t;
  viewUrl : string;
  cdpUrl : string;
  wsEndpoint : option string;
  createdAt : Z;
  lastActivity : Z;
  viewport : Viewport;
  colorScheme : option ColorScheme
}.

Definition set_status (v : SessionStatus.t) (s : SessionState) : SessionState :=
  mkSession (id s) (name s) v (viewUrl s) (cdpUrl s) (wsEndpoint s) (createdAt s)
    (lastActivity s) (viewport s) (colorScheme s).

(** How the host object holds [ctx].  The mixin defines a [ctx] getter of
    its own, so a look-up of [self.ctx] reaches the host's value only when
    that is an own property of the object. *)
Inductive OwnCtx : Type :=
| ctx_inherited    (* no own property: [self.ctx] runs the mixin's [ctx] getter *)
| ctx_falsy        (* an own property that holds [null] or [undefined] *)
| ctx_durable.     (* an own property that holds the state of a Durable Object *)

(** The object.  Three fields describe the host it is mixed into:
    [own_env] tells whether the object holds [env] as an own property (with a
    [CONTAINER] binding), which shadows the [env] getter of the mixin;
    [proto_env] whether the look-ups of that getter find an [env] with a
    [CONTAINER] binding (as a value on the prototype two levels above the
    object); [own_ctx] how it holds [ctx].  [storage] is the value stored
    under the key ['session'] in the storage of the Durable Object;
    [storage.put] is taken to succeed. *)
Record Mixin : Type := mkMixin {
  _session : option SessionState;
  _workerUrl : string;
  _envCache : bool;
  own_env : bool;
  proto_env : bool;
  own_ctx : OwnCtx;
  storage : option SessionState
}.

Definition with_session (s : SessionState) (this : Mixin) : Mixin :=
  mkMixin (Some s) (_workerUrl this) (_envCache this) (own_env this) (proto_env this)
    (own_ctx this) (storage this).
Definition with_storage (s : option SessionState) (this : Mixin) : Mixin :=
  mkMixin (_session this) (_workerUrl this) (_envCache this) (own_env this) (proto_env this)
    (own_ctx this) s.
Definition with_envCache (this : Mixin) : Mixin :=
  mkMixin (_session this) (_workerUrl this) true (own_env this) (proto_env this)
    (own_ctx this) (storage this).

Inductive ContextType : Type := agent | durable.

(** The [context] getter (lines 126-192).  Without a cached env it answers
    the placeholder, of type ['agent'] with no storage.  With a cached env it
    reads [self.ctx]: an own property decides between ['durable'] and
    ['agent']; without one the read runs the [ctx] getter of the mixin
    (lines 253-260), which reads [this.context] again, and the recursion ends
    in the engine's [RangeError]. *)
Definition context (this : Mixin) : JsError + ContextType :=
  if negb (_envCache this) then inr agent
  else match own_ctx this with
       | ctx_durable => inr durable
       | ctx_falsy => inr agent
       | ctx_inherited => inl (RangeError "Maximum call stack size exceeded")
       end.

(** A read of [this.env].  An own property answers it and the getter of the
    mixin (lines 198-248) does not run, so nothing is cached.  Otherwise the
    getter answers the cached value, else what its look-ups find (cached from
    then on), else it throws: its last resort reads [self['env']], which is
    the getter itself, and every level of that recursion ends in the
    exception of line 241. *)
Definition env (this : Mixin) : JsError + Mixin :=
  if own_env this then inr this
  else if _envCache this then inr this
  else if proto_env this then inr (with_envCache this)
  else inl (Error "withBrowser env not available. Ensure Agent has env binding with CONTAINER.").

(** [ctx.storage.put('session', this._session)] when the context is durable. *)
Definition put_session (ctx : ContextType) (this : Mixin) : Mixin :=
  match ctx with
  | durable => with_storage (_session this) this
  | agent => this
  end.

Definition Method (A : Type) : Type := Mixin -> World -> Outcome A * Mixin * World.

(** [stop] (lines 510-529): the context is read once, before [this.env]. *)
Definition stop : Method unit :=
  fun this w =>
    match _session this with
    | None => (Done tt, this, w)
    | Some s =>
        let this1 := with_session (set_status SessionStatus.stopping s) this in
        match context this1 with
        | inl e => (Failed e, this1, w)
        | inr ctx =>
            let this2 := put_session ctx this1 in
            match env this2 with
            | inl e => (Failed e, this2, w)
            | inr this3 =>
                let '(_, w1) := runPromise (Browser.stopBrowser (id s)) w in
                let this4 :=
                  with_session (set_status SessionStatus.stopped
                                  (set_status SessionStatus.stopping s)) this3 in
                (Done tt, put_session ctx this4, w1)
            end
        end
    end.

(** [initialize] (lines 329-388) up to the point where the method returns:
    the record is created and stored, and the container start is launched
    without being awaited, which needs [this.env].  The launched start goes
    on by itself and is not followed here. *)
Definition initialize (options : BrowserAgent.InitOptions) : Method unit :=
  fun this w =>
    let sessionId := BrowserAgent.opt_sessionId options in
    let baseUrl :=
      Js.or_else (BrowserAgent.opt_workerUrl options)
        (Js.or_else (Some (_workerUrl this)) (Constants.getWorkerUrl None)) in
    let session :=
      mkSession sessionId (BrowserAgent.opt_name options) SessionStatus.starting
        (baseUrl ++ "/view/" ++ sessionId)
        (Js.replace baseUrl "http" "ws" ++ "/cdp/" ++ sessionId)
        None (clock w) (clock w)
        (default (mkViewport 1280 720) (BrowserAgent.opt_viewport options))
        (Some (default dark (BrowserAgent.opt_colorScheme options))) in
    let this1 :=
      mkMixin (Some session) baseUrl (_envCache this) (own_env this) (proto_env this)
        (own_ctx this) (storage this) in
    match context this1 with
    | inl e => (Failed e, this1, w)
    | inr ctx =>
        let this2 := put_session ctx this1 in
        match env this2 with
        | inl e => (Failed e, this2, w)
        | inr this3 => (Done tt, this3, w)
        end
    end.

Definition set_viewport (v : Viewport) (s : SessionState) : SessionState :=
  mkSession (id s) (name s) (status s) (viewUrl s) (cdpUrl s) (wsEndpoint s) (createdAt s)
    (lastActivity s) v (colorScheme s).
Definition set_lastActivity (v : Z) (s : SessionState) : SessionState :=
  mkSession (id s) (name s) (status s) (viewUrl s) (cdpUrl s) (wsEndpoint s) (createdAt s)
    v (viewport s) (colorScheme s).

(** [resize] (lines 534-552): no auto-initialization here; [this.env] is
    read before the call, the context after the record has been updated. *)
Definition resize (viewport : Viewport) : Method unit :=
  fun this w =>
    match _session this with
    | None => (Failed (SessionNotConnectedError "Browser not ready" "unknown"), this, w)
    | Some s =>
        match status s with
        | SessionStatus.ready =>
            match env this with
            | inl e => (Failed e, this, w)
            | inr this1 =>
                match runPromise (Browser.resizeBrowser (id s) viewport) w with
                | (Done _, w1) =>
                    let this2 :=
                      with_session (set_lastActivity (clock w1) (set_viewport viewport s))
                        this1 in
                    match context this2 with
                    | inl e => (Failed e, this2, w1)
                    | inr ctx => (Done tt, put_session ctx this2, w1)
                    end
                | (Failed e, w1) => (Failed e, this1, w1)
                | (Interrupted, w1) => (Interrupted, this1, w1)
                | (OutOfFuel, w1) => (OutOfFuel, this1, w1)
                end
            end
        | _ => (Failed (SessionNotConnectedError "Browser not ready" (id s)), this, w)
        end
    end.

End BrowserMixin.

(** ** Sequences of calls on one agent *)

Module Calls.
Import BrowserAgent.

Inductive Call : Type :=
| Initialize (options : InitOptions)
| Stop
| Goto (url : string)
| Act (instruction : string)
| Extract (schema : Browser.ZodSchema string)
| Resize (viewport : Remote.Viewport)
| Reload.

Definition after {A} (r : Outcome A * Agent * World) : Agent * World :=
  (snd (fst r), snd r).

Definition perform (st : Agent * World) (c : Call) : Agent * World :=
  let '(this, w) := st in
  match c with
  | Initialize options => after (initialize options this w)
  | Stop => after (stop this w)
  | Goto url => after (goto url this w)
  | Act instruction => after (act instruction this w)
  | Extract schema => after (extract schema this w)
  | Resize viewport => after (resize viewport this w)
  | Reload => after (reload this w)
  end.

Definition run (calls : list Call) (st : Agent * World) : Agent * World :=
  fold_left perform calls st.

(** A freshly constructed agent: no session yet. *)
Definition fresh (name : string) : Agent := mkAgent name None "".


End Calls.

(** ** Scenarios

    Containers and worlds on which the model is run. *)

Module Scenario.
Import Remote.

(** A container that answers every request with the same exchange. *)
Definition always (ex : Exchange) : nat -> Request -> Exchange := fun _ _ => ex.

(** A world at time [t] with no circuit-breaker entry and nothing sent. *)
Definition world (t : Z) (container : nat -> Request -> Exchange) : World :=
  mkWorld t None ∅ container [] [].

Definition no_options : Browser.BrowserOptions := Browser.mkOptions None None None None None.

Definition started : Json := mkJson true None (Some "ws://container/devtools") "".

Definition start_ok : Exchange := mkExchange 250 (Responds (mkResponse 200 None (inr started))).
Definition refused : Exchange := mkExchange 100 (Rejects "Connection refused").
Definition invalid_viewport : Exchange :=
  mkExchange 10 (Responds (mkResponse 422 (Some "invalid viewport") (inl ""))).
Definition request_timeout : Exchange :=
  mkExchange 10 (Responds (mkResponse 408 (Some "Request timeout") (inl ""))).

(** The start succeeds after 250 ms. *)
Definition ok_container : nat -> Request -> Exchange := always start_ok.

(** Every call is refused at the network level. *)
Definition refusing_container : nat -> Request -> Exchange := always refused.

(** The first two calls are refused, the third succeeds. *)
Definition flaky_container : nat -> Request -> Exchange :=
  fun n _ => if (n <? 2)%nat then refused else start_ok.

(** Every call is answered HTTP 422 "invalid viewport". *)
Definition invalid_viewport_container : nat -> Request -> Exchange := always invalid_viewport.

(** Every call is answered HTTP 408 "Request timeout". *)
Definition request_timeout_container : nat -> Request -> Exchange := always request_timeout.

(** Calls 0-3 and 5-8 are answered HTTP 422, call 4 succeeds. *)
Definition four_one_four_container : nat -> Request -> Exchange :=
  fun n _ => if (n =? 4)%nat then start_ok else invalid_viewport.

(** [n] calls of [startBrowser] for one session, one after the other. *)
Definition starts (n : nat) (sessionId : string) (w : World) : World :=
  Nat.iter n (fun w => snd (Browser.startBrowser sessionId no_options w)) w.

(** [initialize({ sessionId: 's1', viewport: { width: 1280, height: 720 } })] *)
Definition init_s1 : BrowserAgent.InitOptions :=
  BrowserAgent.mkInit "s1" None (Some (mkViewport 1280 720)) None None None.


(** A schema that accepts any payload but the empty one. *)
Definition nonempty_schema : Browser.ZodSchema string :=
  Browser.mkSchema "ZodString.min(1)"
    (fun payload => if String.eqb payload "" then inl "Required" else inr payload).

(** The remote extraction succeeds with an empty payload. *)
Definition empty_payload_container : nat -> Request -> Exchange :=
  always (mkExchange 40 (Responds (mkResponse 200 None (inr (mkJson true None None ""))))).

(** The remote extraction itself reports the failure "Required". *)
Definition failed_extraction_container : nat -> Request -> Exchange :=
  always (mkExchange 40
            (Responds (mkResponse 200 None (inr (mkJson false (Some "Required") None ""))))).

End Scenario.

(** ** Notions used in the statements *)

(** [issues reqs w w']: from [w] to [w'] exactly the requests [reqs] were
    sent, and neither the deadline nor the container changed. *)
Definition issues (reqs : list Remote.Request) (w w' : World) : Prop :=
  fetched w' = (fetched w ++ reqs)%list /\ deadline w' = deadline w /\ remote w' = remote w.

(** [timely dl w r w']: a computation run under the deadline [dl] never passes
    it: it is interrupted exactly at the deadline, or ends before. *)
Definition timely {A} (dl : Z) (w : World) (r : Outcome A) (w' : World) : Prop :=
  deadline w' = Some dl /\ clock w <= clock w' /\
  match r with
  | Interrupted => clock w' = dl
  | _ => clock w' < dl
  end.

(** The remote request of an [extract] succeeded: a 2xx response whose JSON
    says [success] and carries no [error]. *)
Definition remote_succeeded (rep : Remote.Reply) : bool :=
  match rep with
  | Remote.Rejects _ => false
  | Remote.Responds res =>
      Remote.ok res &&
      match Remote.json res with
      | inl _ => false
      | inr data => Remote.success data && negb (Js.truthy (Remote.error data))
      end
  end.



(** [sends_only req w w']: from [w] to [w'] the one request [req] was sent,
    nothing was waited for and the circuit breaker was left alone. *)
Definition sends_only (req : Remote.Request) (w w' : World) : Prop :=
  fetched w' = (fetched w ++ [req])%list /\ slept w' = slept w /\
  circuitBreakerState w' = circuitBreakerState w.

(** What holds of the confirmation gate of an agent with a session, whatever
    happened to it: the pending timers are in ascending order, the promises
    that are settled or in the slot have been created, and the promise in the
    slot is not settled. *)
Definition gate_wf (g : ConfirmationGate.Gate) : Prop :=
  ConfirmationGate.hasSession g = true /\
  StronglySorted Z.le (ConfirmationGate.timers g) /\
  (forall p, is_Some (ConfirmationGate.settled g !! p) -> (p < ConfirmationGate.created g)%nat) /\
  (forall p, ConfirmationGate._confirmationPromise g = Some p ->
     (p < ConfirmationGate.created g)%nat /\ ConfirmationGate.settled g !! p = None).

(** ** Proof steps that recur *)

(** Closes [timely dl w r w'] from the three facts at hand. *)
Ltac timely_close := split; [done | split; [lia | done]].

(** The driver ended after the one request of [Hi : issues [_] w w']. *)
Ltac one_request :=
  let H := fresh "H" in
  intros H; simplify_eq; split; [done|]; exists 1%nat; split; [lia|done].

(** Closes a goal on the outcome of a start attempt [H] that has failed;
    [Hfail] tells what a recorded failure leaves of the other entries. *)
Ltac attempt_failed H Hfail :=
  match type of H with context [isNonRetryableError (Error ?m)] =>
    destruct (isNonRetryableError (Error m)); simplify_eq; cbn;
      (split; [done|]); (split; [by apply Hfail|]); (split; [done|]);
      let e := fresh "e" in intros e ?; simplify_eq; exists m; auto
  end.

(** * Properties *)

(** ** The laws of [bind], pointwise *)

Section EffFacts.
Context {A B C : Type}.

Lemma bind_ret_l (a : A) (k : A -> Eff B) w : bind (ret a) k w = k a w.
Proof. reflexivity. Qed.

Lemma bind_ret_r (m : Eff A) w : bind m ret w = m w.
Proof. unfold bind, ret. by destruct (m w) as [[]]. Qed.

Lemma bind_assoc (m : Eff A) (k : A -> Eff B) (h : B -> Eff C) w :
  bind (bind m k) h w = bind m (fun a => bind (k a) h) w.
Proof. unfold bind. by destruct (m w) as [[]]. Qed.

Lemma bind_throw (e : JsError) (k : A -> Eff B) w : bind (throw e) k w = throw e w.
Proof. reflexivity. Qed.

(** [Effect.runPromise] changes the failure only. *)
Lemma runPromise_eq (m : Eff A) w r w1 :
  m w = (r, w1) ->
  runPromise m w =
    (match r with
     | Failed e => Failed (FiberFailure (fiberFailureMessage e) e)
     | _ => r
     end, w1).
Proof. intros H. unfold runPromise. rewrite H. by destruct r. Qed.

Lemma runPromise_world (m : Eff A) w : snd (runPromise m w) = snd (m w).
Proof. unfold runPromise. by destruct (m w) as [[]]. Qed.

Lemma runPromise_inv (m : Eff A) w r w1 :
  runPromise m w = (r, w1) ->
  snd (m w) = w1 /\
  match r with
  | Failed e => exists e0, fst (m w) = Failed e0 /\ e = FiberFailure (fiberFailureMessage e0) e0
  | _ => fst (m w) = r
  end.
Proof.
  unfold runPromise. destruct (m w) as [[a|e0| |] w0]; intros H; simplify_eq; cbn; eauto.
Qed.
End EffFacts.

(** ** The circuit breaker *)

Section CircuitBreakerFacts.
Import CircuitBreaker.
Implicit Types (m : gmap string Entry) (sid : string).

Lemma record_failure_lookup now sid m :
  recordCircuitBreakerFailure now sid m !! sid =
    Some (let state := default (mkEntry 0 0 false) (m !! sid) in
          mkEntry (failures state + 1) now
            (if CIRCUIT_BREAKER_THRESHOLD <=? failures state + 1 then true else open state)).
Proof. unfold recordCircuitBreakerFailure. by rewrite lookup_insert_eq. Qed.

Lemma record_failure_other now sid sid' m :
  sid <> sid' -> recordCircuitBreakerFailure now sid m !! sid' = m !! sid'.
Proof. intros Hne. unfold recordCircuitBreakerFailure. by rewrite lookup_insert_ne. Qed.

Lemma record_success_lookup sid m : recordCircuitBreakerSuccess sid m !! sid = None.
Proof. apply lookup_delete_eq. Qed.

Lemma check_absent now sid m : m !! sid = None -> checkCircuitBreaker now sid m = (true, m).
Proof. intros H. unfold checkCircuitBreaker. by rewrite H. Qed.

Lemma check_closed now sid m e :
  m !! sid = Some e -> open e = false -> fst (checkCircuitBreaker now sid m) = true.
Proof.
  intros H Ho. unfold checkCircuitBreaker. rewrite H, Ho.
  by destruct (_ <? _).
Qed.

(** The cooldown test of [checkCircuitBreaker] never answers yes: the window
    test before it has returned already, the window being the shorter. *)
Lemma check_cooldown_unreachable now sid m :
  checkCircuitBreaker now sid m =
    match m !! sid with
    | None => (true, m)
    | Some state =>
        if CIRCUIT_BREAKER_WINDOW_MS <? now - lastFailure state
        then (true, delete sid m)
        else (negb (open state), m)
    end.
Proof.
  unfold checkCircuitBreaker. destruct (m !! sid) as [e|]; [|done].
  destruct (Z.ltb_spec CIRCUIT_BREAKER_WINDOW_MS (now - lastFailure e)); [done|].
  destruct (open e); [|done].
  destruct (Z.ltb_spec CIRCUIT_BREAKER_COOLDOWN_MS (now - lastFailure e)); [|done].
  unfold CIRCUIT_BREAKER_WINDOW_MS, CIRCUIT_BREAKER_COOLDOWN_MS in *. lia.
Qed.

(** An open breaker refuses as long as the last failure is within the
    failure window. *)
Lemma check_open_within_window now sid m e :
  m !! sid = Some e -> open e = true ->
  now - lastFailure e <= CIRCUIT_BREAKER_WINDOW_MS ->
  checkCircuitBreaker now sid m = (false, m).
Proof.
  intros H Ho Hw. rewrite check_cooldown_unreachable, H, Ho.
  destruct (Z.ltb_spec CIRCUIT_BREAKER_WINDOW_MS (now - lastFailure e)); [lia|done].
Qed.
End CircuitBreakerFacts.

(** ** The retry schedule and the driver *)

Section RetryFacts.
Import Remote Browser.

Lemma containerRetrySchedule_step (e : JsError) (i j k : nat) :
  Schedule.step containerRetrySchedule e (i, j, k) =
    ((S i, S j, S k), k,
     if (k <? 20)%nat && isRetryableError e
     then Schedule.Continue (Z.max (Z.min (1000 * 2 ^ Z.of_nat i) 5000) 0)
     else Schedule.Stop).
Proof.
  cbn [containerRetrySchedule Schedule.step Schedule.whileInput Schedule.compose
       Schedule.union Schedule.exponential Schedule.spaced Schedule.recurs fst snd].
  destruct (k <? 20)%nat; cbn [andb]; [|reflexivity].
  destruct (isRetryableError e); reflexivity.
Qed.

(** The delays of [containerRetrySchedule]: 1000 ms doubled at every
    recurrence and capped at 5000 ms, for the first twenty recurrences. *)
Lemma containerRetrySchedule_delay (e : JsError) (i j k : nat) :
  (k < 20)%nat -> isRetryableError e = true ->
  snd (Schedule.step containerRetrySchedule e (i, j, k))
    = Schedule.Continue (Z.min (1000 * 2 ^ Z.of_nat i) 5000).
Proof.
  intros Hk He. rewrite containerRetrySchedule_step, He.
  apply Nat.ltb_lt in Hk. rewrite Hk. cbn [andb snd]. f_equal.
  assert (0 <= 2 ^ Z.of_nat i) by (apply Z.pow_nonneg; lia). lia.
Qed.

(** The twenty-first failure stops the schedule. *)
Lemma containerRetrySchedule_stops (e : JsError) (i j k : nat) :
  (20 <= k)%nat -> snd (Schedule.step containerRetrySchedule e (i, j, k)) = Schedule.Stop.
Proof.
  intros Hk. rewrite containerRetrySchedule_step.
  apply Nat.ltb_ge in Hk. by rewrite Hk.
Qed.

Lemma issues_trans a b w1 w2 w3 :
  issues a w1 w2 -> issues b w2 w3 -> issues (a ++ b)%list w1 w3.
Proof.
  intros (Ha & Hd & Hr) (Hb & Hd' & Hr'). repeat split; try congruence.
  rewrite Hb, Ha. by rewrite <- app_assoc.
Qed.

Lemma suspend_issues d w r w' :
  suspend d w = (r, w') -> issues [] w w' /\ (r = Done tt \/ r = Interrupted).
Proof.
  unfold suspend, issues. intros H.
  repeat case_match; simplify_eq; cbn; rewrite ?app_nil_r; auto.
Qed.

Lemma sleep_issues d w r w' :
  sleep d w = (r, w') -> issues [] w w' /\ (r = Done tt \/ r = Interrupted).
Proof.
  unfold sleep. intros H. apply suspend_issues in H as [(Hf & Hd & Hr) Ho].
  split; [|done]. unfold issues in *. cbn in *. auto.
Qed.

Lemma fetch_issues req w r w' :
  fetch req w = (r, w') -> issues [req] w w' /\ r <> OutOfFuel /\ (forall e, r <> Failed e).
Proof.
  unfold fetch, bind, ret. intros H.
  destruct (suspend _ _) as [r0 w0] eqn:Hs.
  apply suspend_issues in Hs as [(Hf & Hd & Hr) Ho]. cbn in *.
  rewrite app_nil_r in Hf.
  destruct Ho; subst; simplify_eq; unfold issues; repeat split; done.
Qed.

Lemma fetch_no_deadline req w :
  deadline w = None ->
  fst (fetch req w) = Done (reply (remote w (length (fetched w)) req)).
Proof. intros Hd. unfold fetch, bind, suspend, ret. cbn. by rewrite Hd. Qed.

(** One attempt sends one request. *)
Lemma attempt_issues sessionId options w r w' :
  startBrowser_attempt sessionId options w = (r, w') ->
  issues [startRequest sessionId options] w w' /\ r <> OutOfFuel.
Proof.
  unfold startBrowser_attempt, tryPromise, startBrowser_try, bind. intros H.
  destruct (fetch _ w) as [r0 w0] eqn:Hf.
  apply fetch_issues in Hf as ((Hf & Hd & Hr) & Hne & Hnf).
  unfold startBrowser_catch, recordFailure, recordSuccess, modify, throw, ret, issues in *.
  repeat case_match; simplify_eq; cbn; auto.
Qed.

(** The retry driver on [containerRetrySchedule], entered with [k] failures
    behind it: it ends (never out of fuel, given enough of it) after at
    least one and at most [21 - k] requests. *)
Lemma retry_from_issues fuel k sessionId options w r w' :
  (k <= 20)%nat -> (20 - k <= fuel)%nat ->
  retry_from fuel (startBrowser_attempt sessionId options) containerRetrySchedule
    (k, k, k) w = (r, w') ->
  r <> OutOfFuel /\
  exists n, (1 <= n <= 21 - k)%nat /\
    issues (replicate n (startRequest sessionId options)) w w'.
Proof.
  revert k w. induction fuel as [|fuel IH]; intros k w Hk Hfuel; cbn [retry_from];
    destruct (startBrowser_attempt sessionId options w) as [r0 w1] eqn:Ha;
    apply attempt_issues in Ha as [Hi Hne];
    (destruct r0 as [a|e| |];
     [one_request
     | rewrite containerRetrySchedule_step
     | one_request
     | done ]).
  - assert (k = 20)%nat as -> by lia. cbn [Nat.ltb Nat.leb andb].
    one_request.
  - destruct ((k <? 20)%nat && isRetryableError e) eqn:Hc.
    + apply andb_true_iff in Hc as [Hlt _]. apply Nat.ltb_lt in Hlt.
      unfold bind. destruct (sleep _ w1) as [r1 w2] eqn:Hs.
      apply sleep_issues in Hs as [Hi2 Ho].
      pose proof (issues_trans _ _ _ _ _ Hi Hi2) as Hi12. cbn in Hi12.
      destruct Ho; subst r1.
      * intros H. apply IH in H as (Hne' & n & Hn & Hi3); [|lia..].
        split; [done|]. exists (S n). split; [lia|].
        apply (issues_trans _ _ _ _ _ Hi12 Hi3).
      * one_request.
    + one_request.
Qed.

(** A failure that [isRetryableError] rejects ends the retry driver at once,
    whatever the state of the schedule. *)
Lemma retry_stops_on_non_retryable fuel sessionId options st w e w1 :
  startBrowser_attempt sessionId options w = (Failed e, w1) ->
  isRetryableError e = false ->
  retry_from fuel (startBrowser_attempt sessionId options) containerRetrySchedule st w
    = (Failed e, w1).
Proof.
  intros Ha He. destruct st as [[i j] k].
  destruct fuel; cbn [retry_from]; rewrite Ha, containerRetrySchedule_step, He;
    by rewrite andb_false_r.
Qed.

Lemma attempt_done_clears sessionId options w d w' :
  startBrowser_attempt sessionId options w = (Done d, w') ->
  circuitBreakerState w' !! sessionId = None.
Proof.
  unfold startBrowser_attempt, tryPromise, startBrowser_try, bind, startBrowser_catch,
    recordSuccess, modify, throw, ret.
  intros H. repeat case_match; simplify_eq; cbn. apply record_success_lookup.
Qed.

Lemma retry_from_done_clears {Out} fuel (policy : Schedule.t JsError Out) st
    sessionId options w d w' :
  retry_from fuel (startBrowser_attempt sessionId options) policy st w = (Done d, w') ->
  circuitBreakerState w' !! sessionId = None.
Proof.
  revert st w. induction fuel as [|fuel IH]; intros st w; cbn [retry_from];
    destruct (startBrowser_attempt sessionId options w) as [r0 w1] eqn:Ha;
    (destruct r0 as [a|e| |]; [|destruct (Schedule.step policy e st) as [[st' o] [delay|]]|..]);
    intros H; simplify_eq; eauto using attempt_done_clears.
  unfold bind in H. destruct (sleep delay w1) as [[[]| | |] w2] eqn:Hs; simplify_eq. eauto.
Qed.
End RetryFacts.

(** ** Deadlines *)

Section DeadlineFacts.
Import Remote Browser.

Lemma suspend_timely dl d w r w' :
  deadline w = Some dl -> clock w < dl -> suspend d w = (r, w') -> timely dl w r w'.
Proof.
  unfold suspend, timely. intros Hd Hlt H. rewrite Hd in H.
  destruct (Z.leb_spec dl (clock w + Z.max 0 d)); simplify_eq; cbn; (split; [done|lia]).
Qed.

Lemma sleep_timely dl d w r w' :
  deadline w = Some dl -> clock w < dl -> sleep d w = (r, w') -> timely dl w r w'.
Proof.
  unfold sleep. intros Hd Hlt H. apply (suspend_timely dl) in H; [|done..].
  exact H.
Qed.

Lemma fetch_timely dl req w r w' :
  deadline w = Some dl -> clock w < dl -> fetch req w = (r, w') -> timely dl w r w'.
Proof.
  intros Hd Hlt. unfold fetch, bind, ret.
  match goal with |- context [suspend ?d ?x] =>
    destruct (suspend d x) as [r0 w0] eqn:Hs end.
  apply (suspend_timely dl) in Hs; [|done..].
  intros H. destruct r0; simplify_eq; exact Hs.
Qed.

Lemma attempt_timely dl sessionId options w r w' :
  deadline w = Some dl -> clock w < dl ->
  startBrowser_attempt sessionId options w = (r, w') -> timely dl w r w'.
Proof.
  intros Hd Hlt. unfold startBrowser_attempt, tryPromise, startBrowser_try, bind.
  destruct (fetch _ w) as [r0 w0] eqn:Hf.
  apply (fetch_timely dl) in Hf; [|done..].
  destruct Hf as (Hd0 & Hle & Hr0).
  unfold startBrowser_catch, recordFailure, recordSuccess, modify, throw, ret, timely.
  intros H. repeat case_match; simplify_eq; cbn; auto.
Qed.

Lemma retry_from_timely {Out} fuel (policy : Schedule.t JsError Out) st dl
    sessionId options w r w' :
  deadline w = Some dl -> clock w < dl ->
  retry_from fuel (startBrowser_attempt sessionId options) policy st w = (r, w') ->
  timely dl w r w'.
Proof.
  revert st w. induction fuel as [|fuel IH]; intros st w Hd Hlt; cbn [retry_from];
    destruct (startBrowser_attempt sessionId options w) as [r0 w1] eqn:Ha;
    apply (attempt_timely dl) in Ha; try done;
    destruct Ha as (Hd1 & Hle1 & Hr1);
    (destruct r0 as [a|e| |];
     [|destruct (Schedule.step policy e st) as [[st' o] [delay|]]|..]);
    intros H; simplify_eq; try timely_close.
  unfold bind in H. destruct (sleep delay w1) as [r2 w2] eqn:Hs.
  apply (sleep_timely dl) in Hs; [|done..].
  destruct Hs as (Hd2 & Hle2 & Hr2).
  destruct r2 as [[]| | |]; simplify_eq.
  - apply IH in H; [|done..]. destruct H as (? & ? & ?). timely_close.
  - timely_close.
  - timely_close.
  - timely_close.
Qed.
End DeadlineFacts.

(** ** [startBrowser] *)

Section StartBrowserFacts.
Import Remote Browser CircuitBreaker.

Lemma set_circuitBreakerState_id w : set_circuitBreakerState (circuitBreakerState w) w = w.
Proof. by destruct w. Qed.

(** A refused start: the failure is the circuit-open error and the world is
    left as it was, no request sent. *)
Lemma startBrowser_refused sessionId options w :
  fst (checkCircuitBreaker (clock w) sessionId (circuitBreakerState w)) = false ->
  startBrowser sessionId options w =
    (Failed (ContainerStartError (circuitOpenMessage sessionId) (Some sessionId) None), w).
Proof.
  unfold startBrowser.
  destruct (checkCircuitBreaker _ _ _) as [allowed cb] eqn:Hc.
  cbn [fst]. intros ->. cbn [negb].
  rewrite check_cooldown_unreachable in Hc.
  destruct (circuitBreakerState w !! sessionId) as [e|]; [|done].
  destruct (_ <? _); simplify_eq. by rewrite set_circuitBreakerState_id.
Qed.

(** While the breaker is open and the last failure is within the failure
    window, a start is refused without a call to the container. *)
Lemma startBrowser_refuses_open_breaker sessionId options w e :
  circuitBreakerState w !! sessionId = Some e -> open e = true ->
  clock w - lastFailure e <= CIRCUIT_BREAKER_WINDOW_MS ->
  startBrowser sessionId options w =
    (Failed (ContainerStartError (circuitOpenMessage sessionId) (Some sessionId) None), w).
Proof.
  intros He Ho Hw. apply startBrowser_refused.
  by rewrite (check_open_within_window _ _ _ e).
Qed.

(** An admitted start ends, after at least one and at most 21 requests. *)
Lemma startBrowser_admitted sessionId options w r w' :
  fst (checkCircuitBreaker (clock w) sessionId (circuitBreakerState w)) = true ->
  startBrowser sessionId options w = (r, w') ->
  r <> OutOfFuel /\
  exists n, (1 <= n <= 21)%nat /\
    fetched w' = (fetched w ++ replicate n (startRequest sessionId options))%list.
Proof.
  unfold startBrowser.
  destruct (checkCircuitBreaker _ _ _) as [allowed cb]. cbn [fst]. intros ->. cbn [negb].
  unfold mapError, timeoutFail, retry.
  match goal with |- context [retry_from ?f ?a ?p ?s ?w0] =>
    destruct (retry_from f a p s w0) as [r0 w1] eqn:Hr end.
  apply (retry_from_issues _ 0%nat) in Hr as (Hne & n & Hn & Hf & _);
    [|lia|unfold retryFuel; lia].
  cbn in Hf. intros H.
  assert (fetched w' = fetched w1 /\ r <> OutOfFuel) as [-> Hr'].
  { repeat case_match; simplify_eq; by cbn. }
  split; [done|]. exists n. split; [lia|done].
Qed.

(** The fuel of the retry driver never runs out. *)
Lemma startBrowser_total sessionId options w :
  fst (startBrowser sessionId options w) <> OutOfFuel.
Proof.
  destruct (fst (checkCircuitBreaker (clock w) sessionId (circuitBreakerState w))) eqn:Hc.
  - destruct (startBrowser sessionId options w) as [r w'] eqn:Hs.
    by apply startBrowser_admitted in Hs as [? _].
  - by rewrite startBrowser_refused.
Qed.

(** The start never takes more than 120000 ms and is never left
    interrupted. *)
Lemma startBrowser_deadline sessionId options w r w' :
  deadline w = None ->
  startBrowser sessionId options w = (r, w') ->
  deadline w' = None /\ r <> Interrupted /\
  clock w <= clock w' <= clock w + 120000.
Proof.
  intros Hd. unfold startBrowser.
  destruct (checkCircuitBreaker _ _ _) as [[] cb]; cbn [negb].
  2: { intros H. simplify_eq. cbn. rewrite Hd. repeat split; try done; lia. }
  unfold mapError, timeoutFail, retry.
  cbn [deadline clock set_circuitBreakerState]. rewrite Hd.
  match goal with |- context [retry_from ?f ?a ?p ?s ?w0] =>
    destruct (retry_from f a p s w0) as [r0 w1] eqn:Hr end.
  apply (retry_from_timely _ _ _ (clock w + 120000)) in Hr; [|done|cbn; lia].
  destruct Hr as (Hd1 & Hle & Hr0). cbn in Hle.
  intros H. destruct r0 as [a|e| |]; simplify_eq; cbn.
  - repeat split; try done; lia.
  - repeat split; try done; lia.
  - destruct (Z.leb_spec (clock w + 120000) (clock w1)); [|lia].
    simplify_eq. cbn. repeat split; try done; lia.
  - repeat split; try done; lia.
Qed.

Lemma startBrowser_done_clears sessionId options w d w' :
  startBrowser sessionId options w = (Done d, w') ->
  circuitBreakerState w' !! sessionId = None.
Proof.
  unfold startBrowser. destruct (checkCircuitBreaker _ _ _) as [[] cb]; cbn [negb];
    [|intros H; discriminate H].
  unfold mapError, timeoutFail, retry.
  match goal with |- context [retry_from ?f ?a ?p ?s ?w0] =>
    destruct (retry_from f a p s w0) as [r0 w1] eqn:Hr end.
  intros H. assert (r0 = Done d /\ circuitBreakerState w' = circuitBreakerState w1) as [-> ->].
  { repeat case_match; simplify_eq; by cbn. }
  by apply retry_from_done_clears in Hr.
Qed.

(** The scenario of the specification: HTTP 422 "invalid viewport" is
    attempted once. *)
Example start_invalid_viewport_once :
  let r := startBrowser "s1" Scenario.no_options
             (Scenario.world 0 Scenario.invalid_viewport_container) in
  length (fetched (snd r)) = 1%nat /\ slept (snd r) = [] /\
  fst r = Failed (ContainerStartError
                    "Container start failed (non-retryable): invalid viewport" (Some "s1")
                    (Some (Error "Container start failed (non-retryable): invalid viewport"))).
Proof. vm_compute. repeat split; reflexivity. Qed.

(** The scenario of the specification: five failed starts for "s2", then a
    sixth right away, which is refused without a call to the container. *)
Example sixth_start_refused :
  let w5 := Scenario.starts 5 "s2" (Scenario.world 0 Scenario.invalid_viewport_container) in
  let r := startBrowser "s2" Scenario.no_options w5 in
  length (fetched w5) = 5%nat /\
  circuitBreakerState w5 !! "s2" = Some (CircuitBreaker.mkEntry 5 50 true) /\
  fst r = Failed (ContainerStartError (circuitOpenMessage "s2") (Some "s2") None) /\
  length (fetched (snd r)) = 5%nat /\ clock (snd r) = clock w5.
Proof. vm_compute. repeat split; reflexivity. Qed.

(** Four failed starts, a successful one and four failed ones again: the
    entry counts four failures, the breaker is closed and the tenth start
    goes to the container. *)
Example four_one_four_starts :
  let w9 := Scenario.starts 9 "s1" (Scenario.world 0 Scenario.four_one_four_container) in
  let r := startBrowser "s1" Scenario.no_options w9 in
  length (fetched w9) = 9%nat /\
  circuitBreakerState w9 !! "s1" = Some (CircuitBreaker.mkEntry 4 330 false) /\
  length (fetched (snd r)) = 10%nat.
Proof. vm_compute. repeat split; reflexivity. Qed.
End StartBrowserFacts.

(** ** The claims on the circuit breaker and the retry policy *)

Section BreakerClaims.
Import Remote Browser CircuitBreaker.

(** C1 (as the code has it). Five consecutive failures open the breaker,
    yet a start attempted 300001 ms after the last of them, well inside the
    cooldown of 600000 ms, is admitted: the entry is deleted and at least
    one request is sent to the container. *)
Theorem C1_open_breaker_admits_before_cooldown
    (sessionId : string) (options : BrowserOptions)
    (m : gmap string Entry) (container : nat -> Request -> Exchange)
    (t1 t2 t3 t4 t5 : Z) :
  let fail := fun t => recordCircuitBreakerFailure t sessionId in
  let m5 := fail t5 (fail t4 (fail t3 (fail t2 (fail t1
              (recordCircuitBreakerSuccess sessionId m))))) in
  let w := mkWorld (t5 + 300001) None m5 container [] [] in
  m5 !! sessionId = Some (mkEntry 5 t5 true) /\
  clock w - t5 <= CIRCUIT_BREAKER_COOLDOWN_MS /\
  checkCircuitBreaker (clock w) sessionId m5 = (true, delete sessionId m5) /\
  exists n, (1 <= n)%nat /\
    fetched (snd (startBrowser sessionId options w))
      = replicate n (startRequest sessionId options).
Proof.
  intros fail m5 w.
  assert (m5 !! sessionId = Some (mkEntry 5 t5 true)) as Hm.
  { subst m5 fail. cbv beta.
    rewrite !record_failure_lookup, record_success_lookup. reflexivity. }
  assert (checkCircuitBreaker (clock w) sessionId m5 = (true, delete sessionId m5)) as Hc.
  { unfold checkCircuitBreaker. rewrite Hm. cbn [lastFailure clock w].
    replace (t5 + 300001 - t5) with 300001 by lia. reflexivity. }
  split; [done|]. split; [cbn; unfold CIRCUIT_BREAKER_COOLDOWN_MS; lia|]. split; [done|].
  destruct (startBrowser sessionId options w) as [r w'] eqn:Hs.
  apply startBrowser_admitted in Hs as (_ & n & Hn & Hf).
  - exists n. split; [lia|]. cbn [snd]. rewrite Hf. reflexivity.
  - cbn [circuitBreakerState w]. by rewrite Hc.
Qed.

(** C2 (as the code has it). An HTTP 408 answer "Request timeout" is thrown
    as 'Container start failed (non-retryable): Request timeout', which the
    classifier holds fatal; the start nevertheless calls the container 21
    times, because the retry schedule asks [isRetryableError], and that one
    finds 'timeout' in the message. *)
Theorem C2_fatal_failure_is_retried :
  let thrown := Error "Container start failed (non-retryable): Request timeout" in
  let r := startBrowser "s1" Scenario.no_options
             (Scenario.world 0 Scenario.request_timeout_container) in
  isNonRetryableError thrown = true /\
  isRetryableError thrown = true /\
  fst r = Failed (ContainerStartError (message_of thrown) (Some "s1") (Some thrown)) /\
  length (fetched (snd r)) = 21%nat.
Proof. vm_compute. repeat split; reflexivity. Qed.

(** C3 (as the code has it). Against a container that refuses every
    connection the start waits 1000, 2000, 4000 and then 5000 ms seventeen
    times, and calls the container 21 times, one more than twenty, before it
    fails with [ContainerStartError]; the deadline of 120000 ms is not
    reached. *)
Theorem C3_twenty_one_attempts :
  let r := startBrowser "s1" Scenario.no_options
             (Scenario.world 0 Scenario.refusing_container) in
  fst r = Failed (ContainerStartError "Connection refused" (Some "s1")
                    (Some (Error "Connection refused"))) /\
  length (fetched (snd r)) = 21%nat /\
  slept (snd r) = ([1000; 2000; 4000] ++ replicate 17 5000)%list /\
  clock (snd r) = 94100 /\ clock (snd r) < 120000.
Proof. vm_compute. repeat split; reflexivity. Qed.

(** C4. A success for a session id removes its circuit-breaker entry
    altogether (the map has no entry afterwards, whatever was counted
    before), also when the success is that of [startBrowser]; hence four
    failures, a success and four more failures leave an entry of four
    failures with the breaker closed, and the next check admits the call. *)
Theorem C4_success_resets_breaker (sessionId : string) :
  (forall m, recordCircuitBreakerSuccess sessionId m !! sessionId = None) /\
  (forall m t1 t2 t3 t4 t5 t6 t7 t8,
     let fail := fun t => recordCircuitBreakerFailure t sessionId in
     let m' := fail t8 (fail t7 (fail t6 (fail t5
                 (recordCircuitBreakerSuccess sessionId
                    (fail t4 (fail t3 (fail t2 (fail t1 m)))))))) in
     m' !! sessionId = Some (mkEntry 4 t8 false) /\
     forall now, fst (checkCircuitBreaker now sessionId m') = true) /\
  (forall options w d w',
     startBrowser sessionId options w = (Done d, w') ->
     circuitBreakerState w' !! sessionId = None).
Proof.
  split; [apply record_success_lookup|]. split; [|apply startBrowser_done_clears].
  intros m t1 t2 t3 t4 t5 t6 t7 t8 fail m'.
  assert (m' !! sessionId = Some (mkEntry 4 t8 false)) as Hm.
  { subst m' fail. cbv beta.
    rewrite record_failure_lookup, record_failure_lookup, record_failure_lookup,
      record_failure_lookup, record_success_lookup. reflexivity. }
  split; [done|]. intros now. by eapply check_closed.
Qed.

(** The third part of C4 at work: one failure on record, then a start that
    succeeds. *)
Lemma C4_success_resets_breaker_witness :
  let w := mkWorld 1000 None {[ "s1" := mkEntry 1 0 false ]} Scenario.ok_container [] [] in
  fst (startBrowser "s1" Scenario.no_options w) = Done Scenario.started /\
  circuitBreakerState (snd (startBrowser "s1" Scenario.no_options w)) !! "s1" = None.
Proof.
  intros w. split; [vm_compute; reflexivity|].
  apply (proj2 (proj2 (C4_success_resets_breaker "s1")) Scenario.no_options w
           Scenario.started).
  rewrite (surjective_pairing (startBrowser "s1" Scenario.no_options w)).
  f_equal; vm_compute; reflexivity.
Defined.

(** C5 (as the code has it). An open entry whose last failure is older than
    the failure window is deleted by the first test of
    [checkCircuitBreaker], although the cooldown has not elapsed. *)
Theorem C5_open_entry_deleted_by_window_rule (sessionId : string) (t : Z) :
  let m : gmap string Entry := {[ sessionId := mkEntry 5 t true ]} in
  let now := t + 300001 in
  now - t <= CIRCUIT_BREAKER_COOLDOWN_MS /\
  checkCircuitBreaker now sessionId m = (true, ∅).
Proof.
  cbv zeta. split; [unfold CIRCUIT_BREAKER_COOLDOWN_MS; lia|].
  unfold checkCircuitBreaker. rewrite lookup_singleton_eq. cbn [lastFailure].
  replace (t + 300001 - t) with 300001 by lia. cbn.
  by rewrite delete_singleton_eq.
Qed.
End BreakerClaims.

(** ** The session lifecycle *)

Section AgentFacts.
Import Remote BrowserAgent Calls.






(** [initialize] never leaves the session in 'starting': it ends with the
    session 'ready', or it raises [ContainerStartError] with the session in
    'error'. *)
Lemma initialize_settles options this w :
  deadline w = None ->
  exists s, _session (snd (fst (initialize options this w))) = Some s /\
    ((fst (fst (initialize options this w)) = Done tt /\ status s = SessionStatus.ready)
     \/ (exists e, fst (fst (initialize options this w)) = Failed e /\
           isContainerStartError e = true /\
           status s = SessionStatus.error /\ error s = Some (message_of e))).
Proof.
  intros Hd. unfold initialize, runPromise.
  destruct (Browser.startBrowser _ _ w) as [r w1] eqn:Hs.
  pose proof (startBrowser_total (opt_sessionId options)
                (Browser.mkOptions
                   (Some (default (mkViewport 1280 720) (opt_viewport options)))
                   (opt_startUrl options)
                   (Some (default dark (opt_colorScheme options))) None None) w) as Ht.
  cbn in Hs. rewrite Hs in Ht.
  apply startBrowser_deadline in Hs as (_ & Hi & _); [|done].
  destruct r as [d|e| |]; try done; cbn; eexists; (split; [reflexivity|]); cbn.
  - left. by destruct d.
  - right. eauto 10.
Qed.











(** The scenario of the specification: the start is answered HTTP 422
    "invalid viewport".  One request, the session in 'error', and an error
    detail that mentions 'invalid'. *)
Example initialize_invalid_viewport :
  let r := initialize Scenario.init_s1 (fresh "s1")
             (Scenario.world 0 Scenario.invalid_viewport_container) in
  length (fetched (snd r)) = 1%nat /\
  status_of (snd (fst r)) = Some SessionStatus.error /\
  (fun detail => Js.includes detail "invalid") <$> (_session (snd (fst r)) ≫= error)
    = Some true.
Proof. vm_compute. repeat split; reflexivity. Qed.

(** The scenario of the specification: the start is refused twice and then
    succeeds.  The session is 'ready' after three requests, and its
    [lastActivity] is the time the record was created at. *)
Example initialize_after_two_refusals :
  let r := initialize Scenario.init_s1 (fresh "s1")
             (Scenario.world 1700 Scenario.flaky_container) in
  fst (fst r) = Done tt /\
  status_of (snd (fst r)) = Some SessionStatus.ready /\
  length (fetched (snd r)) = 3%nat /\
  lastActivity_of (snd (fst r)) = Some 1700.
Proof. vm_compute. repeat split; reflexivity. Qed.
End AgentFacts.

Section AgentClaims.
Import Remote BrowserAgent Calls.








End AgentClaims.

(** ** Extraction *)

Section ExtractClaims.
Import Remote Browser.

(** A validation failure and a remote failure can come out with the same tag
    and the same message; their causes differ. *)
Example extract_failures_same_message :
  let wv := Scenario.world 0 Scenario.empty_payload_container in
  let wr := Scenario.world 0 Scenario.failed_extraction_container in
  let req := extractRequest "s1" Scenario.nonempty_schema in
  remote_succeeded (reply (remote wv 0%nat req)) = true /\
  parse Scenario.nonempty_schema "" = inl "Required" /\
  remote_succeeded (reply (remote wr 0%nat req)) = false /\
  exists ev er,
    fst (extractData "s1" Scenario.nonempty_schema wv) = Failed ev /\
    fst (extractData "s1" Scenario.nonempty_schema wr) = Failed er /\
    tag_of ev = tag_of er /\ message_of ev = message_of er /\
    cause_of ev = Some (ZodError "Required") /\ cause_of er = Some (Error "Required").
Proof.
  cbv zeta. split; [reflexivity|]. split; [reflexivity|]. split; [reflexivity|].
  eexists _, _. split; [vm_compute; reflexivity|]. split; [vm_compute; reflexivity|].
  repeat split; reflexivity.
Qed.






End ExtractClaims.

(** ** The confirmation gate *)

Section GateFacts.
Import ConfirmationGate.

(** With an empty slot, both [resolveConfirmation] and a timer that fires
    do nothing. *)
Lemma resolveConfirmation_empty value g :
  _confirmationPromise g = None -> resolveConfirmation value g = g.
Proof. unfold resolveConfirmation. by intros ->. Qed.

Lemma on_timeout_empty g : _confirmationPromise g = None -> on_timeout g = g.
Proof. unfold on_timeout. by intros ->. Qed.

Lemma resolve_slot p value g :
  _confirmationPromise (resolve p value g) = _confirmationPromise g.
Proof. unfold resolve. by destruct (settled g !! p). Qed.

(** After a resolution the slot is empty, so a further
    [resolveConfirmation] changes nothing. *)
Lemma resolveConfirmation_twice v1 v2 g :
  resolveConfirmation v2 (resolveConfirmation v1 g) = resolveConfirmation v1 g.
Proof.
  apply resolveConfirmation_empty. unfold resolveConfirmation.
  by destruct (_confirmationPromise g) eqn:Hslot.
Qed.

Lemma confirm_spec timeout slot st n ts t :
  confirm (Some timeout) (mkGate true slot st n ts t)
  = (Done n, mkGate true (Some n) st (S n) (insert_timer (t + Z.max 0 timeout) ts) t).
Proof. reflexivity. Qed.

Lemma elapse_none_due dt h slot st n due rest t :
  t + Z.max 0 dt < due ->
  elapse dt (mkGate h slot st n (due :: rest) t)
  = mkGate h slot st n (due :: rest) (t + Z.max 0 dt).
Proof.
  intros Hlt. unfold elapse. cbn [timers now run_timers].
  destruct (Z.leb_spec due (t + Z.max 0 dt)); [lia|]. reflexivity.
Qed.

Lemma elapse_last_due dt h slot st n due t :
  due <= t + Z.max 0 dt ->
  elapse dt (mkGate h slot st n [due] t)
  = let g := on_timeout (mkGate h slot st n [] (Z.max t due)) in
    mkGate (hasSession g) (_confirmationPromise g) (settled g) (created g) []
      (t + Z.max 0 dt).
Proof.
  intros Hle. unfold elapse. cbn [timers now run_timers].
  destruct (Z.leb_spec due (t + Z.max 0 dt)); [|lia].
  unfold on_timeout, clear_slot, resolve. cbn [_confirmationPromise settled].
  destruct slot as [p|]; [destruct (st !! p)|]; reflexivity.
Qed.

Lemma resolveConfirmation_pending value h p st n ts t :
  st !! p = None ->
  resolveConfirmation value (mkGate h (Some p) st n ts t)
  = mkGate h None (<[p := (value, t)]> st) n ts t.
Proof.
  intros Hp. unfold resolveConfirmation, clear_slot, resolve.
  cbn [_confirmationPromise settled]. by rewrite Hp.
Qed.

Lemma on_timeout_pending h p st n ts t :
  st !! p = None ->
  on_timeout (mkGate h (Some p) st n ts t) = mkGate h None (<[p := (false, t)]> st) n ts t.
Proof.
  intros Hp. unfold on_timeout, clear_slot, resolve.
  cbn [_confirmationPromise settled]. by rewrite Hp.
Qed.

(** A [confirm] on a gate at rest (no timer left over) that is resolved from
    outside after [dt < timeout]: the promise holds that value, the slot is
    empty, and the timer that fires later changes nothing. *)
Lemma confirm_resolved_externally t timeout dt value :
  0 <= dt < timeout ->
  let g := run [Confirm (Some timeout); Elapse dt; Resolve value] (idle t) in
  g = mkGate true None {[ 0%nat := (value, t + dt) ]} 1 [t + timeout] (t + dt) /\
  elapse timeout g
  = mkGate true None {[ 0%nat := (value, t + dt) ]} 1 [] (t + dt + timeout).
Proof.
  intros Hdt. cbv zeta. unfold run, idle. cbn [fold_left handle].
  rewrite confirm_spec. cbn [snd insert_timer].
  replace (Z.max 0 timeout) with timeout by lia.
  rewrite elapse_none_due by lia. replace (Z.max 0 dt) with dt by lia.
  rewrite resolveConfirmation_pending by apply lookup_empty.
  split; [reflexivity|].
  rewrite elapse_last_due by lia. replace (Z.max 0 timeout) with timeout by lia.
  reflexivity.
Qed.

(** The same [confirm] left alone: the timer resolves it to [false] when
    the timeout expires, not before. *)
Lemma confirm_times_out t timeout dt :
  0 <= dt < timeout ->
  let g := run [Confirm (Some timeout); Elapse dt] (idle t) in
  g = mkGate true (Some 0%nat) ∅ 1 [t + timeout] (t + dt) /\
  elapse (timeout - dt) g
  = mkGate true None {[ 0%nat := (false, t + timeout) ]} 1 [] (t + timeout).
Proof.
  intros Hdt. cbv zeta. unfold run, idle. cbn [fold_left handle].
  rewrite confirm_spec. cbn [snd insert_timer].
  replace (Z.max 0 timeout) with timeout by lia.
  rewrite elapse_none_due by lia. replace (Z.max 0 dt) with dt by lia.
  split; [reflexivity|].
  rewrite elapse_last_due by lia. rewrite on_timeout_pending by apply lookup_empty.
  cbn [hasSession _confirmationPromise settled created].
  replace (Z.max 0 (timeout - dt)) with (timeout - dt) by lia.
  replace (Z.max (t + dt) (t + timeout)) with (t + timeout) by lia.
  replace (t + dt + (timeout - dt)) with (t + timeout) by lia. reflexivity.
Qed.

(** C9 (as the code has it). A first confirmation (timeout 60000) is
    answered from outside after one second; a second confirmation (timeout
    60000) is asked at two seconds and nobody answers it.  The timer of the
    first confirmation, never cancelled, fires at 60000 and resolves the
    second one to [false], 2000 ms before its own timeout expires. *)
Theorem C9_stale_timer_resolves_later_confirmation :
  let before := run [Confirm (Some 60000); Elapse 1000; Resolve true; Elapse 1000]
                  (idle 0) in
  let g := run [Confirm (Some 60000); Elapse 58000] before in
  fst (confirm (Some 60000) before) = Done 1%nat /\
  now before = 2000 /\
  timers before = [60000] /\
  settled g !! 0%nat = Some (true, 1000) /\
  settled g !! 1%nat = Some (false, 60000) /\
  60000 < now before + 60000 /\
  _confirmationPromise g = None.
Proof. vm_compute. repeat split; reflexivity. Qed.
End GateFacts.

(** * Further properties of the code *)

(** ** The circuit breaker *)

Section BreakerExtras.
Import CircuitBreaker.
Implicit Types (m : gmap string Entry) (sid : string).

(** X1. [checkCircuitBreaker] refuses exactly when the session has an open entry
    whose last failure lies within the failure window.  A refusal leaves the
    map as it is, and no check touches the entry of another session. *)
Theorem breaker_refuses_iff now sid m :
  (fst (checkCircuitBreaker now sid m) = false <->
   exists e, m !! sid = Some e /\ open e = true
             /\ now - lastFailure e <= CIRCUIT_BREAKER_WINDOW_MS) /\
  (fst (checkCircuitBreaker now sid m) = false -> snd (checkCircuitBreaker now sid m) = m) /\
  (forall sid', sid' <> sid -> snd (checkCircuitBreaker now sid m) !! sid' = m !! sid').
Proof.
  rewrite check_cooldown_unreachable.
  destruct (m !! sid) as [e|] eqn:He.
  - destruct (Z.ltb_spec CIRCUIT_BREAKER_WINDOW_MS (now - lastFailure e)) as [Hw|Hw];
      cbn [fst snd].
    + split; [|split].
      * split; [done|]. intros (e' & He' & _ & Hle). simplify_eq. lia.
      * done.
      * intros sid' Hne. by rewrite lookup_delete_ne.
    + split; [|split; [done|done]].
      split.
      * intros Ho. exists e. apply negb_false_iff in Ho. done.
      * intros (e' & He' & Ho & _). simplify_eq. by rewrite Ho.
  - cbn [fst snd]. split; [|done]. split; [done|]. by intros (e & ? & _).
Qed.

Lemma last_nonempty_default (l : list Z) (a d d' : Z) :
  List.last (a :: l) d = List.last (a :: l) d'.
Proof. revert a. induction l as [|b l IH]; intros a; [done|]. cbn. apply IH. Qed.

Lemma failures_fold sid (ts : list Z) m n t0 :
  m !! sid = Some (mkEntry n t0 (CIRCUIT_BREAKER_THRESHOLD <=? n)) ->
  fold_left (fun acc t => recordCircuitBreakerFailure t sid acc) ts m !! sid
  = Some (mkEntry (n + Z.of_nat (length ts)) (List.last ts t0)
            (CIRCUIT_BREAKER_THRESHOLD <=? n + Z.of_nat (length ts))).
Proof.
  revert m n t0. induction ts as [|t ts IH]; intros m n t0 Hm.
  - cbn. by rewrite Z.add_0_r.
  - cbn [fold_left]. rewrite (IH _ (n + 1) t).
    + replace (n + Z.of_nat (length (t :: ts))) with (n + 1 + Z.of_nat (length ts))
        by (cbn [length]; lia).
      replace (List.last (t :: ts) t0) with (List.last ts t) by (destruct ts as [|z ts']; [reflexivity|];
            change (List.last (t :: z :: ts') t0) with (List.last (z :: ts') t0);
            apply last_nonempty_default).
      reflexivity.
    + rewrite record_failure_lookup, Hm. unfold default, from_option, id. cbn [failures open]. f_equal. f_equal.
      unfold CIRCUIT_BREAKER_THRESHOLD.
      destruct (Z.leb_spec 5 (n + 1)) as [H|H].
      * reflexivity.
      * apply Z.leb_gt. lia.
Qed.

(** X2. Counting from no entry, [n] consecutive failures leave an entry of [n]
    failures, dated at the last of them, that is open exactly from the fifth
    failure on; failures of one session never touch another session's entry. *)
Theorem breaker_opens_at_fifth_failure sid m (ts : list Z) (t : Z) :
  let record := fun acc t => recordCircuitBreakerFailure t sid acc in
  let m' := fold_left record (ts ++ [t]) (recordCircuitBreakerSuccess sid m) in
  m' !! sid = Some (mkEntry (Z.of_nat (length ts) + 1) t (5 <=? Z.of_nat (length ts) + 1)) /\
  (forall sid', sid' <> sid -> m' !! sid' = m !! sid').
Proof.
  cbv zeta. split.
  - destruct ts as [|t1 ts]; cbn [app fold_left].
    + rewrite record_failure_lookup, record_success_lookup. reflexivity.
    + rewrite (failures_fold _ _ _ 1 t1).
      * rewrite length_app, last_last. cbn [length].
        replace (1 + Z.of_nat (length ts + 1)) with (Z.of_nat (S (length ts)) + 1) by lia.
        reflexivity.
      * by rewrite record_failure_lookup, record_success_lookup.
  - intros sid' Hne.
    assert (forall l m0, fold_left (fun acc t => recordCircuitBreakerFailure t sid acc) l m0
                         !! sid' = m0 !! sid') as Hfold.
    { induction l as [|a l IH]; intros m0; [done|].
      cbn [fold_left]. rewrite IH. by apply record_failure_other. }
    rewrite Hfold. unfold recordCircuitBreakerSuccess. by rewrite lookup_delete_ne.
Qed.
End BreakerExtras.

(** ** [startBrowser]: what a run leaves behind *)

Section StartBrowserExtras.
Import Remote Browser CircuitBreaker.

(** What holds of every run of the retry driver: a relation [R] between
    worlds that every run of [self] and every wait preserves, and a property
    [P] of the outcomes of [self]. *)
Lemma retry_from_inv {A Out} (R : World -> World -> Prop) (P : Outcome A -> World -> Prop)
    (self : Eff A) (policy : Schedule.t JsError Out) :
  (forall w, R w w) ->
  (forall w1 w2 w3, R w1 w2 -> R w2 w3 -> R w1 w3) ->
  (forall w r w', self w = (r, w') -> R w w' /\ P r w') ->
  (forall d w r w', sleep d w = (r, w') -> R w w') ->
  forall fuel st w r w',
    retry_from fuel self policy st w = (r, w') ->
    R w w' /\ (P r w' \/ r = Interrupted \/ r = OutOfFuel).
Proof.
  intros Hrefl Htrans Hself Hsleep.
  induction fuel as [|fuel IH]; intros st w r w'; cbn [retry_from];
    destruct (self w) as [r0 w1] eqn:Ha; apply Hself in Ha as [HR HP];
    (destruct r0 as [a|e| |];
       [|destruct (Schedule.step policy e st) as [[st' o] [delay|]]|..]);
    intros H; simplify_eq; eauto.
  unfold bind in H. destruct (sleep delay w1) as [r1 w2] eqn:Hs.
  pose proof (Hsleep _ _ _ _ Hs) as HR2.
  apply sleep_issues in Hs as [_ [-> | ->]]; simplify_eq.
  - apply IH in H as [HR3 HP3]. split; [|done]. eauto.
  - split; [|auto]. eauto.
Qed.

(** An admitted start is the retry driver run under the deadline of
    120000 ms, with its failure wrapped. *)
Lemma startBrowser_admitted_inv sessionId options w r w' :
  fst (checkCircuitBreaker (clock w) sessionId (circuitBreakerState w)) = true ->
  startBrowser sessionId options w = (r, w') ->
  exists r0 w1,
    retry_from retryFuel (startBrowser_attempt sessionId options) containerRetrySchedule
      (0%nat, 0%nat, 0%nat)
      (set_deadline
         (Some (match deadline w with
                | Some o => Z.min o (clock w + 120000)
                | None => clock w + 120000
                end))
         (set_circuitBreakerState
            (snd (checkCircuitBreaker (clock w) sessionId (circuitBreakerState w))) w))
      = (r0, w1) /\
    w' = set_deadline (deadline w) w1 /\
    r = match r0 with
        | Done d => Done d
        | Failed e =>
            Failed (if isContainerStartError e then e
                    else ContainerStartError (message_of e) (Some sessionId) (Some e))
        | Interrupted =>
            if clock w + 120000 <=? clock w1
            then Failed (ContainerStartError "Container start timeout after 2 minutes"
                           (Some sessionId) None)
            else Interrupted
        | OutOfFuel => OutOfFuel
        end.
Proof.
  unfold startBrowser.
  destruct (checkCircuitBreaker _ _ _) as [allowed cb]. cbn [fst snd]. intros ->. cbn [negb].
  unfold mapError, timeoutFail, retry.
  cbn [deadline clock set_circuitBreakerState].
  match goal with |- context [retry_from ?f ?a ?p ?s ?w0] =>
    destruct (retry_from f a p s w0) as [r0 w1] eqn:Hr end.
  intros H. exists r0, w1. split; [exact Hr|].
  destruct r0 as [d|e| |]; simplify_eq; [done..| |done].
  destruct (clock w + 120000 <=? clock w1); simplify_eq; done.
Qed.

Lemma startBrowser_cases sessionId options w :
  (fst (checkCircuitBreaker (clock w) sessionId (circuitBreakerState w)) = false /\
   startBrowser sessionId options w =
     (Failed (ContainerStartError (circuitOpenMessage sessionId) (Some sessionId) None), w))
  \/ fst (checkCircuitBreaker (clock w) sessionId (circuitBreakerState w)) = true.
Proof.
  destruct (fst (checkCircuitBreaker _ _ _)) eqn:Hc; [by right|left].
  split; [done|]. by apply startBrowser_refused.
Qed.

Lemma check_other now sid sid' (m : gmap string Entry) :
  sid' <> sid -> snd (checkCircuitBreaker now sid m) !! sid' = m !! sid'.
Proof.
  intros Hne. rewrite check_cooldown_unreachable.
  destruct (m !! sid) as [e|]; [|done].
  destruct (_ <? _); cbn [snd]; [|done]. by rewrite lookup_delete_ne.
Qed.

Lemma fetch_frame req w r w' :
  fetch req w = (r, w') ->
  circuitBreakerState w' = circuitBreakerState w /\ slept w' = slept w.
Proof.
  unfold fetch, bind, ret, suspend. intros H.
  repeat case_match; simplify_eq; by cbn.
Qed.

Lemma sleep_frame d w r w' :
  sleep d w = (r, w') ->
  circuitBreakerState w' = circuitBreakerState w /\ slept w' = (slept w ++ [d])%list.
Proof.
  unfold sleep, suspend. intros H.
  repeat case_match; simplify_eq; by cbn.
Qed.

(** What one attempt does: the request goes out, nothing is waited for, the
    entries of other sessions stay, and the outcome is a validated answer of
    the container or a failure that names the session. *)
Lemma attempt_inv sessionId options w r w' :
  startBrowser_attempt sessionId options w = (r, w') ->
  slept w' = slept w /\
  (forall sid', sid' <> sessionId ->
     circuitBreakerState w' !! sid' = circuitBreakerState w !! sid') /\
  (forall data, r = Done data ->
     success data = true /\ Js.truthy (Remote.error data) = false /\
     exists res,
       reply (remote w (length (fetched w)) (startRequest sessionId options)) = Responds res /\
       ok res = true /\ json res = inr data) /\
  (forall e, r = Failed e ->
     exists m, e = Error m \/ e = ContainerStartError m (Some sessionId) (Some (Error m))).
Proof.
  unfold startBrowser_attempt, tryPromise, startBrowser_try, bind. intros H.
  destruct (fetch _ w) as [r0 w0] eqn:Hf.
  pose proof (fetch_frame _ _ _ _ Hf) as [Hcb Hsl].
  assert (forall rep, r0 = Done rep ->
            rep = reply (remote w (length (fetched w)) (startRequest sessionId options)))
    as Hrep.
  { intros rep ->. unfold fetch, bind, ret in Hf.
    destruct (suspend _ _) as [[[]| | |] ?]; by simplify_eq. }
  destruct r0 as [rep|e0| |].
  2:{ apply fetch_issues in Hf as (_ & _ & Hnf). by destruct (Hnf e0). }
  2,3: simplify_eq; rewrite Hcb, Hsl; repeat split; intros; done.
  specialize (Hrep rep eq_refl).
  unfold startBrowser_catch, recordFailure, recordSuccess, modify, throw, ret in H.
  assert (forall w2, circuitBreakerState w2 = circuitBreakerState w0 ->
            forall sid', sid' <> sessionId ->
              recordCircuitBreakerFailure (clock w2) sessionId (circuitBreakerState w2) !! sid'
              = circuitBreakerState w !! sid') as Hfail.
  { intros w2 Hw2 sid' Hne. rewrite record_failure_other by done. by rewrite Hw2, Hcb. }
  destruct rep as [m|res].
  - attempt_failed H Hfail.
  - destruct (ok res) eqn:Hok; cbn [negb] in H.
    + destruct (json res) as [m|data] eqn:Hj; [attempt_failed H Hfail|].
      destruct (Js.truthy (Remote.error data)) eqn:Ht; [attempt_failed H Hfail|].
      destruct (success data) eqn:Hsu; cbn [negb] in H; [|attempt_failed H Hfail].
      simplify_eq. cbn. split; [done|]. split.
      * intros sid' Hne. unfold recordCircuitBreakerSuccess.
        by rewrite lookup_delete_ne, Hcb.
      * split; [|done]. intros d ?. simplify_eq. eauto 10.
    + destruct ((400 <=? status res) && (status res <? 500)); attempt_failed H Hfail.
Qed.
(** The same of a whole run of the retry driver, whatever the policy. *)
Lemma retry_attempts_inv {Out} fuel (policy : Schedule.t JsError Out) st
    sessionId options w r w' :
  retry_from fuel (startBrowser_attempt sessionId options) policy st w = (r, w') ->
  ((forall sid', sid' <> sessionId ->
      circuitBreakerState w' !! sid' = circuitBreakerState w !! sid') /\
   remote w' = remote w) /\
  (forall data, r = Done data ->
     success data = true /\ Js.truthy (Remote.error data) = false /\
     exists pre res,
       fetched w' = (pre ++ [startRequest sessionId options])%list /\
       reply (remote w' (length pre) (startRequest sessionId options)) = Responds res /\
       ok res = true /\ json res = inr data) /\
  (forall e, r = Failed e ->
     exists m, e = Error m \/ e = ContainerStartError m (Some sessionId) (Some (Error m))).
Proof.
  intros H.
  apply (retry_from_inv
           (fun w w' =>
              (forall sid', sid' <> sessionId ->
                 circuitBreakerState w' !! sid' = circuitBreakerState w !! sid') /\
              remote w' = remote w)
           (fun r w' =>
              (forall data, r = Done data ->
                 success data = true /\ Js.truthy (Remote.error data) = false /\
                 exists pre res,
                   fetched w' = (pre ++ [startRequest sessionId options])%list /\
                   reply (remote w' (length pre) (startRequest sessionId options))
                     = Responds res /\
                   ok res = true /\ json res = inr data) /\
              (forall e, r = Failed e ->
                 exists m, e = Error m
                           \/ e = ContainerStartError m (Some sessionId) (Some (Error m)))))
    in H.
  - destruct H as [HR [HP|[->| ->]]]; (split; [exact HR|]); [exact HP|done..].
  - done.
  - intros w1 w2 w3 [H12 R12] [H23 R23]. split; [|congruence].
    intros sid' Hne. by rewrite H23, H12.
  - intros w0 r0 w1 Ha.
    pose proof (attempt_issues _ _ _ _ _ Ha) as [(Hf & _ & Hr) _].
    apply attempt_inv in Ha as (_ & Hcb & Hd & He).
    split; [done|]. split; [|done].
    intros data ->. destruct (Hd data eq_refl) as (? & ? & res & ? & ? & ?).
    split; [done|]. split; [done|]. exists (fetched w0), res. by rewrite Hr.
  - intros d w0 r0 w1 Hs.
    pose proof (sleep_issues _ _ _ _ Hs) as [(_ & _ & Hr) _].
    apply sleep_frame in Hs as [Hcb _]. split; [|done]. intros. by rewrite Hcb.
Qed.

(** X3. A start for one session never touches the circuit-breaker entry of
    another session. *)
Theorem startBrowser_leaves_other_sessions (sessionId sid' : string)
    (options : BrowserOptions) (w : World) :
  sid' <> sessionId ->
  circuitBreakerState (snd (startBrowser sessionId options w)) !! sid'
    = circuitBreakerState w !! sid'.
Proof.
  intros Hne.
  destruct (startBrowser_cases sessionId options w) as [[_ ->]|Hc]; [done|].
  destruct (startBrowser sessionId options w) as [r w'] eqn:Hs.
  apply startBrowser_admitted_inv in Hs as (r0 & w1 & Hr & -> & _); [|done].
  apply retry_attempts_inv in Hr as [[Hcb _] _].
  cbn [snd]. change (circuitBreakerState (set_deadline (deadline w) w1))
    with (circuitBreakerState w1).
  rewrite Hcb by done. cbn. by apply check_other.
Qed.

(** A start of "s1" that fails leaves the entry of "s2" alone. *)
Lemma startBrowser_leaves_other_sessions_witness :
  let w := Scenario.starts 3 "s2" (Scenario.world 0 Scenario.invalid_viewport_container) in
  "s2" <> "s1" /\
  circuitBreakerState (snd (startBrowser "s1" Scenario.no_options w)) !! "s2"
    = circuitBreakerState w !! "s2".
Proof.
  intros w. split; [discriminate|].
  apply (startBrowser_leaves_other_sessions "s1" "s2"). discriminate.
Defined.

(** X4. Whatever goes wrong, [startBrowser] fails with a [ContainerStartError]
    that names the session; its cause is absent (breaker open, timeout) or a
    plain [Error] with the same message. *)
Theorem startBrowser_fails_with_ContainerStartError (sessionId : string)
    (options : BrowserOptions) (w : World) (e : JsError) :
  fst (startBrowser sessionId options w) = Failed e ->
  exists m, e = ContainerStartError m (Some sessionId) None
            \/ e = ContainerStartError m (Some sessionId) (Some (Error m)).
Proof.
  destruct (startBrowser_cases sessionId options w) as [[_ ->]|Hc].
  { cbn [fst]. intros H. simplify_eq. eauto. }
  destruct (startBrowser sessionId options w) as [r w'] eqn:Hs.
  apply startBrowser_admitted_inv in Hs as (r0 & w1 & Hr & -> & ->); [|done].
  apply retry_attempts_inv in Hr as (_ & _ & He).
  cbn [fst]. destruct r0 as [d|e0| |]; intros H; simplify_eq.
  - destruct (He e0 eq_refl) as [m [->| ->]]; cbn; eauto.
  - destruct (_ <=? _); simplify_eq. eauto.
Qed.

(** The container refuses every connection: the failure after 21 attempts. *)
Lemma startBrowser_fails_with_ContainerStartError_witness :
  let e := ContainerStartError "Connection refused" (Some "s1")
             (Some (Error "Connection refused")) in
  fst (startBrowser "s1" Scenario.no_options (Scenario.world 0 Scenario.refusing_container))
    = Failed e /\
  exists m, e = ContainerStartError m (Some "s1") None
            \/ e = ContainerStartError m (Some "s1") (Some (Error m)).
Proof.
  intros e. split; [vm_compute; reflexivity|].
  apply (startBrowser_fails_with_ContainerStartError "s1" Scenario.no_options
           (Scenario.world 0 Scenario.refusing_container)).
  vm_compute. reflexivity.
Defined.

(** X5. What [startBrowser] returns is the JSON of a 2xx answer of the container
    to the last request it sent, which says [success] and carries no [error];
    and the session then has no circuit-breaker entry. *)
Theorem startBrowser_returns_validated_answer (sessionId : string)
    (options : BrowserOptions) (w : World) (data : Json) :
  fst (startBrowser sessionId options w) = Done data ->
  let w' := snd (startBrowser sessionId options w) in
  success data = true /\ Js.truthy (Remote.error data) = false /\
  circuitBreakerState w' !! sessionId = None /\
  exists pre res,
    fetched w' = (pre ++ [startRequest sessionId options])%list /\
    reply (remote w (length pre) (startRequest sessionId options)) = Responds res /\
    ok res = true /\ json res = inr data.
Proof.
  destruct (startBrowser_cases sessionId options w) as [[_ ->]|Hc]; [intros H; discriminate H|].
  destruct (startBrowser sessionId options w) as [r w'] eqn:Hs.
  cbn [fst snd]. intros ->.
  pose proof (startBrowser_done_clears _ _ _ _ _ Hs) as Hclear.
  apply startBrowser_admitted_inv in Hs as (r0 & w1 & Hr & -> & Hr0); [|done].
  assert (r0 = Done data) as ->.
  { destruct r0 as [d|e0| |]; simplify_eq; [done|]. destruct (_ <=? _); simplify_eq. }
  apply retry_attempts_inv in Hr as ([_ Hrem] & Hd & _).
  destruct (Hd data eq_refl) as (? & ? & pre & res & Hf & Hrep & ? & ?).
  repeat (split; [done|]). exists pre, res. rewrite Hrem in Hrep. done.
Qed.

(** The third request is the one that is answered 200. *)
Lemma startBrowser_returns_validated_answer_witness :
  let w := Scenario.world 0 Scenario.flaky_container in
  let w' := snd (startBrowser "s1" Scenario.no_options w) in
  success Scenario.started = true /\ Js.truthy (Remote.error Scenario.started) = false /\
  circuitBreakerState w' !! "s1" = None /\
  exists pre res,
    fetched w' = (pre ++ [startRequest "s1" Scenario.no_options])%list /\
    reply (remote w (length pre) (startRequest "s1" Scenario.no_options)) = Responds res /\
    ok res = true /\ json res = inr Scenario.started.
Proof.
  intros w.
  apply (startBrowser_returns_validated_answer "s1" Scenario.no_options w Scenario.started).
  vm_compute. reflexivity.
Defined.
Lemma retry_delay_nonneg (i : nat) :
  Z.max (Z.min (1000 * 2 ^ Z.of_nat i) 5000) 0 = Z.min (1000 * 2 ^ Z.of_nat i) 5000.
Proof. assert (0 <= 2 ^ Z.of_nat i) by (apply Z.pow_nonneg; lia). lia. Qed.

(** The waits of the retry driver on [containerRetrySchedule], entered with
    [k] failures behind it: one wait between two requests, the [i]-th of
    [min(1000 * 2^i, 5000)] ms; when the deadline falls into a wait, that
    wait is the last thing that happened. *)
Lemma retry_from_waits fuel k sessionId options w r w' :
  (k <= 20)%nat -> (20 - k <= fuel)%nat ->
  retry_from fuel (startBrowser_attempt sessionId options) containerRetrySchedule
    (k, k, k) w = (r, w') ->
  exists n, (1 <= n <= 21 - k)%nat /\
    fetched w' = (fetched w ++ replicate n (startRequest sessionId options))%list /\
    (slept w' = (slept w ++ map (fun i => Z.min (1000 * 2 ^ Z.of_nat i) 5000)
                              (seq k (n - 1)))%list
     \/ (r = Interrupted /\
         slept w' = (slept w ++ map (fun i => Z.min (1000 * 2 ^ Z.of_nat i) 5000)
                                  (seq k n))%list)).
Proof.
  revert k w. induction fuel as [|fuel IH]; intros k w Hk Hfuel; cbn [retry_from];
    destruct (startBrowser_attempt sessionId options w) as [r0 w1] eqn:Ha;
    pose proof (attempt_issues _ _ _ _ _ Ha) as [(Hf & _ & _) Hne];
    apply attempt_inv in Ha as (Hsl & _);
    (destruct r0 as [a|e| |]; [|rewrite containerRetrySchedule_step|..]).
  all: try done.
  all: try (intros H; simplify_eq; exists 1%nat; split; [lia|]; split; [done|];
            left; cbn; by rewrite app_nil_r).
  - assert (k = 20)%nat as -> by lia. cbn [Nat.ltb Nat.leb andb].
    intros H; simplify_eq; exists 1%nat; split; [lia|]; split; [done|].
    left; cbn; by rewrite app_nil_r.
  - destruct ((k <? 20)%nat && isRetryableError e) eqn:Hc.
    2:{ intros H; simplify_eq; exists 1%nat; split; [lia|]; split; [done|].
        left; cbn; by rewrite app_nil_r. }
    apply andb_true_iff in Hc as [Hlt _]. apply Nat.ltb_lt in Hlt.
    rewrite retry_delay_nonneg.
    unfold bind. destruct (sleep _ w1) as [r1 w2] eqn:Hs.
    pose proof (sleep_issues _ _ _ _ Hs) as [(Hf2 & _ & _) Ho].
    apply sleep_frame in Hs as [_ Hsl2]. rewrite app_nil_r in Hf2.
    destruct Ho; subst r1.
    + intros H. apply IH in H as (n & Hn & Hf3 & Hw); [|lia..].
      exists (S n). split; [lia|]. split.
      { rewrite Hf3, Hf2, Hf. by rewrite <- app_assoc. }
      destruct Hw as [Hw|[-> Hw]]; [left|right; split; [done|]];
        rewrite Hw, Hsl2, Hsl, <- app_assoc.
      * destruct n as [|n]; [lia|]. cbn [Nat.sub]. rewrite Nat.sub_0_r. reflexivity.
      * reflexivity.
    + intros H. simplify_eq. exists 1%nat. split; [lia|]. split; [by rewrite Hf2, Hf|].
      right. split; [done|]. by rewrite Hsl2, Hsl.
Qed.

(** X6. The trace of a start.  Refused by the breaker, it sends nothing.
    Otherwise it sends the same request between 1 and 21 times and waits
    between two requests: 1000 ms, 2000 ms, 4000 ms, then 5000 ms each time.
    Only when the deadline falls into a wait is a wait the last thing that
    happened, and the start has then timed out. *)
Theorem startBrowser_trace (sessionId : string) (options : BrowserOptions) (w : World) :
  let r := fst (startBrowser sessionId options w) in
  let w' := snd (startBrowser sessionId options w) in
  exists n, (n <= 21)%nat /\
    (n = 0%nat <->
     fst (checkCircuitBreaker (clock w) sessionId (circuitBreakerState w)) = false) /\
    fetched w' = (fetched w ++ replicate n (startRequest sessionId options))%list /\
    (slept w' = (slept w ++ map (fun i => Z.min (1000 * 2 ^ Z.of_nat i) 5000)
                              (seq 0 (n - 1)))%list
     \/ ((r = Interrupted
          \/ r = Failed (ContainerStartError "Container start timeout after 2 minutes"
                           (Some sessionId) None)) /\
         slept w' = (slept w ++ map (fun i => Z.min (1000 * 2 ^ Z.of_nat i) 5000)
                                  (seq 0 n))%list)).
Proof.
  destruct (startBrowser_cases sessionId options w) as [[Hc ->]|Hc]; cbv zeta.
  { exists 0%nat. cbn [fst snd replicate seq map Nat.sub]. rewrite !app_nil_r.
    split; [lia|]. split; [done|]. split; [done|]. by left. }
  destruct (startBrowser sessionId options w) as [r w'] eqn:Hs.
  apply startBrowser_admitted_inv in Hs as (r0 & w1 & Hr & -> & ->); [|done].
  apply (retry_from_waits _ 0%nat) in Hr as (n & Hn & Hf & Hw); [|lia|unfold retryFuel; lia].
  exists n. cbn [fst snd]. split; [lia|]. split.
  { rewrite Hc. split; [lia|done]. }
  split; [exact Hf|].
  destruct Hw as [Hw|[-> Hw]]; [left; exact Hw|right].
  split; [|exact Hw]. destruct (_ <=? _); auto.
Qed.

Lemma fetch_in_time req w dl :
  deadline w = Some dl ->
  clock w + Z.max 0 (took (remote w (length (fetched w)) req)) < dl ->
  fetch req w =
    (Done (reply (remote w (length (fetched w)) req)),
     set_clock (clock w + Z.max 0 (took (remote w (length (fetched w)) req)))
       (log_fetch req w)).
Proof.
  intros Hd Hlt. unfold fetch, bind, suspend, ret. cbn [deadline clock log_fetch].
  rewrite Hd. destruct (Z.leb_spec dl (clock w + Z.max 0 (took (remote w (length (fetched w)) req))));
    [lia|done].
Qed.

Lemma sleep_in_time d w dl :
  deadline w = Some dl -> clock w + Z.max 0 d < dl ->
  sleep d w = (Done tt, set_clock (clock w + Z.max 0 d) (log_sleep d w)).
Proof.
  intros Hd Hlt. unfold sleep, suspend. cbn [deadline clock log_sleep].
  rewrite Hd. destruct (Z.leb_spec dl (clock w + Z.max 0 d)); [lia|done].
Qed.

(** The attempt that is answered with a status other than 2xx. *)
Lemma attempt_not_ok sessionId options w dl res :
  deadline w = Some dl ->
  clock w + Z.max 0 (took (remote w (length (fetched w)) (startRequest sessionId options))) < dl ->
  reply (remote w (length (fetched w)) (startRequest sessionId options)) = Responds res ->
  ok res = false ->
  let error :=
    Error ((if (400 <=? status res) && (status res <? 500)
            then "Container start failed (non-retryable): "
            else "Container start failed: ")
           ++ default "failed to read error" (text res)) in
  let w1 :=
    set_clock
      (clock w + Z.max 0 (took (remote w (length (fetched w))
                                  (startRequest sessionId options))))
      (log_fetch (startRequest sessionId options) w) in
  startBrowser_attempt sessionId options w =
    (Failed (fst (startBrowser_catch sessionId error w1)),
     snd (startBrowser_catch sessionId error w1)).
Proof.
  intros Hd Hlt Hrep Hok error w1.
  unfold startBrowser_attempt, tryPromise, startBrowser_try, bind.
  rewrite (fetch_in_time _ _ dl Hd Hlt), Hrep, Hok. cbn [negb].
  subst error w1.
  destruct ((400 <=? status res) && (status res <? 500)); unfold throw;
    by destruct (startBrowser_catch _ _ _).
Qed.
Lemma retry_from_retries {A Out} fuel (self : Eff A) (policy : Schedule.t JsError Out)
    st w e w1 st' o d w2 :
  self w = (Failed e, w1) ->
  Schedule.step policy e st = (st', o, Schedule.Continue d) ->
  sleep d w1 = (Done tt, w2) ->
  retry_from (S fuel) self policy st w = retry_from fuel self policy st' w2.
Proof. intros Ha Hst Hs. cbn [retry_from]. rewrite Ha, Hst. unfold bind. by rewrite Hs. Qed.

Lemma catch_message sessionId e w :
  message_of (fst (startBrowser_catch sessionId e w)) = message_of e.
Proof. unfold startBrowser_catch. by destruct (isNonRetryableError e). Qed.

Lemma catch_world sessionId e w :
  snd (startBrowser_catch sessionId e w) = recordFailure sessionId w.
Proof. unfold startBrowser_catch. by destruct (isNonRetryableError e). Qed.

Lemma isRetryableError_message e e' :
  message_of e = message_of e' -> isRetryableError e = isRetryableError e'.
Proof. unfold isRetryableError. by intros ->. Qed.

(** X7. A start that is answered with a 4xx status whose failure message
    [isRetryableError] rejects is over after that one request: no wait, no
    second request, one failure counted, and the [ContainerStartError] says
    "non-retryable". *)
Theorem startBrowser_client_error_once (sessionId : string) (options : BrowserOptions)
    (w : World) (res : HttpResponse) :
  deadline w = None ->
  fst (checkCircuitBreaker (clock w) sessionId (circuitBreakerState w)) = true ->
  let ex := remote w (length (fetched w)) (startRequest sessionId options) in
  took ex < 120000 ->
  reply ex = Responds res ->
  400 <= status res < 500 ->
  let m := "Container start failed (non-retryable): "
           ++ default "failed to read error" (text res) in
  isRetryableError (Error m) = false ->
  let w' := snd (startBrowser sessionId options w) in
  fst (startBrowser sessionId options w)
    = Failed (ContainerStartError m (Some sessionId) (Some (Error m))) /\
  fetched w' = (fetched w ++ [startRequest sessionId options])%list /\
  slept w' = slept w /\
  clock w' = clock w + Z.max 0 (took ex) /\
  circuitBreakerState w' =
    recordCircuitBreakerFailure (clock w') sessionId
      (snd (checkCircuitBreaker (clock w) sessionId (circuitBreakerState w))).
Proof.
  intros Hd Hc ex Htook Hrep Hst m Hm.
  assert (ok res = false) as Hok.
  { unfold ok. destruct (Z.leb_spec (status res) 299); [lia|]. apply andb_false_r. }
  assert ((400 <=? status res) && (status res <? 500) = true) as H4.
  { apply andb_true_iff. split; [apply Z.leb_le|apply Z.ltb_lt]; lia. }
  assert (isNonRetryableError (Error m) = true) as Hnon.
  { subst m. generalize (default "failed to read error" (text res)). intros t.
    reflexivity. }
  destruct (startBrowser sessionId options w) as [r w1] eqn:Hs.
  apply startBrowser_admitted_inv in Hs as (r0 & w2 & Hr & -> & ->); [|done].
  rewrite Hd in Hr.
  match type of Hr with retry_from _ _ _ _ ?w0 = _ =>
    pose proof (attempt_not_ok sessionId options w0 (clock w + 120000) res eq_refl) as Ha
  end.
  cbv zeta in Ha. cbn [clock fetched remote set_deadline set_circuitBreakerState deadline] in Ha.
  specialize (Ha ltac:(subst ex; lia) Hrep Hok).
  rewrite H4 in Ha. fold m in Ha.
  unfold startBrowser_catch in Ha. rewrite Hnon in Ha. cbn [fst snd message_of] in Ha.
  erewrite retry_stops_on_non_retryable in Hr; [|exact Ha|exact Hm].
  simplify_eq. cbn [fst snd isContainerStartError]. repeat split; reflexivity.
Qed.

(** HTTP 422 "invalid viewport": one request, one failure counted. *)
Lemma startBrowser_client_error_once_witness :
  let w := Scenario.world 0 Scenario.invalid_viewport_container in
  let m := "Container start failed (non-retryable): invalid viewport" in
  let w' := snd (startBrowser "s1" Scenario.no_options w) in
  fst (startBrowser "s1" Scenario.no_options w)
    = Failed (ContainerStartError m (Some "s1") (Some (Error m))) /\
  fetched w' = (fetched w ++ [startRequest "s1" Scenario.no_options])%list /\
  slept w' = slept w /\
  clock w' = clock w + Z.max 0 10 /\
  circuitBreakerState w' =
    recordCircuitBreakerFailure (clock w') "s1"
      (snd (checkCircuitBreaker (clock w) "s1" (circuitBreakerState w))).
Proof.
  intros w.
  apply (startBrowser_client_error_once "s1" Scenario.no_options w
           (mkResponse 422 (Some "invalid viewport") (inl "")));
    [reflexivity | reflexivity | reflexivity | reflexivity | cbn; lia | reflexivity].
Defined.

(** X8. A start that is answered with a status that is neither 2xx nor 4xx is
    tried again, unless the failure message says "non-retryable": after
    1000 ms the same request is sent a second time. *)
Theorem startBrowser_server_error_retried (sessionId : string) (options : BrowserOptions)
    (w : World) (res : HttpResponse) :
  deadline w = None ->
  fst (checkCircuitBreaker (clock w) sessionId (circuitBreakerState w)) = true ->
  let ex := remote w (length (fetched w)) (startRequest sessionId options) in
  0 <= took ex < 119000 ->
  reply ex = Responds res ->
  ok res = false ->
  (400 <=? status res) && (status res <? 500) = false ->
  Js.includes ("Container start failed: " ++ default "failed to read error" (text res))
    "non-retryable" = false ->
  let w' := snd (startBrowser sessionId options w) in
  (exists rest,
     fetched w' = (fetched w ++ startRequest sessionId options
                     :: startRequest sessionId options :: rest)%list) /\
  (exists rest, slept w' = (slept w ++ 1000 :: rest)%list).
Proof.
  intros Hd Hc ex Htook Hrep Hok H4 Hnon.
  destruct (startBrowser sessionId options w) as [r w1] eqn:Hs.
  apply startBrowser_admitted_inv in Hs as (r0 & w2 & Hr & -> & ->); [|done].
  rewrite Hd in Hr.
  match type of Hr with retry_from _ _ _ _ ?w0 = _ =>
    pose proof (attempt_not_ok sessionId options w0 (clock w + 120000) res eq_refl) as Ha
  end.
  cbv zeta in Ha. cbn [clock fetched remote set_deadline set_circuitBreakerState deadline] in Ha.
  specialize (Ha ltac:(subst ex; lia) Hrep Hok).
  rewrite H4, catch_world in Ha.
  match type of Ha with _ = (Failed ?e, ?wa) =>
    assert (isRetryableError e = true) as Hre;
    [ rewrite (isRetryableError_message e _ (catch_message _ _ _));
      unfold isRetryableError; cbn [message_of]; rewrite Hnon;
      generalize (default "failed to read error" (text res)); intros t;
      cbn [negb]; rewrite andb_true_r;
      replace (Js.includes ("Container start failed: " ++ t) "Container start failed")
        with true by reflexivity;
      apply orb_true_r
    | pose proof (sleep_in_time 1000 wa (clock w + 120000) eq_refl) as Hsl ]
  end.
  cbn [recordFailure clock set_circuitBreakerState set_clock] in Hsl.
  specialize (Hsl ltac:(subst ex; lia)).
  unfold retryFuel in Hr.
  erewrite (retry_from_retries 31) in Hr; [|exact Ha| |exact Hsl].
  2:{ rewrite containerRetrySchedule_step, Hre. reflexivity. }
  apply (retry_from_waits _ 1%nat) in Hr as (n & Hn & Hf & Hw); [|lia..].
  cbn [snd]. split.
  - destruct n as [|n]; [lia|]. exists (replicate n (startRequest sessionId options)).
    change (fetched (set_deadline (deadline w) w2)) with (fetched w2).
    rewrite Hf.
    cbn [snd fetched set_clock log_sleep recordFailure set_circuitBreakerState log_fetch
         set_deadline replicate].
    by rewrite <- app_assoc.
  - change (slept (set_deadline (deadline w) w2)) with (slept w2).
    destruct Hw as [Hw|[_ Hw]]; rewrite Hw;
      cbn [snd slept set_clock log_sleep recordFailure set_circuitBreakerState log_fetch
           set_deadline];
      rewrite <- app_assoc; eexists; reflexivity.
Qed.
(** HTTP 503: the start is tried again after 1000 ms. *)
Lemma startBrowser_server_error_retried_witness :
  let answer := mkResponse 503 (Some "Service Unavailable") (inl "") in
  let w := Scenario.world 0 (Scenario.always (mkExchange 10 (Responds answer))) in
  let w' := snd (startBrowser "s1" Scenario.no_options w) in
  (exists rest,
     fetched w' = (fetched w ++ startRequest "s1" Scenario.no_options
                     :: startRequest "s1" Scenario.no_options :: rest)%list) /\
  (exists rest, slept w' = (slept w ++ 1000 :: rest)%list).
Proof.
  intros answer w.
  apply (startBrowser_server_error_retried "s1" Scenario.no_options w answer);
    [reflexivity | reflexivity | cbn; lia | reflexivity | reflexivity | reflexivity
    | reflexivity].
Defined.

(** X9. Run outside of any deadline, [startBrowser] settles: it returns or it
    fails, at most 120000 ms after it was called, and it fails with the
    timeout error only when the full 120000 ms have gone by. *)
Theorem startBrowser_settles_within_two_minutes (sessionId : string)
    (options : BrowserOptions) (w : World) :
  deadline w = None ->
  let r := fst (startBrowser sessionId options w) in
  let w' := snd (startBrowser sessionId options w) in
  ((exists data, r = Done data) \/ (exists e, r = Failed e)) /\
  clock w <= clock w' <= clock w + 120000 /\
  (r = Failed (ContainerStartError "Container start timeout after 2 minutes"
                 (Some sessionId) None) ->
   clock w' = clock w + 120000).
Proof.
  intros Hd. cbv zeta.
  pose proof (startBrowser_total sessionId options w) as Ht.
  destruct (startBrowser sessionId options w) as [r w'] eqn:Hs.
  pose proof (startBrowser_deadline _ _ _ _ _ Hd Hs) as (_ & Hi & Hc).
  cbn [fst snd] in *. split; [destruct r; [eauto..|done|done]|]. split; [done|].
  destruct (startBrowser_cases sessionId options w) as [[_ Hr]|Hadm].
  { rewrite Hr in Hs. intros H. simplify_eq. }
  apply startBrowser_admitted_inv in Hs as (r0 & w1 & Hr & -> & ->); [|done].
  rewrite Hd in Hr.
  pose proof (retry_attempts_inv _ _ _ _ _ _ _ _ Hr) as (_ & _ & He).
  apply (retry_from_timely _ _ _ (clock w + 120000)) in Hr; [|done|cbn; lia].
  destruct Hr as (_ & _ & Hr0). cbn [clock set_deadline].
  destruct r0 as [d|e| |]; try (intros H; discriminate H).
  - destruct (He e eq_refl) as [m [-> | ->]]; cbn; intros H; discriminate H.
  - intros _. exact Hr0.
Qed.

(** A container that takes 130 seconds to answer: the start fails with the
    timeout error after 120000 ms. *)
Lemma startBrowser_settles_within_two_minutes_witness :
  let w := Scenario.world 500 (Scenario.always (mkExchange 130000 (Responds
             (mkResponse 200 None (inr Scenario.started))))) in
  let r := fst (startBrowser "s1" Scenario.no_options w) in
  let w' := snd (startBrowser "s1" Scenario.no_options w) in
  r = Failed (ContainerStartError "Container start timeout after 2 minutes"
                (Some "s1") None) /\
  clock w' = 120500.
Proof.
  intros w r w'.
  assert (r = Failed (ContainerStartError "Container start timeout after 2 minutes"
                        (Some "s1") None)) as Hr by (vm_compute; reflexivity).
  split; [exact Hr|].
  destruct (startBrowser_settles_within_two_minutes "s1" Scenario.no_options w eq_refl)
    as (_ & _ & Hto).
  exact (Hto Hr).
Defined.

(** What an attempt does to the circuit breaker: a failure is recorded at
    the time it happened, an interruption leaves no trace. *)
Lemma attempt_counts sessionId options w r w' :
  startBrowser_attempt sessionId options w = (r, w') ->
  match r with
  | Failed _ =>
      circuitBreakerState w' =
        recordCircuitBreakerFailure (clock w') sessionId (circuitBreakerState w)
  | Interrupted => circuitBreakerState w' = circuitBreakerState w
  | _ => True
  end.
Proof.
  unfold startBrowser_attempt, tryPromise, startBrowser_try, bind. intros H.
  destruct (fetch _ w) as [r0 w0] eqn:Hf.
  pose proof (fetch_frame _ _ _ _ Hf) as [Hcb _].
  pose proof (fetch_issues _ _ _ _ Hf) as (_ & _ & Hnf).
  unfold startBrowser_catch, recordFailure, recordSuccess, modify, throw, ret in H.
  destruct r0 as [rep|e0| |]; [|by destruct (Hnf e0)|by simplify_eq|by simplify_eq].
  repeat case_match; simplify_eq; cbn; by rewrite ?Hcb.
Qed.

(** The failures the retry driver leaves in the circuit breaker when it gives
    up: one for each request it sent. *)
Lemma retry_from_counts fuel k sessionId options w e w' :
  (k <= 20)%nat -> (20 - k <= fuel)%nat ->
  retry_from fuel (startBrowser_attempt sessionId options) containerRetrySchedule
    (k, k, k) w = (Failed e, w') ->
  (open (default (mkEntry 0 0 false) (circuitBreakerState w !! sessionId)) = true ->
   5 <= failures (default (mkEntry 0 0 false) (circuitBreakerState w !! sessionId))) ->
  exists n t, (1 <= n <= 21 - k)%nat /\
    fetched w' = (fetched w ++ replicate n (startRequest sessionId options))%list /\
    circuitBreakerState w' !! sessionId =
      Some (mkEntry
              (failures (default (mkEntry 0 0 false) (circuitBreakerState w !! sessionId))
               + Z.of_nat n)
              t
              (5 <=? failures (default (mkEntry 0 0 false)
                                 (circuitBreakerState w !! sessionId))
                     + Z.of_nat n)).
Proof.
  revert k w. induction fuel as [|fuel IH]; intros k w Hk Hfuel; cbn [retry_from];
    destruct (startBrowser_attempt sessionId options w) as [r0 w1] eqn:Ha;
    pose proof (attempt_issues _ _ _ _ _ Ha) as [(Hf & _ & _) Hne];
    apply attempt_counts in Ha;
    (destruct r0 as [a|e0| |]; [|rewrite containerRetrySchedule_step|..]); try done.
  all: set (before := default (mkEntry 0 0 false) (circuitBreakerState w !! sessionId)).
  all: assert (forall H : open before = true -> 5 <= failures before,
                 circuitBreakerState w1 !! sessionId
                 = Some (mkEntry (failures before + 1) (clock w1) (5 <=? failures before + 1)))
         as Hone
         by (intros Hopen; rewrite Ha, record_failure_lookup; fold before;
             unfold CIRCUIT_BREAKER_THRESHOLD; cbv zeta; f_equal; f_equal;
             destruct (Z.leb_spec 5 (failures before + 1)); [done|];
             destruct (open before); [|done]; specialize (Hopen eq_refl); lia).
  - assert (k = 20)%nat as -> by lia. cbn [Nat.ltb Nat.leb andb].
    intros H Hopen. simplify_eq. exists 1%nat, (clock w'). split; [lia|]. split; [done|].
    by apply Hone.
  - destruct ((k <? 20)%nat && isRetryableError e0) eqn:Hc.
    2:{ intros H Hopen. simplify_eq. exists 1%nat, (clock w'). split; [lia|].
        split; [done|]. by apply Hone. }
    apply andb_true_iff in Hc as [Hlt _]. apply Nat.ltb_lt in Hlt.
    unfold bind. destruct (sleep _ w1) as [r1 w2] eqn:Hs.
    pose proof (sleep_issues _ _ _ _ Hs) as [(Hf2 & _ & _) Ho].
    apply sleep_frame in Hs as [Hcb2 _]. rewrite app_nil_r in Hf2.
    destruct Ho; subst r1; [|intros H; discriminate H].
    intros H Hopen. specialize (Hone Hopen).
    apply IH in H as (n & t & Hn & Hf3 & Hcb3); [|lia..|].
    + exists (S n), t. split; [lia|]. split.
      { rewrite Hf3, Hf2, Hf. by rewrite <- app_assoc. }
      rewrite Hcb3, Hcb2, Hone. unfold default, from_option, id. cbn [failures].
      replace (failures before + 1 + Z.of_nat n) with (failures before + Z.of_nat (S n))
        by lia.
      reflexivity.
    + rewrite Hcb2, Hone. unfold default, from_option, id. cbn [failures open].
      intros Hb. apply Z.leb_le in Hb. lia.
Qed.

Lemma check_admitted_closed now sid (m : gmap string Entry) :
  fst (checkCircuitBreaker now sid m) = true ->
  open (default (mkEntry 0 0 false) (snd (checkCircuitBreaker now sid m) !! sid)) = false.
Proof.
  rewrite check_cooldown_unreachable.
  destruct (m !! sid) as [e|] eqn:He; cbn [fst snd]; [|by rewrite He].
  destruct (_ <? _); cbn [fst snd].
  - by rewrite lookup_delete_eq.
  - rewrite He. cbn. by intros ->%negb_true_iff.
Qed.

(** X10. Failures are counted per attempt, not per start: a start that gives up
    after [n] requests (other than by the timeout) adds [n] failures to the
    entry of the session, so that one start which fails five times or more
    leaves the breaker open. *)
Theorem startBrowser_counts_every_failed_attempt (sessionId : string)
    (options : BrowserOptions) (w : World) (e : JsError) :
  fst (checkCircuitBreaker (clock w) sessionId (circuitBreakerState w)) = true ->
  fst (startBrowser sessionId options w) = Failed e ->
  e <> ContainerStartError "Container start timeout after 2 minutes" (Some sessionId) None ->
  let before :=
    default (mkEntry 0 0 false)
      (snd (checkCircuitBreaker (clock w) sessionId (circuitBreakerState w)) !! sessionId) in
  let w' := snd (startBrowser sessionId options w) in
  exists n t, (1 <= n <= 21)%nat /\
    fetched w' = (fetched w ++ replicate n (startRequest sessionId options))%list /\
    circuitBreakerState w' !! sessionId =
      Some (mkEntry (failures before + Z.of_nat n) t (5 <=? failures before + Z.of_nat n)).
Proof.
  intros Hc Hfail Hne before w'. subst w'.
  destruct (startBrowser sessionId options w) as [r w'] eqn:Hs. cbn [fst snd] in *.
  subst r.
  pose proof (check_admitted_closed _ _ _ Hc) as Hclosed.
  apply startBrowser_admitted_inv in Hs as (r0 & w1 & Hr & -> & Hr0); [|done].
  destruct r0 as [d|e0| |]; simplify_eq.
  2:{ destruct (_ <=? _); simplify_eq. }
  apply (retry_from_counts _ 0%nat) in Hr as (n & t & Hn & Hf & Hcb);
    [|lia|unfold retryFuel; lia|].
  - exists n, t. split; [lia|]. split; [exact Hf|exact Hcb].
  - cbn [circuitBreakerState set_deadline set_circuitBreakerState].
    rewrite Hclosed. discriminate.
Qed.

(** A container that refuses every connection: one start, 21 failures, and
    the breaker is open. *)
Lemma startBrowser_counts_every_failed_attempt_witness :
  let w := Scenario.world 0 Scenario.refusing_container in
  let w' := snd (startBrowser "s1" Scenario.no_options w) in
  (exists t, circuitBreakerState w' !! "s1" = Some (mkEntry 21 t true)) /\
  exists n t, (1 <= n <= 21)%nat /\
    fetched w' = (fetched w ++ replicate n (startRequest "s1" Scenario.no_options))%list /\
    circuitBreakerState w' !! "s1" =
      Some (mkEntry (0 + Z.of_nat n) t (5 <=? 0 + Z.of_nat n)).
Proof.
  intros w. split; [eexists; vm_compute; reflexivity|].
  apply (startBrowser_counts_every_failed_attempt "s1" Scenario.no_options w
           (ContainerStartError "Connection refused" (Some "s1")
              (Some (Error "Connection refused"))));
    [reflexivity | vm_compute; reflexivity | discriminate].
Defined.
End StartBrowserExtras.

(** ** The other container operations *)

Section OperationExtras.
Import Remote Browser.

Lemma fetch_sends_only req w r w' : fetch req w = (r, w') -> sends_only req w w'.
Proof.
  intros H. pose proof (fetch_issues _ _ _ _ H) as [(Hf & _ & _) _].
  apply fetch_frame in H as [Hcb Hsl]. done.
Qed.

(** What comes out of [fetch]: the reply of the container to this request,
    or an interruption. *)
Lemma fetch_outcome req w r w' :
  fetch req w = (r, w') ->
  r = Done (reply (remote w (length (fetched w)) req)) \/ r = Interrupted.
Proof.
  unfold fetch, bind, ret. intros H.
  destruct (suspend _ _) as [r0 w0] eqn:Hs.
  apply suspend_issues in Hs as [_ [-> | ->]]; simplify_eq; auto.
Qed.

(** An operation built as one [fetch], a decision on the reply that leaves
    the world alone, and a [catch] that leaves the world alone. *)
Lemma tryPromise_fetch {A} req (body : Reply -> Eff A) (c : JsError -> JsError) w :
  (forall rep w0, snd (body rep w0) = w0) ->
  sends_only req w
    (snd (tryPromise (let* rep := fetch req in body rep) (fun error w0 => (c error, w0)) w)).
Proof.
  intros Hbody. unfold tryPromise, bind.
  destruct (fetch req w) as [r0 w0] eqn:Hf.
  apply fetch_sends_only in Hf.
  destruct r0 as [rep|e| |]; cbn [snd]; try done.
  specialize (Hbody rep w0). destruct (body rep w0) as [[a|e| |] w1]; cbn [snd] in *;
    by subst.
Qed.

Lemma sendInstruction_sends_only sessionId instruction w :
  sends_only (mkRequest sessionId (PostInstruction instruction)) w
    (snd (sendInstruction sessionId instruction w)).
Proof.
  apply tryPromise_fetch. intros [m|res] w0; [done|].
  destruct (negb (ok res)); [done|]. by destruct (json res).
Qed.

Lemma stopBrowser_sends_only sessionId w :
  sends_only (mkRequest sessionId PostStop) w (snd (stopBrowser sessionId w)).
Proof.
  unfold stopBrowser, catchAll_void.
  pose proof (tryPromise_fetch (mkRequest sessionId PostStop) (fun _ => ret tt)
                (fun error => BrowserError ("Failed to stop container: " ++ message_of error)
                                (Some error)) w (fun _ _ => eq_refl)) as H.
  cbv beta in H.
  by destruct (tryPromise _ _ w) as [[[]|e| |] w1].
Qed.

Lemma navigateBrowser_sends_only sessionId url w :
  sends_only (mkRequest sessionId (PostInstruction ("go to " ++ url))) w
    (snd (navigateBrowser sessionId url w)).
Proof.
  unfold navigateBrowser, mapError, bind.
  pose proof (sendInstruction_sends_only sessionId ("go to " ++ url) w) as H.
  by destruct (sendInstruction _ _ w) as [[d|e| |] w1].
Qed.

Lemma resizeBrowser_sends_only sessionId viewport w :
  sends_only (mkRequest sessionId (PostResize viewport)) w
    (snd (resizeBrowser sessionId viewport w)).
Proof.
  apply tryPromise_fetch. intros [m|res] w0; [done|]. by destruct (negb (ok res)).
Qed.

Lemma reloadBrowser_sends_only sessionId w :
  sends_only (mkRequest sessionId PostReload) w (snd (reloadBrowser sessionId w)).
Proof.
  apply tryPromise_fetch. intros [m|res] w0; [done|]. by destruct (negb (ok res)).
Qed.

Lemma extractData_sends_only {T} sessionId (schema : ZodSchema T) w :
  sends_only (extractRequest sessionId schema) w (snd (extractData sessionId schema w)).
Proof.
  apply tryPromise_fetch. intros [m|res] w0; [done|].
  destruct (negb (ok res)); [done|]. destruct (json res) as [m|data]; [done|].
  destruct (negb (success data) || Js.truthy (error data)); [done|].
  by destruct (parse schema _).
Qed.

(** X11. Only [startBrowser] retries, waits and counts failures.  Every other
    container operation sends exactly one request to the container of the
    session, whatever the answer, never waits and never touches the circuit
    breaker. *)
Theorem operations_send_one_request (sessionId : string) (w : World) :
  sends_only (mkRequest sessionId PostStop) w (snd (stopBrowser sessionId w)) /\
  (forall instruction,
     sends_only (mkRequest sessionId (PostInstruction instruction)) w
       (snd (sendInstruction sessionId instruction w))) /\
  (forall url,
     sends_only (mkRequest sessionId (PostInstruction ("go to " ++ url))) w
       (snd (navigateBrowser sessionId url w))) /\
  (forall viewport,
     sends_only (mkRequest sessionId (PostResize viewport)) w
       (snd (resizeBrowser sessionId viewport w))) /\
  sends_only (mkRequest sessionId PostReload) w (snd (reloadBrowser sessionId w)) /\
  (forall T (schema : ZodSchema T),
     sends_only (extractRequest sessionId schema) w (snd (extractData sessionId schema w))).
Proof.
  repeat split_and; intros.
  - apply stopBrowser_sends_only.
  - apply sendInstruction_sends_only.
  - apply navigateBrowser_sends_only.
  - apply resizeBrowser_sends_only.
  - apply reloadBrowser_sends_only.
  - apply extractData_sends_only.
Qed.

(** X12. [stopBrowser] is best effort: whatever the container does (reject the
    call, answer with any status), it does not fail; run outside of any
    deadline it ends normally. *)
Theorem stopBrowser_never_fails (sessionId : string) (w : World) :
  (forall e, fst (stopBrowser sessionId w) <> Failed e) /\
  fst (stopBrowser sessionId w) <> OutOfFuel /\
  (deadline w = None -> fst (stopBrowser sessionId w) = Done tt).
Proof.
  unfold stopBrowser, catchAll_void, tryPromise, bind.
  destruct (fetch _ w) as [r0 w0] eqn:Hf.
  pose proof (fetch_no_deadline (mkRequest sessionId PostStop) w) as Hn.
  rewrite Hf in Hn. cbn [fst] in Hn.
  apply fetch_outcome in Hf as [-> | ->]; cbn [fst ret]; repeat split; try done.
  intros Hd. by specialize (Hn Hd).
Qed.

(** X13. The failures of the operations.  [sendInstruction], [resizeBrowser],
    [reloadBrowser] and [extractData] fail with a [BrowserError] whose message
    is the prefix of the operation followed by the message of its cause;
    [navigateBrowser] wraps the [BrowserError] of [sendInstruction] in a
    [NavigationError] that carries the URL. *)
Theorem operations_fail_with_typed_errors (sessionId : string) (w : World) (e : JsError) :
  (forall instruction,
     fst (sendInstruction sessionId instruction w) = Failed e ->
     exists m, e = BrowserError ("Failed to send instruction: " ++ m) (Some (Error m))) /\
  (forall viewport,
     fst (resizeBrowser sessionId viewport w) = Failed e ->
     exists m, e = BrowserError ("Failed to resize: " ++ m) (Some (Error m))) /\
  (fst (reloadBrowser sessionId w) = Failed e ->
   exists m, e = BrowserError ("Failed to reload: " ++ m) (Some (Error m))) /\
  (forall T (schema : ZodSchema T),
     fst (extractData sessionId schema w) = Failed e ->
     exists m, e = BrowserError ("Failed to extract data: " ++ m) (Some (Error m))
               \/ e = BrowserError ("Failed to extract data: " ++ m) (Some (ZodError m))) /\
  (forall url,
     fst (navigateBrowser sessionId url w) = Failed e ->
     exists m,
       e = NavigationError
             ("Failed to navigate to " ++ url ++ ": " ++ "Failed to send instruction: " ++ m)
             url
             (Some (BrowserError ("Failed to send instruction: " ++ m) (Some (Error m))))).
Proof.
  assert (forall instruction e0,
            fst (sendInstruction sessionId instruction w) = Failed e0 ->
            exists m, e0 = BrowserError ("Failed to send instruction: " ++ m) (Some (Error m)))
    as Hsend.
  { intros instruction e0. unfold sendInstruction, tryPromise, bind.
    destruct (fetch _ w) as [r0 w0] eqn:Hf.
    pose proof (fetch_issues _ _ _ _ Hf) as (_ & _ & Hnf).
    destruct r0 as [[m|res]|e1| |]; cbn [fst throw]; try (intros H; discriminate H).
    - intros H. simplify_eq. by eexists.
    - destruct (negb (ok res)); cbn [fst throw].
      + intros H. simplify_eq. by eexists.
      + destruct (json res); cbn [fst throw ret]; intros H; simplify_eq. by eexists.
    - by destruct (Hnf e1). }
  repeat split_and.
  - intros instruction. apply Hsend.
  - intros viewport. unfold resizeBrowser, tryPromise, bind.
    destruct (fetch _ w) as [r0 w0] eqn:Hf.
    pose proof (fetch_issues _ _ _ _ Hf) as (_ & _ & Hnf).
    destruct r0 as [[m|res]|e1| |]; cbn [fst throw]; try (intros H; discriminate H).
    + intros H. simplify_eq. by eexists.
    + destruct (negb (ok res)); cbn [fst throw ret]; intros H; simplify_eq. by eexists.
    + by destruct (Hnf e1).
  - unfold reloadBrowser, tryPromise, bind.
    destruct (fetch _ w) as [r0 w0] eqn:Hf.
    pose proof (fetch_issues _ _ _ _ Hf) as (_ & _ & Hnf).
    destruct r0 as [[m|res]|e1| |]; cbn [fst throw]; try (intros H; discriminate H).
    + intros H. simplify_eq. by eexists.
    + destruct (negb (ok res)); cbn [fst throw ret]; intros H; simplify_eq. by eexists.
    + by destruct (Hnf e1).
  - intros T schema. unfold extractData, tryPromise, bind.
    destruct (fetch _ w) as [r0 w0] eqn:Hf.
    pose proof (fetch_issues _ _ _ _ Hf) as (_ & _ & Hnf).
    destruct r0 as [[m|res]|e1| |]; cbn [fst throw]; try (intros H; discriminate H).
    + intros H. simplify_eq. eexists. by left.
    + destruct (negb (ok res)); cbn [fst throw].
      { intros H. simplify_eq. eexists. by left. }
      destruct (json res) as [m|data]; cbn [fst throw].
      { intros H. simplify_eq. eexists. by left. }
      destruct (negb (success data) || Js.truthy (error data)); cbn [fst throw].
      { intros H. simplify_eq. eexists. by left. }
      destruct (parse schema _); cbn [fst throw ret]; intros H; simplify_eq.
      eexists. by right.
    + by destruct (Hnf e1).
  - intros url. unfold navigateBrowser, mapError, bind.
    pose proof (Hsend ("go to " ++ url)) as Hs.
    destruct (sendInstruction _ _ w) as [[d|e1| |] w1]; cbn [fst ret] in *;
      intros H; simplify_eq.
    destruct (Hs e1 eq_refl) as [m ->]. by exists m.
Qed.

(** X14. What [extractData] returns was accepted by the schema of the caller: it
    is the parse of the payload of a 2xx answer that says [success] and
    carries no [error]. *)
Theorem extractData_returns_parsed_payload {T} (sessionId : string) (schema : ZodSchema T)
    (w : World) (v : T) :
  fst (extractData sessionId schema w) = Done v ->
  exists res data,
    reply (remote w (length (fetched w)) (extractRequest sessionId schema)) = Responds res /\
    ok res = true /\ json res = inr data /\
    success data = true /\ Js.truthy (error data) = false /\
    parse schema (Remote.data data) = inr v.
Proof.
  unfold extractData, tryPromise, bind.
  destruct (fetch _ w) as [r0 w0] eqn:Hf.
  apply fetch_outcome in Hf as [-> | ->]; [|intros H; discriminate H].
  destruct (reply _) as [m|res]; [intros H; discriminate H|].
  destruct (ok res) eqn:Hok; cbn [negb]; [|intros H; discriminate H].
  destruct (json res) as [m|data] eqn:Hj; [intros H; discriminate H|].
  destruct (success data) eqn:Hsu; cbn [negb orb]; [|intros H; discriminate H].
  destruct (Js.truthy (error data)) eqn:Ht; [intros H; discriminate H|].
  destruct (parse schema _) as [m|parsed] eqn:Hp; cbn [fst ret throw]; intros H; simplify_eq.
  exists res, data. done.
Qed.

(** The container extracts the payload "AgentCast", which the schema takes. *)
Lemma extractData_returns_parsed_payload_witness :
  let answer := mkResponse 200 None (inr (mkJson true None None "AgentCast")) in
  let w := Scenario.world 0 (Scenario.always (mkExchange 40 (Responds answer))) in
  fst (extractData "s1" Scenario.nonempty_schema w) = Done "AgentCast" /\
  exists res data,
    reply (remote w (length (fetched w)) (extractRequest "s1" Scenario.nonempty_schema))
      = Responds res /\
    ok res = true /\ json res = inr data /\
    success data = true /\ Js.truthy (error data) = false /\
    parse Scenario.nonempty_schema (Remote.data data) = inr "AgentCast".
Proof.
  intros answer w. split; [vm_compute; reflexivity|].
  apply (extractData_returns_parsed_payload "s1" Scenario.nonempty_schema w "AgentCast").
  vm_compute. reflexivity.
Defined.
(** None of these operations sets a deadline of its own. *)
Lemma tryPromise_fetch_deadline {A} req (body : Reply -> Eff A) (c : JsError -> JsError) w :
  (forall rep w0, snd (body rep w0) = w0) ->
  deadline (snd (tryPromise (let* rep := fetch req in body rep)
                   (fun error w0 => (c error, w0)) w)) = deadline w.
Proof.
  intros Hbody. unfold tryPromise, bind.
  destruct (fetch req w) as [r0 w0] eqn:Hf.
  apply fetch_issues in Hf as [(_ & Hd & _) _].
  destruct r0 as [rep|e| |]; cbn [snd]; try done.
  specialize (Hbody rep w0). destruct (body rep w0) as [[a|e| |] w1]; cbn [snd] in *;
    by subst.
Qed.

Lemma sendInstruction_deadline sessionId instruction w :
  deadline (snd (sendInstruction sessionId instruction w)) = deadline w.
Proof.
  apply tryPromise_fetch_deadline. intros [m|res] w0; [done|].
  destruct (negb (ok res)); [done|]. by destruct (json res).
Qed.

Lemma stopBrowser_deadline sessionId w :
  deadline (snd (stopBrowser sessionId w)) = deadline w.
Proof.
  unfold stopBrowser, catchAll_void.
  pose proof (tryPromise_fetch_deadline (mkRequest sessionId PostStop) (fun _ => ret tt)
                (fun error => BrowserError ("Failed to stop container: " ++ message_of error)
                                (Some error)) w (fun _ _ => eq_refl)) as H.
  cbv beta in H.
  by destruct (tryPromise _ _ w) as [[[]|e| |] w1].
Qed.

Lemma navigateBrowser_deadline sessionId url w :
  deadline (snd (navigateBrowser sessionId url w)) = deadline w.
Proof.
  unfold navigateBrowser, mapError, bind.
  pose proof (sendInstruction_deadline sessionId ("go to " ++ url) w) as H.
  by destruct (sendInstruction _ _ w) as [[d|e| |] w1].
Qed.

Lemma resizeBrowser_deadline sessionId viewport w :
  deadline (snd (resizeBrowser sessionId viewport w)) = deadline w.
Proof.
  apply tryPromise_fetch_deadline. intros [m|res] w0; [done|]. by destruct (negb (ok res)).
Qed.

Lemma reloadBrowser_deadline sessionId w :
  deadline (snd (reloadBrowser sessionId w)) = deadline w.
Proof.
  apply tryPromise_fetch_deadline. intros [m|res] w0; [done|]. by destruct (negb (ok res)).
Qed.

Lemma extractData_deadline {T} sessionId (schema : ZodSchema T) w :
  deadline (snd (extractData sessionId schema w)) = deadline w.
Proof.
  apply tryPromise_fetch_deadline. intros [m|res] w0; [done|].
  destruct (negb (ok res)); [done|]. destruct (json res) as [m|data]; [done|].
  destruct (negb (success data) || Js.truthy (error data)); [done|].
  by destruct (parse schema _).
Qed.
End OperationExtras.

(** ** The session lifecycle, continued *)

Section AgentExtras.
Import Remote BrowserAgent Calls.

(** On a session that is neither ready nor starting nor stopped,
    [ensureInitialized] throws at once, so the operation neither reaches the
    container nor changes the object. *)
Lemma session_op_refused {A} (call : string -> Eff A) update this s w :
  _session this = Some s ->
  status s <> SessionStatus.ready -> status s <> SessionStatus.starting ->
  status s <> SessionStatus.stopped ->
  session_op call update this w =
    (Failed (SessionNotConnectedError
               (match status s with
                | SessionStatus.error => default "Browser initialization failed" (error s)
                | _ => "Browser not initialized or not ready"
                end) (id s)),
     this, w).
Proof.
  intros Hs Hr Hst Hsp.
  unfold session_op, ensureInitialized, status_of, initFailedMessage.
  rewrite Hs. cbn [fmap option_fmap option_map mbind option_bind default from_option].
  destruct (status s); done.
Qed.

(** X15. The operations on a session that is in no state to take them: in
    'error' they fail with the stored error detail, in any other status but
    'ready', 'starting' and 'stopped' with "Browser not initialized or not
    ready"; nothing is sent to the container and the object stays as it
    is. *)
Theorem operations_refused_on_unusable_session (this : Agent) (s : SessionState) (w : World) :
  _session this = Some s ->
  status s <> SessionStatus.ready -> status s <> SessionStatus.starting ->
  status s <> SessionStatus.stopped ->
  let refusal :=
    SessionNotConnectedError
      (match status s with
       | SessionStatus.error => default "Browser initialization failed" (error s)
       | _ => "Browser not initialized or not ready"
       end) (id s) in
  (forall url, goto url this w = (Failed refusal, this, w)) /\
  (forall instruction, act instruction this w = (Failed refusal, this, w)) /\
  (forall T (schema : Browser.ZodSchema T), extract schema this w = (Failed refusal, this, w)) /\
  (forall viewport, resize viewport this w = (Failed refusal, this, w)) /\
  reload this w = (Failed refusal, this, w).
Proof.
  intros Hs Hr Hst Hsp refusal.
  repeat split_and; intros; by apply session_op_refused.
Qed.

(** A session that is being stopped takes no operation. *)
Lemma operations_refused_on_unusable_session_witness :
  let s := mkSession "s1" None SessionStatus.stopping "http://localhost:1337/view/s1"
             "ws://localhost:1337/cdp/s1" None 0 0 (mkViewport 1280 720) (Some dark) None in
  let this := mkAgent "s1" (Some s) "http://localhost:1337" in
  let w := Scenario.world 5 Scenario.ok_container in
  let refusal := SessionNotConnectedError "Browser not initialized or not ready" "s1" in
  (forall url, goto url this w = (Failed refusal, this, w)) /\
  (forall instruction, act instruction this w = (Failed refusal, this, w)) /\
  (forall T (schema : Browser.ZodSchema T), extract schema this w = (Failed refusal, this, w)) /\
  (forall viewport, resize viewport this w = (Failed refusal, this, w)) /\
  reload this w = (Failed refusal, this, w).
Proof.
  intros s this w.
  apply (operations_refused_on_unusable_session this s w); [reflexivity|discriminate..].
Defined.

(** X16. After an [initialize] that failed, every operation fails with a
    [SessionNotConnectedError] that carries the message of the start failure
    and the session id; the container is not contacted and the object does not
    change, whenever the operation is called. *)
Theorem operations_after_failed_initialize (options : InitOptions) (this : Agent)
    (w : World) (e : JsError) :
  fst (fst (initialize options this w)) = Failed e ->
  let this' := snd (fst (initialize options this w)) in
  let refusal := SessionNotConnectedError (message_of e) (opt_sessionId options) in
  forall w',
    (forall url, goto url this' w' = (Failed refusal, this', w')) /\
    (forall instruction, act instruction this' w' = (Failed refusal, this', w')) /\
    (forall T (schema : Browser.ZodSchema T),
       extract schema this' w' = (Failed refusal, this', w')) /\
    (forall viewport, resize viewport this' w' = (Failed refusal, this', w')) /\
    reload this' w' = (Failed refusal, this', w').
Proof.
  intros H. cbv zeta. intros w'. revert H. unfold initialize, runPromise.
  destruct (Browser.startBrowser _ _ w) as [[d|e0| |] w1]; cbn [fst snd];
    intros H; simplify_eq.
  cbn [isContainerStartError message_of].
  repeat split_and; intros; unfold goto, act, extract, resize, reload;
    match goal with |- context [with_session ?s0 _] =>
      rewrite (session_op_refused _ _ _ s0); [reflexivity|reflexivity|discriminate..]
    end.
Qed.

(** HTTP 422 at the start: a later [reload] fails with that message. *)
Lemma operations_after_failed_initialize_witness :
  let w := Scenario.world 0 Scenario.invalid_viewport_container in
  let this' := snd (fst (initialize Scenario.init_s1 (fresh "s1") w)) in
  let refusal :=
    SessionNotConnectedError "Container start failed (non-retryable): invalid viewport" "s1" in
  reload this' (Scenario.world 9000 Scenario.ok_container)
    = (Failed refusal, this', Scenario.world 9000 Scenario.ok_container).
Proof.
  intros w.
  apply (operations_after_failed_initialize Scenario.init_s1 (fresh "s1") w
           (ContainerStartError "Container start failed (non-retryable): invalid viewport"
              (Some "s1")
              (Some (FiberFailure "Container start failed (non-retryable): invalid viewport"
                       (ContainerStartError
                          "Container start failed (non-retryable): invalid viewport"
                          (Some "s1")
                          (Some (Error
                                   "Container start failed (non-retryable): invalid viewport"))))))).
  vm_compute. reflexivity.
Defined.

Lemma wait_after_initialize_ready n sessionId this :
  status_of this = Some SessionStatus.ready ->
  wait_after_initialize n sessionId this = ret tt.
Proof. intros H. destruct n; cbn [wait_after_initialize]; by rewrite H. Qed.

(** The record [initialize] creates, and the requests it sends. *)
Lemma initialize_record options this w :
  let base := Js.or_else (opt_workerUrl options)
                (Js.or_else (Some (_workerUrl this)) (Constants.getWorkerUrl None)) in
  let sessionId := opt_sessionId options in
  let this' := snd (fst (initialize options this w)) in
  this_name this' = this_name this /\ _workerUrl this' = base /\
  exists s, _session this' = Some s /\
    id s = sessionId /\ name s = opt_name options /\
    viewUrl s = base ++ "/view/" ++ sessionId /\
    cdpUrl s = Js.replace base "http" "ws" ++ "/cdp/" ++ sessionId /\
    viewport s = default (mkViewport 1280 720) (opt_viewport options) /\
    colorScheme s = Some (default dark (opt_colorScheme options)) /\
    createdAt s = clock w.
Proof.
  cbv zeta. unfold initialize, runPromise.
  destruct (Browser.startBrowser _ _ w) as [[d|e| |] w1]; cbn [fst snd];
    (split; [reflexivity|]); (split; [reflexivity|]); eexists; (split; [reflexivity|]);
    cbn; done.
Qed.

Lemma initialize_requests options this w :
  exists n, (n <= 21)%nat /\
    fetched (snd (initialize options this w)) =
      (fetched w ++ replicate n
         (Browser.startRequest (opt_sessionId options)
            (Browser.mkOptions
               (Some (default (mkViewport 1280 720) (opt_viewport options)))
               (opt_startUrl options)
               (Some (default dark (opt_colorScheme options))) None None)))%list.
Proof.
  unfold initialize, runPromise. cbn [viewport colorScheme].
  match goal with |- context [Browser.startBrowser ?sid ?o w] =>
    destruct (startBrowser_cases sid o w) as [[_ Hs]|Hc];
    [ rewrite Hs; exists 0%nat; cbn [snd replicate]; split; [lia|by rewrite app_nil_r]
    | destruct (Browser.startBrowser sid o w) as [r w1] eqn:Hs;
      apply startBrowser_admitted in Hs as (_ & n & Hn & Hf); [|done];
      exists n; split; [lia|]; by destruct r ]
  end.
Qed.

(** X17. An operation on an agent without a session, or with a stopped one,
    starts the browser again by itself.  The new record keeps the id (the
    name of the agent when there was no session), the viewport and the color
    scheme of the old one, takes its id as name when it had none, and is
    created anew; the start requests carry that viewport and color scheme and
    no start URL.  When the start fails, it is the [ContainerStartError] of
    [initialize] that the operation fails with. *)
Theorem ensureInitialized_restarts (this : Agent) (w : World) :
  status_of this = None \/ status_of this = Some SessionStatus.stopped ->
  deadline w = None ->
  let sessionId := default (this_name this) (id <$> _session this) in
  let kept_viewport := default (mkViewport 1280 720) (viewport <$> _session this) in
  let kept_scheme := default dark (_session this ≫= colorScheme) in
  let r := ensureInitialized this w in
  (exists s, _session (snd (fst r)) = Some s /\
     id s = sessionId /\
     name s = Some (default sessionId (_session this ≫= name)) /\
     viewport s = kept_viewport /\ colorScheme s = Some kept_scheme /\
     createdAt s = clock w /\
     ((fst (fst r) = Done tt /\ status s = SessionStatus.ready)
      \/ (exists e, fst (fst r) = Failed e /\ isContainerStartError e = true /\
            status s = SessionStatus.error /\ error s = Some (message_of e)))) /\
  exists n, (n <= 21)%nat /\
    fetched (snd r) =
      (fetched w ++ replicate n
         (Browser.startRequest sessionId
            (Browser.mkOptions (Some kept_viewport) None (Some kept_scheme) None None)))%list.
Proof.
  intros Hst Hd. cbv zeta.
  set (options := mkInit (default (this_name this) (id <$> _session this))
                    (Some (default (default (this_name this) (id <$> _session this))
                             (_session this ≫= name)))
                    (Some (default (mkViewport 1280 720) (viewport <$> _session this)))
                    None
                    (Some (Js.or_else (Some (_workerUrl this)) (Constants.getWorkerUrl None)))
                    (Some (default dark (_session this ≫= colorScheme)))).
  assert (ensureInitialized this w =
          match initialize options this w with
          | (Done _, this1, w1) =>
              lift (wait_after_initialize 60 (opt_sessionId options) this1) this1 w1
          | r => r
          end) as ->.
  { unfold ensureInitialized. by destruct Hst as [-> | ->]. }
  pose proof (initialize_record options this w) as (_ & _ & s & Hs & Hid & Hname & _ & _
                                                     & Hv & Hc & Hcr).
  pose proof (initialize_settles options this w Hd) as (s' & Hs' & Hres).
  pose proof (initialize_requests options this w) as (n & Hn & Hf).
  rewrite Hs in Hs'. simplify_eq.
  destruct (initialize options this w) as [[r1 this1] w1]. cbn [fst snd] in *.
  destruct Hres as [[-> Hready]|(e & -> & Hcs & Herr & Hmsg)].
  - rewrite wait_after_initialize_ready by (unfold status_of; by rewrite Hs, <- Hready).
    cbn [lift ret fst snd]. split; [|by exists n].
    exists s'. repeat (split; [done|]). by left.
  - cbn [fst snd]. split; [|by exists n].
    exists s'. repeat (split; [done|]). right. by exists e.
Qed.

(** A fresh agent "s1" whose first call is an operation: the browser is
    started for the container "s1" with the default viewport. *)
Lemma ensureInitialized_restarts_witness :
  let this := fresh "s1" in
  let w := Scenario.world 0 Scenario.ok_container in
  let r := ensureInitialized this w in
  (exists s, _session (snd (fst r)) = Some s /\
     id s = "s1" /\ name s = Some "s1" /\
     viewport s = mkViewport 1280 720 /\ colorScheme s = Some dark /\
     createdAt s = 0 /\
     ((fst (fst r) = Done tt /\ status s = SessionStatus.ready)
      \/ (exists e, fst (fst r) = Failed e /\ isContainerStartError e = true /\
            status s = SessionStatus.error /\ error s = Some (message_of e)))) /\
  exists n, (n <= 21)%nat /\
    fetched (snd r) =
      ([] ++ replicate n
         (Browser.startRequest "s1"
            (Browser.mkOptions (Some (mkViewport 1280 720)) None (Some dark) None None)))%list.
Proof.
  intros this w.
  apply (ensureInitialized_restarts this w); [by left|reflexivity].
Defined.
Lemma substring_all (s : string) : String.substring 0 (String.length s) s = s.
Proof. induction s as [|c s IH]; [done|]. cbn. by rewrite IH. Qed.

Lemma replace_http_ws (rest : string) : Js.replace ("http" ++ rest) "http" "ws" = "ws" ++ rest.
Proof.
  change ("http" ++ rest)
    with (String "h" (String "t" (String "t" (String "p" rest)))).
  cbn. replace (String.prefix "" rest) with true by (by destruct rest).
  by rewrite Nat.sub_0_r, substring_all.
Qed.

(** X18. The worker URL [initialize] settles on is the first non-empty one of the
    option, the URL the object holds and the default; the object keeps it.
    From an http(s) worker URL, the view URL is [<url>/view/<id>] and the CDP
    URL the matching ws(s) URL [ws<rest>/cdp/<id>]. *)
Theorem initialize_derives_urls (options : InitOptions) (this : Agent) (w : World)
    (rest : string) :
  Js.or_else (opt_workerUrl options)
    (Js.or_else (Some (_workerUrl this)) Constants.DEFAULT_WORKER_URL) = "http" ++ rest ->
  let this' := snd (fst (initialize options this w)) in
  _workerUrl this' = "http" ++ rest /\
  exists s, _session this' = Some s /\
    viewUrl s = "http" ++ rest ++ "/view/" ++ opt_sessionId options /\
    cdpUrl s = "ws" ++ rest ++ "/cdp/" ++ opt_sessionId options.
Proof.
  intros Hbase. cbv zeta.
  pose proof (initialize_record options this w) as (_ & Hw & s & Hs & _ & _ & Hv & Hc & _).
  unfold Constants.getWorkerUrl in *. rewrite Hbase in *.
  split; [done|]. exists s. split; [done|]. rewrite Hv, Hc, replace_http_ws.
  split; reflexivity.
Qed.

(** An https worker URL gives a wss CDP URL. *)
Lemma initialize_derives_urls_witness :
  let options := mkInit "s1" None None None (Some "https://cast.example.dev") None in
  let this' := snd (fst (initialize options (fresh "s1")
                           (Scenario.world 0 Scenario.ok_container))) in
  _workerUrl this' = "https://cast.example.dev" /\
  exists s, _session this' = Some s /\
    viewUrl s = "https://cast.example.dev/view/s1" /\
    cdpUrl s = "wss://cast.example.dev/cdp/s1".
Proof.
  intros options.
  apply (initialize_derives_urls options (fresh "s1")
           (Scenario.world 0 Scenario.ok_container) "s://cast.example.dev").
  reflexivity.
Defined.

Lemma sendInstruction_answered sessionId instruction w res data :
  deadline w = None ->
  reply (remote w (length (fetched w)) (mkRequest sessionId (PostInstruction instruction)))
    = Responds res ->
  ok res = true -> json res = inr data ->
  Browser.sendInstruction sessionId instruction w
    = (Done data,
       set_clock (clock w + Z.max 0 (took (remote w (length (fetched w))
                                             (mkRequest sessionId
                                                (PostInstruction instruction)))))
         (log_fetch (mkRequest sessionId (PostInstruction instruction)) w)).
Proof.
  intros Hd Hrep Hok Hj. unfold Browser.sendInstruction, tryPromise, bind.
  unfold fetch at 1. unfold bind, suspend, ret. cbn [deadline log_fetch clock].
  rewrite Hd, Hrep, Hok. cbn [negb]. by rewrite Hj.
Qed.

(** X19. [act] and [goto] do not look into the answer to their instruction: once
    the container answers 2xx with a JSON body, the call has succeeded and
    counts as activity, even when that body says [success: false] or carries
    an [error]. *)
Theorem instruction_answer_is_not_inspected (this : Agent) (s : SessionState) (w : World)
    (instruction : string) (res : HttpResponse) (data : Json) :
  _session this = Some s -> status s = SessionStatus.ready ->
  deadline w = None ->
  let ex := remote w (length (fetched w)) (mkRequest (id s) (PostInstruction instruction)) in
  reply ex = Responds res -> ok res = true -> json res = inr data ->
  let updated := with_session (set_lastActivity (clock w + Z.max 0 (took ex)) s) this in
  fst (act instruction this w) = (Done tt, updated) /\
  (forall url, instruction = "go to " ++ url -> fst (goto url this w) = (Done tt, updated)).
Proof.
  intros Hs Hst Hd ex Hrep Hok Hj updated.
  pose proof (sendInstruction_answered (id s) instruction w res data Hd Hrep Hok Hj) as Hsend.
  split; [|intros url ->];
    unfold act, goto, session_op, ensureInitialized, status_of;
    rewrite Hs; cbn [fmap option_fmap option_map]; rewrite Hst; cbv beta iota; rewrite Hs;
    unfold runPromise, Browser.navigateBrowser, mapError, bind; rewrite Hsend; reflexivity.
Qed.

(** The container answers 200 with [success: false]; [act] succeeds. *)
Lemma instruction_answer_is_not_inspected_witness :
  let answer := mkResponse 200 None (inr (mkJson false (Some "no such button") None "")) in
  let w := Scenario.world 100 (Scenario.always (mkExchange 30 (Responds answer))) in
  let s := mkSession "s1" None SessionStatus.ready "http://localhost:1337/view/s1"
             "ws://localhost:1337/cdp/s1" None 0 0 (mkViewport 1280 720) (Some dark) None in
  let this := mkAgent "s1" (Some s) "http://localhost:1337" in
  fst (act "click the login button" this w)
    = (Done tt, with_session (set_lastActivity 130 s) this).
Proof.
  intros answer w s this.
  apply (instruction_answer_is_not_inspected this s w "click the login button" answer
           (mkJson false (Some "no such button") None ""));
    reflexivity.
Defined.
Lemma wait_while_starting_fetched n this w :
  fetched (snd (wait_while_starting n this w)) = fetched w.
Proof.
  revert w. induction n as [|n IH]; intros w; cbn [wait_while_starting]; [done|].
  destruct (status_of this) as [[]|]; try done.
  unfold bind. destruct (sleep 1000 w) as [r w1] eqn:Hs.
  apply sleep_issues in Hs as [(Hf & _) [-> | ->]]; rewrite app_nil_r in Hf.
  - by rewrite IH.
  - done.
Qed.

Lemma wait_after_initialize_fetched n sessionId this w :
  fetched (snd (wait_after_initialize n sessionId this w)) = fetched w.
Proof.
  revert w. induction n as [|n IH]; intros w; cbn [wait_after_initialize];
    destruct (status_of this) as [[]|]; try done;
    unfold bind; destruct (sleep 1000 w) as [r w1] eqn:Hs;
    apply sleep_issues in Hs as [(Hf & _) [-> | ->]]; rewrite app_nil_r in Hf;
    first [by rewrite IH | done].
Qed.

(** The containers a call addresses: [P] holds of the names the object may
    use, [Q] of the requests it may send. *)
Lemma initialize_addresses (P : string -> Prop) (Q : Request -> Prop) options this w :
  (forall r, P (container r) -> Q r) ->
  P (opt_sessionId options) ->
  Forall Q (fetched w) ->
  this_name (snd (fst (initialize options this w))) = this_name this /\
  (forall s, _session (snd (fst (initialize options this w))) = Some s -> P (id s)) /\
  Forall Q (fetched (snd (initialize options this w))).
Proof.
  intros HPQ HP HQ.
  pose proof (initialize_record options this w) as (Hn & _ & s & Hs & Hid & _).
  pose proof (initialize_requests options this w) as (n & _ & Hf).
  split; [done|]. split.
  - intros s' Hs'. rewrite Hs in Hs'. simplify_eq. by rewrite Hid.
  - rewrite Hf. apply Forall_app. split; [done|].
    apply Forall_replicate. by apply HPQ.
Qed.

Lemma ensureInitialized_addresses (P : string -> Prop) (Q : Request -> Prop) this w :
  (forall r, P (container r) -> Q r) ->
  P (this_name this) ->
  (forall s, _session this = Some s -> P (id s)) ->
  Forall Q (fetched w) ->
  this_name (snd (fst (ensureInitialized this w))) = this_name this /\
  (forall s, _session (snd (fst (ensureInitialized this w))) = Some s -> P (id s)) /\
  Forall Q (fetched (snd (ensureInitialized this w))).
Proof.
  intros HPQ Hname Hsess HQ.
  assert (P (default (this_name this) (id <$> _session this))) as Hsid.
  { destruct (_session this) as [s|]; cbn; auto. }
  unfold ensureInitialized.
  destruct (status_of this) as [st|]; [destruct st|].
  all: try (cbn [fst snd]; done).
  - unfold lift. match goal with |- context [(?m >> ?k)%eff w] =>
      pose proof (wait_while_starting_fetched 60 this w) as Hw;
      unfold bind; destruct (wait_while_starting 60 this w) as [[[]| | |] w1] end;
      cbn [fst snd] in *; try (rewrite Hw; done).
    destruct (status_of this) as [[]|]; cbn [fst snd ret throw]; by rewrite Hw.
  - match goal with |- context [initialize ?o this w] =>
      pose proof (initialize_addresses P Q o this w HPQ Hsid HQ) as (Hn & Hs & Hf);
      destruct (initialize o this w) as [[[[]|e| |] this1] w1] end;
      cbn [fst snd] in *; try done.
    unfold lift.
    match goal with |- context [wait_after_initialize ?n ?sid this1 w1] =>
      pose proof (wait_after_initialize_fetched n sid this1 w1) as Hw;
      destruct (wait_after_initialize n sid this1 w1) as [r2 w2] end.
    cbn [fst snd] in *. by rewrite Hw.
  - match goal with |- context [initialize ?o this w] =>
      pose proof (initialize_addresses P Q o this w HPQ Hsid HQ) as (Hn & Hs & Hf);
      destruct (initialize o this w) as [[[[]|e| |] this1] w1] end;
      cbn [fst snd] in *; try done.
    unfold lift.
    match goal with |- context [wait_after_initialize ?n ?sid this1 w1] =>
      pose proof (wait_after_initialize_fetched n sid this1 w1) as Hw;
      destruct (wait_after_initialize n sid this1 w1) as [r2 w2] end.
    cbn [fst snd] in *. by rewrite Hw.
Qed.

Lemma session_op_addresses {A} (P : string -> Prop) (Q : Request -> Prop)
    (call : string -> Eff A) update this w :
  (forall r, P (container r) -> Q r) ->
  (forall sid w0, exists req, container req = sid /\ sends_only req w0 (snd (call sid w0))) ->
  (forall s, id (update s) = id s) ->
  P (this_name this) ->
  (forall s, _session this = Some s -> P (id s)) ->
  Forall Q (fetched w) ->
  this_name (snd (fst (session_op call update this w))) = this_name this /\
  (forall s, _session (snd (fst (session_op call update this w))) = Some s -> P (id s)) /\
  Forall Q (fetched (snd (session_op call update this w))).
Proof.
  intros HPQ Hcall Hupd Hname Hsess HQ. unfold session_op.
  pose proof (ensureInitialized_addresses P Q this w HPQ Hname Hsess HQ) as (Hn & Hs & Hf).
  destruct (ensureInitialized this w) as [[[[]|e| |] this1] w1]; cbn [fst snd] in *;
    try done.
  destruct (_session this1) as [s|] eqn:Hs1; cbn [fst snd];
    [|split; [done|]; split; [congruence|done]].
  destruct (Hcall (id s) w1) as (req & Hreq & Hsend & _).
  assert (Forall Q (fetched (snd (runPromise (call (id s)) w1)))) as Hf2.
  { rewrite runPromise_world, Hsend. apply Forall_app. split; [done|].
    apply Forall_singleton, HPQ. rewrite Hreq. by apply Hs. }
  destruct (runPromise (call (id s)) w1) as [[a|e| |] w2]; cbn [fst snd] in *;
    (split; [done|]); (split; [|done]); try done.
  intros s' Hs'. cbn in Hs'. simplify_eq. cbn. rewrite Hupd. by apply Hs.
  all: intros s0 Hs0; apply Hs; congruence.
Qed.

Lemma perform_addresses (P : string -> Prop) (Q : Request -> Prop) st c :
  (forall r, P (container r) -> Q r) ->
  (forall options, c = Initialize options -> P (opt_sessionId options)) ->
  P (this_name (fst st)) ->
  (forall s, _session (fst st) = Some s -> P (id s)) ->
  Forall Q (fetched (snd st)) ->
  this_name (fst (perform st c)) = this_name (fst st) /\
  (forall s, _session (fst (perform st c)) = Some s -> P (id s)) /\
  Forall Q (fetched (snd (perform st c))).
Proof.
  destruct st as [this w]. cbn [fst snd]. intros HPQ Hinit Hname Hsess HQ.
  destruct c; cbn [perform after fst snd].
  - apply initialize_addresses; auto.
  - unfold stop, stop_entered. destruct (_session this) as [s|] eqn:Hs;
      [|cbn [fst snd]; split; [done|]; split; [congruence|done]].
    pose proof (stopBrowser_sends_only (id s) w) as (Hf & _).
    rewrite <- (runPromise_world (Browser.stopBrowser (id s)) w) in Hf.
    destruct (runPromise (Browser.stopBrowser (id s)) w) as [r w1]. cbn [fst snd] in *.
    split; [done|]. split.
    + intros s' Hs'. cbn in Hs'. simplify_eq. cbn. by apply Hsess.
    + rewrite Hf. apply Forall_app. split; [done|]. apply Forall_singleton, HPQ.
      by apply Hsess.
  - apply session_op_addresses; auto.
    intros sid w0. eexists. split; [|apply navigateBrowser_sends_only]. done.
  - apply session_op_addresses; auto.
    intros sid w0. exists (mkRequest sid (PostInstruction instruction)). split; [done|].
    pose proof (sendInstruction_sends_only sid instruction w0) as H.
    unfold bind. by destruct (Browser.sendInstruction sid instruction w0) as [[]].
  - apply session_op_addresses; auto.
    intros sid w0. eexists. split; [|apply extractData_sends_only]. done.
  - apply session_op_addresses; auto.
    intros sid w0. eexists. split; [|apply resizeBrowser_sends_only]. done.
  - apply session_op_addresses; auto.
    intros sid w0. eexists. split; [|apply reloadBrowser_sends_only]. done.
Qed.

(** X20. An agent only ever talks to containers of its own: whatever calls are
    made on a fresh agent, every request it sends goes to the container named
    like the agent, or like a session id that was passed to [initialize]; and
    the id of its session is one of these names. *)
Theorem agent_addresses_its_own_containers (name : string) (calls : list Call) (w : World) :
  let allowed := fun c =>
    c = name \/ exists options, In (Initialize options) calls /\ c = opt_sessionId options in
  let st := run calls (fresh name, w) in
  (forall r, In r (fetched (snd st)) -> In r (fetched w) \/ allowed (container r)) /\
  (forall s, _session (fst st) = Some s -> allowed (id s)).
Proof.
  intros allowed st.
  assert (forall before todo st0,
            calls = (before ++ todo)%list ->
            this_name (fst st0) = name ->
            (forall s, _session (fst st0) = Some s -> allowed (id s)) ->
            Forall (fun r => In r (fetched w) \/ allowed (container r)) (fetched (snd st0)) ->
            (forall s, _session (fst (run todo st0)) = Some s -> allowed (id s)) /\
            Forall (fun r => In r (fetched w) \/ allowed (container r))
              (fetched (snd (run todo st0)))) as Hrun.
  { intros before todo. revert before.
    induction todo as [|c todo IH]; intros before st0 Hcalls Hname Hsess HQ; [done|].
    cbn [run fold_left].
    pose proof (perform_addresses allowed
                  (fun r => In r (fetched w) \/ allowed (container r)) st0 c) as Hp.
    destruct Hp as (Hn' & Hs' & Hf'); auto.
    - intros options ->. right. exists options. split; [|done].
      rewrite Hcalls. apply in_or_app. right. by left.
    - rewrite Hname. by left.
    - apply (IH (before ++ [c])%list); auto.
      + by rewrite <- app_assoc.
      + by rewrite Hn'. }
  destruct (Hrun [] calls (fresh name, w)) as [Hs Hf]; auto.
  - intros s H0. unfold fresh in H0. cbn in H0. discriminate H0.
  - cbn [snd]. apply List.Forall_forall. auto.
  - split; [|exact Hs]. intros r Hr. by apply (proj1 (List.Forall_forall _ _) Hf).
Qed.
Lemma initialize_deadline options this w :
  deadline w = None -> deadline (snd (initialize options this w)) = None.
Proof.
  intros Hd. unfold initialize, runPromise.
  destruct (Browser.startBrowser _ _ w) as [r w1] eqn:Hs.
  apply startBrowser_deadline in Hs as (Hd1 & _); [|done]. by destruct r.
Qed.

Lemma ensureInitialized_settled this w :
  deadline w = None ->
  status_of this = None \/ status_of this = Some SessionStatus.ready
  \/ status_of this = Some SessionStatus.error \/ status_of this = Some SessionStatus.stopped ->
  deadline (snd (ensureInitialized this w)) = None /\
  (status_of (snd (fst (ensureInitialized this w))) = Some SessionStatus.ready
   \/ status_of (snd (fst (ensureInitialized this w))) = Some SessionStatus.error) /\
  (forall d, fst (fst (ensureInitialized this w)) = Done d ->
     status_of (snd (fst (ensureInitialized this w))) = Some SessionStatus.ready).
Proof.
  intros Hd Hst.
  assert (forall options,
            ensureInitialized this w =
              match initialize options this w with
              | (Done _, this1, w1) =>
                  lift (wait_after_initialize 60 (opt_sessionId options) this1) this1 w1
              | r => r
              end ->
            deadline (snd (ensureInitialized this w)) = None /\
            (status_of (snd (fst (ensureInitialized this w))) = Some SessionStatus.ready
             \/ status_of (snd (fst (ensureInitialized this w))) = Some SessionStatus.error) /\
            (forall d, fst (fst (ensureInitialized this w)) = Done d ->
               status_of (snd (fst (ensureInitialized this w))) = Some SessionStatus.ready))
    as Hinit.
  { intros options ->.
    pose proof (initialize_settles options this w Hd) as (s & Hs & Hres).
    pose proof (initialize_deadline options this w Hd) as Hd1.
    destruct (initialize options this w) as [[r1 this1] w1]. cbn [fst snd] in *.
    destruct Hres as [[-> Hready]|(e & -> & _ & Herr & _)].
    - assert (status_of this1 = Some SessionStatus.ready) as Hr
        by (unfold status_of; by rewrite Hs, <- Hready).
      rewrite wait_after_initialize_ready by done. cbn [lift ret fst snd]. auto.
    - cbn [fst snd]. split; [done|]. split; [|done].
      right. unfold status_of. by rewrite Hs, <- Herr. }
  set (options := mkInit (default (this_name this) (id <$> _session this))
                    (Some (default (default (this_name this) (id <$> _session this))
                             (_session this ≫= name)))
                    (Some (default (mkViewport 1280 720) (viewport <$> _session this)))
                    None
                    (Some (Js.or_else (Some (_workerUrl this)) (Constants.getWorkerUrl None)))
                    (Some (default dark (_session this ≫= colorScheme)))) in Hinit.
  destruct Hst as [Hst|[Hst|[Hst|Hst]]].
  - apply (Hinit options). unfold ensureInitialized. by rewrite Hst.
  - assert (ensureInitialized this w = (Done tt, this, w)) as ->
      by (unfold ensureInitialized; rewrite Hst; reflexivity).
    cbn [fst snd]. split; [exact Hd|]. split; [left; exact Hst|intros; exact Hst].
  - assert (exists e, ensureInitialized this w = (Failed e, this, w)) as [e ->]
      by (unfold ensureInitialized; rewrite Hst; eexists; reflexivity).
    cbn [fst snd]. split; [exact Hd|]. split; [right; exact Hst|intros d H; discriminate H].
  - apply (Hinit options). unfold ensureInitialized. by rewrite Hst.
Qed.

Lemma session_op_settled {A} (call : string -> Eff A) update this w :
  (forall sid w0, deadline (snd (call sid w0)) = deadline w0) ->
  (forall s, status (update s) = status s) ->
  deadline w = None ->
  status_of this = None \/ status_of this = Some SessionStatus.ready
  \/ status_of this = Some SessionStatus.error \/ status_of this = Some SessionStatus.stopped ->
  deadline (snd (session_op call update this w)) = None /\
  (status_of (snd (fst (session_op call update this w))) = Some SessionStatus.ready
   \/ status_of (snd (fst (session_op call update this w))) = Some SessionStatus.error).
Proof.
  intros Hcall Hupd Hd Hst. unfold session_op.
  pose proof (ensureInitialized_settled this w Hd Hst) as (Hd1 & Hst1 & Hdone).
  destruct (ensureInitialized this w) as [[[[]|e| |] this1] w1]; cbn [fst snd] in *;
    try done.
  specialize (Hdone tt eq_refl).
  unfold status_of in Hdone. destruct (_session this1) as [s|] eqn:Hs1; [|done].
  specialize (Hcall (id s) w1).
  rewrite <- (runPromise_world (call (id s)) w1) in Hcall.
  destruct (runPromise (call (id s)) w1) as [[a|e| |] w2]; cbn [fst snd] in *;
    (split; [congruence|]); unfold status_of; rewrite ?Hs1; cbn; rewrite ?Hupd; auto.
Qed.

(** X21. Between calls the session of a [BrowserAgent] is 'ready', in 'error' or
    'stopped' (or there is none yet): 'starting' and 'stopping' are seen only
    while a call is under way, and no call ever sets another status. *)
Theorem session_status_between_calls (name : string) (calls : list Call) (w : World) :
  deadline w = None ->
  let this := fst (run calls (fresh name, w)) in
  status_of this = None \/ status_of this = Some SessionStatus.ready
  \/ status_of this = Some SessionStatus.error \/ status_of this = Some SessionStatus.stopped.
Proof.
  intros Hd this. subst this.
  assert (forall st : Agent * World,
            deadline (snd st) = None ->
            (status_of (fst st) = None \/ status_of (fst st) = Some SessionStatus.ready
             \/ status_of (fst st) = Some SessionStatus.error
             \/ status_of (fst st) = Some SessionStatus.stopped) ->
            status_of (fst (run calls st)) = None
            \/ status_of (fst (run calls st)) = Some SessionStatus.ready
            \/ status_of (fst (run calls st)) = Some SessionStatus.error
            \/ status_of (fst (run calls st)) = Some SessionStatus.stopped) as Hrun.
  { induction calls as [|c calls IH]; intros st Hd0 Hst; [done|].
    cbn [run fold_left]. destruct st as [this w0]. cbn [fst snd] in *.
    assert (deadline (snd (perform (this, w0) c)) = None /\
            (status_of (fst (perform (this, w0) c)) = Some SessionStatus.ready
             \/ status_of (fst (perform (this, w0) c)) = Some SessionStatus.error
             \/ status_of (fst (perform (this, w0) c)) = status_of this
             \/ status_of (fst (perform (this, w0) c)) = Some SessionStatus.stopped))
      as [Hd1 Hst1].
    { destruct c as [options| |url|instruction|schema|vp|]; cbn [perform after fst snd].
      - split; [by apply initialize_deadline|].
        destruct (initialize_settles options this w0 Hd0) as (s & Hs & Hres).
        unfold status_of. rewrite Hs. cbn.
        destruct Hres as [[_ ->]|(e & _ & _ & -> & _)]; auto.
      - unfold stop, stop_entered. destruct (_session this) as [s|] eqn:Hs.
        + pose proof (stopBrowser_deadline (id s) w0) as Hsd.
          rewrite <- (runPromise_world (Browser.stopBrowser (id s)) w0) in Hsd.
          destruct (runPromise (Browser.stopBrowser (id s)) w0) as [r w1].
          cbn [fst snd] in *.
          split; [congruence|]. auto.
        + cbn [fst snd]. auto.
      - destruct (session_op_settled (fun sid => Browser.navigateBrowser sid url)
                    (fun s => s) this w0) as [? [?|?]]; auto using navigateBrowser_deadline.
      - destruct (session_op_settled
                    (fun sid => (Browser.sendInstruction sid instruction >> ret tt)%eff)
                    (fun s => s) this w0) as [? [?|?]]; auto.
        intros sid w1. pose proof (sendInstruction_deadline sid instruction w1) as H.
        unfold bind. by destruct (Browser.sendInstruction sid instruction w1) as [[]].
      - destruct (session_op_settled (fun sid => Browser.extractData sid schema)
                    (fun s => s) this w0) as [? [?|?]]; auto using extractData_deadline.
      - destruct (session_op_settled (fun sid => Browser.resizeBrowser sid vp)
                    (set_viewport vp) this w0) as [? [?|?]];
          auto using resizeBrowser_deadline.
      - destruct (session_op_settled (fun sid => Browser.reloadBrowser sid)
                    (fun s => s) this w0) as [? [?|?]]; auto using reloadBrowser_deadline. }
    apply IH; [done|].
    destruct Hst1 as [-> |[-> |[-> | ->]]]; auto. }
  apply Hrun; [done|]. by left.
Qed.

(** Start, use, stop and use again. *)
Lemma session_status_between_calls_witness :
  let w := Scenario.world 0 Scenario.ok_container in
  let this := fst (run [Reload; Stop; Act "scroll down"] (fresh "s1", w)) in
  status_of this = None \/ status_of this = Some SessionStatus.ready
  \/ status_of this = Some SessionStatus.error \/ status_of this = Some SessionStatus.stopped.
Proof.
  intros w.
  apply (session_status_between_calls "s1" [Reload; Stop; Act "scroll down"] w).
  reflexivity.
Defined.
End AgentExtras.

(** ** The confirmation gate, in general *)

Section GateExtras.
Import ConfirmationGate.

Lemma resolve_settled p value g q v :
  settled g !! q = Some v -> settled (resolve p value g) !! q = Some v.
Proof.
  intros Hq. unfold resolve. destruct (settled g !! p) eqn:Hp; [done|].
  cbn. rewrite lookup_insert_ne; [done|]. intros ->. congruence.
Qed.

Lemma on_timeout_settled g q v :
  settled g !! q = Some v -> settled (on_timeout g) !! q = Some v.
Proof.
  intros Hq. unfold on_timeout. destruct (_confirmationPromise g); [|done].
  cbn [clear_slot settled]. by apply resolve_settled.
Qed.

Lemma run_timers_settled ts upto g q v :
  settled g !! q = Some v -> settled (run_timers ts upto g) !! q = Some v.
Proof.
  revert g. induction ts as [|t ts IH]; intros g Hq; cbn [run_timers]; [done|].
  destruct (t <=? upto); [|done]. apply IH. by apply on_timeout_settled.
Qed.

Lemma handle_settled g ev q v :
  settled g !! q = Some v -> settled (handle g ev) !! q = Some v.
Proof.
  intros Hq. destruct ev as [timeout|value|dt]; cbn [handle].
  - unfold confirm. by destruct (negb (hasSession g)).
  - unfold resolveConfirmation. destruct (_confirmationPromise g); [|done].
    cbn [clear_slot settled]. by apply resolve_settled.
  - unfold elapse. cbn [settled]. by apply run_timers_settled.
Qed.

(** A settled promise keeps its value. *)
Lemma run_settled g evs q v :
  settled g !! q = Some v -> settled (run evs g) !! q = Some v.
Proof.
  revert g. induction evs as [|ev evs IH]; intros g Hp; [done|].
  cbn [run fold_left]. apply IH. by apply handle_settled.
Qed.

Lemma insert_timer_In due ts x : In x (insert_timer due ts) <-> x = due \/ In x ts.
Proof.
  induction ts as [|t ts IH]; cbn [insert_timer].
  - cbn. intuition.
  - destruct (due <? t); cbn [In]; [intuition|]. rewrite IH. intuition.
Qed.

Lemma insert_timer_sorted due ts :
  StronglySorted Z.le ts -> StronglySorted Z.le (insert_timer due ts).
Proof.
  induction 1 as [|t ts Hs IH Hle]; cbn [insert_timer].
  - constructor; constructor.
  - destruct (Z.ltb_spec due t).
    + constructor; [by constructor|]. constructor; [lia|].
      eapply Forall_impl; [exact Hle|]. intros x Hx. cbn in Hx. lia.
    + constructor; [done|]. apply List.Forall_forall. intros x Hx.
      apply insert_timer_In in Hx as [-> |Hx]; [lia|].
      by apply (proj1 (List.Forall_forall _ _) Hle).
Qed.

Lemma gate_wf_frame g g' :
  gate_wf g ->
  hasSession g' = hasSession g -> settled g' = settled g -> created g' = created g ->
  _confirmationPromise g' = _confirmationPromise g ->
  StronglySorted Z.le (timers g') ->
  gate_wf g'.
Proof.
  intros (Hh & _ & Hk & Hslot) Eh Es Ec Ep Hs.
  unfold gate_wf. rewrite Eh, Es, Ec, Ep. done.
Qed.

Lemma resolve_clear_wf p value g :
  (p < created g)%nat -> gate_wf g -> gate_wf (clear_slot (resolve p value g)).
Proof.
  intros Hp (Hh & Hs & Hk & Hslot). unfold resolve.
  destruct (settled g !! p) eqn:Hsp.
  - split; [done|]. split; [done|]. split; [done|]. intros q Hq. discriminate Hq.
  - split; [done|]. split; [done|]. split; [|intros q Hq; discriminate Hq].
    intros q [v Hq]. cbn in Hq. destruct (decide (q = p)) as [->|Hne]; [done|].
    rewrite lookup_insert_ne in Hq by done. apply Hk. by exists v.
Qed.

Lemma on_timeout_wf g : gate_wf g -> gate_wf (on_timeout g).
Proof.
  intros Hwf. unfold on_timeout. destruct (_confirmationPromise g) as [p|] eqn:Hp; [|done].
  apply resolve_clear_wf; [|done]. by apply Hwf.
Qed.

Lemma run_timers_wf ts upto g :
  StronglySorted Z.le ts -> gate_wf g -> gate_wf (run_timers ts upto g).
Proof.
  intros Hts. revert g. induction Hts as [|t ts Hs IH Hle]; intros g Hwf;
    cbn [run_timers].
  - apply (gate_wf_frame g); try done. constructor.
  - destruct (t <=? upto).
    + apply IH, on_timeout_wf. by apply (gate_wf_frame g).
    + apply (gate_wf_frame g); try done. by constructor.
Qed.

Lemma handle_wf g ev : gate_wf g -> gate_wf (handle g ev).
Proof.
  intros Hwf. destruct ev as [timeout|value|dt]; cbn [handle].
  - destruct Hwf as (Hh & Hs & Hk & Hslot). unfold confirm. rewrite Hh. cbn [negb snd].
    split; [done|]. split; [by apply insert_timer_sorted|]. split.
    + intros p Hp. specialize (Hk p Hp). cbn. lia.
    + intros p Hp. cbn in Hp. simplify_eq. cbn. split; [lia|].
      destruct (settled g !! created g) eqn:Hf; [|done].
      assert (created g < created g)%nat by (apply Hk; eauto). lia.
  - unfold resolveConfirmation. destruct (_confirmationPromise g) as [p|] eqn:Hp; [|done].
    apply resolve_clear_wf; [|done]. by apply Hwf.
  - unfold elapse.
    pose proof (run_timers_wf (timers g) (now g + Z.max 0 dt) g (proj1 (proj2 Hwf)) Hwf)
      as Hwf'.
    apply (gate_wf_frame _ _ Hwf'); try done. apply Hwf'.
Qed.

(** The gate of an agent with a session is well formed, whatever happened. *)
Lemma run_wf evs g : gate_wf g -> gate_wf (run evs g).
Proof.
  revert g. induction evs as [|ev evs IH]; intros g Hwf; [done|].
  cbn [run fold_left]. by apply IH, handle_wf.
Qed.

Lemma idle_wf t : gate_wf (idle t).
Proof.
  split; [done|]. split; [constructor|]. split.
  - intros p [v Hv]. cbn in Hv. by rewrite lookup_empty in Hv.
  - intros p Hp. discriminate Hp.
Qed.

(** A promise that is neither settled nor in the slot stays unsettled. *)
Lemma handle_dropped g ev p :
  settled g !! p = None -> _confirmationPromise g <> Some p -> (p < created g)%nat ->
  settled (handle g ev) !! p = None /\ _confirmationPromise (handle g ev) <> Some p /\
  (p < created (handle g ev))%nat.
Proof.
  assert (forall q value g0,
            settled g0 !! p = None -> q <> p -> settled (resolve q value g0) !! p = None)
    as Hres.
  { intros q value g0 Hp Hne. unfold resolve. destruct (settled g0 !! q); [done|].
    cbn. by rewrite lookup_insert_ne. }
  assert (forall g0,
            settled g0 !! p = None -> _confirmationPromise g0 <> Some p ->
            settled (on_timeout g0) !! p = None /\ _confirmationPromise (on_timeout g0) <> Some p
            /\ created (on_timeout g0) = created g0) as Hto.
  { intros g0 Hp Hslot. unfold on_timeout.
    destruct (_confirmationPromise g0) as [q|] eqn:Hq; [|by rewrite Hq].
    cbn [clear_slot settled _confirmationPromise created]. split; [|split; [done|]].
    - apply Hres; [done|congruence].
    - unfold resolve. by destruct (settled g0 !! q). }
  intros Hp Hslot Hlt. destruct ev as [timeout|value|dt]; cbn [handle].
  - unfold confirm. destruct (negb (hasSession g)); cbn [snd]; [done|].
    cbn. repeat split; [done| |lia]. intros H. simplify_eq. lia.
  - unfold resolveConfirmation.
    destruct (_confirmationPromise g) as [q|] eqn:Hq; [|by rewrite Hq].
    cbn [clear_slot settled _confirmationPromise created]. split; [|split; [done|]].
    + apply Hres; [done|congruence].
    + unfold resolve. by destruct (settled g !! q).
  - unfold elapse. cbn [settled _confirmationPromise created].
    generalize (now g + Z.max 0 dt). intros upto.
    generalize (timers g). intros ts.
    revert g Hp Hslot Hlt. induction ts as [|t ts IH]; intros g Hp Hslot Hlt;
      cbn [run_timers]; [done|].
    destruct (t <=? upto); [|done].
    match goal with |- context [on_timeout ?g0] =>
      destruct (Hto g0) as (H1 & H2 & H3); [done..|] end.
    apply IH; [done..|]. rewrite H3. done.
Qed.

(** X22. [resolveConfirmation] answers the confirmation that is pending.
    Whatever was asked, answered and waited for before: when a confirmation
    is pending, it is settled with the given value at that moment, the slot
    is cleared, and nothing that happens afterwards changes that answer; when
    none is pending, [resolveConfirmation] changes nothing. *)
Theorem resolveConfirmation_answers_pending (t : Z) (before later : list Event)
    (value : bool) :
  let g := run before (idle t) in
  match _confirmationPromise g with
  | Some p =>
      settled g !! p = None /\
      _confirmationPromise (resolveConfirmation value g) = None /\
      settled (run (Resolve value :: later) g) !! p = Some (value, now g)
  | None => resolveConfirmation value g = g
  end.
Proof.
  intros g.
  pose proof (run_wf before (idle t) (idle_wf t)) as (_ & _ & _ & Hslot).
  fold g in Hslot.
  destruct (_confirmationPromise g) as [p|] eqn:Hp.
  - destruct (Hslot p eq_refl) as [_ Hnone]. split; [done|].
    unfold resolveConfirmation. rewrite Hp. split; [done|].
    cbn [run fold_left handle]. apply run_settled.
    unfold resolveConfirmation. rewrite Hp. cbn [clear_slot settled].
    unfold resolve. rewrite Hnone. cbn. by rewrite lookup_insert_eq.
  - unfold resolveConfirmation. by rewrite Hp.
Qed.

(** X23. A confirmation that is asked while another one is pending takes its
    place: the pending promise is dropped, and nothing that happens later
    (answers, timers, further confirmations) ever settles it. *)
Theorem overwritten_confirmation_never_settles (t : Z) (before later : list Event)
    (timeout : option Z) (p : nat) :
  let g := run before (idle t) in
  _confirmationPromise g = Some p ->
  settled (run (Confirm timeout :: later) g) !! p = None.
Proof.
  intros g Hp.
  pose proof (run_wf before (idle t) (idle_wf t)) as (Hh & Hs & Hk & Hslot).
  fold g in Hh, Hs, Hk, Hslot. destruct (Hslot p Hp) as [Hlt Hnone].
  cbn [run fold_left handle]. unfold confirm. rewrite Hh. cbn [negb snd].
  match goal with |- settled (fold_left handle later ?g2) !! _ = None =>
    assert (settled g2 !! p = None /\ _confirmationPromise g2 <> Some p /\
            (p < created g2)%nat) as Hinv end.
  { cbn. split; [done|]. split; [|lia]. intros H. injection H as H. lia. }
  match goal with |- settled (fold_left handle later ?g2) !! _ = None =>
    generalize dependent g2 end.
  induction later as [|ev later IH]; intros g2 Hinv; [by destruct Hinv|].
  cbn [fold_left]. apply IH. destruct Hinv as (H1 & H2 & H3). by apply handle_dropped.
Qed.

(** Two confirmations in a row: the first promise is never settled, not by
    an answer, not by either timer. *)
Lemma overwritten_confirmation_never_settles_witness :
  let g := run [Confirm (Some 60000)] (idle 0) in
  _confirmationPromise g = Some 0%nat /\
  settled (run [Confirm (Some 1000); Resolve true; Elapse 70000; Resolve false] g) !! 0%nat
    = None.
Proof.
  intros g. split; [reflexivity|].
  apply (overwritten_confirmation_never_settles 0 [Confirm (Some 60000)]
           [Resolve true; Elapse 70000; Resolve false] (Some 1000) 0%nat).
  reflexivity.
Defined.

(** One step of a gate on which the promise [p], due at [due], is pending
    and no further confirmation is asked: the promise is settled by [due],
    or it is still pending before [due] with its timer in place. *)
Lemma handle_pending g ev p due :
  (forall timeout, ev <> Confirm timeout) ->
  (exists value at_, settled g !! p = Some (value, at_) /\ at_ <= due)
  \/ (settled g !! p = None /\ _confirmationPromise g = Some p /\ In due (timers g) /\
      now g < due /\ StronglySorted Z.le (timers g)) ->
  (exists value at_, settled (handle g ev) !! p = Some (value, at_) /\ at_ <= due)
  \/ (settled (handle g ev) !! p = None /\ _confirmationPromise (handle g ev) = Some p /\
      In due (timers (handle g ev)) /\ now (handle g ev) < due /\
      StronglySorted Z.le (timers (handle g ev))).
Proof.
  intros Hev [(value & at_ & Hp & Hle)|(Hp & Hslot & Hin & Hnow & Hsorted)].
  { left. exists value, at_. split; [|done]. by apply handle_settled. }
  destruct ev as [timeout|value|dt]; cbn [handle].
  - by destruct (Hev timeout).
  - left. exists value, (now g). split; [|lia].
    unfold resolveConfirmation. rewrite Hslot. cbn [clear_slot settled].
    unfold resolve. rewrite Hp. cbn. by rewrite lookup_insert_eq.
  - unfold elapse. destruct (timers g) as [|t1 rest] eqn:Hts; [done|].
    assert (t1 <= due) as Ht1.
    { apply StronglySorted_inv in Hsorted as [_ Hall].
      destruct Hin as [-> |Hin]; [lia|]. by apply (proj1 (List.Forall_forall _ _) Hall). }
    cbn [run_timers]. destruct (Z.leb_spec t1 (now g + Z.max 0 dt)).
    + left. exists false, (Z.max (now g) t1). split; [|lia].
      cbn [settled]. apply run_timers_settled.
      unfold on_timeout. cbn [_confirmationPromise]. rewrite Hslot.
      cbn [clear_slot settled]. unfold resolve. cbn [settled]. rewrite Hp. cbn.
      by rewrite lookup_insert_eq.
    + right. cbn. repeat split; try done. lia.
Qed.

(** X24. A confirmation that is not overwritten by a later one is settled when
    its timeout expires at the latest (and then to [false], unless it was
    answered, or resolved by the timer of an earlier confirmation, before). *)
Theorem confirmation_settles_by_its_timeout (t : Z) (before later : list Event)
    (timeout : option Z) :
  let ms := default Constants.CONFIRMATION_TIMEOUT_MS timeout in
  let g := run before (idle t) in
  let g' := run (Confirm timeout :: later) g in
  0 < ms ->
  (forall ev, In ev later -> forall timeout', ev <> Confirm timeout') ->
  now g + ms <= now g' ->
  exists value at_, settled g' !! created g = Some (value, at_) /\ at_ <= now g + ms.
Proof.
  intros ms g g' Hms Hlater Hnow.
  pose proof (run_wf before (idle t) (idle_wf t)) as (Hh & Hs & Hk & Hslot).
  fold g in Hh, Hs, Hk, Hslot.
  assert ((exists value at_, settled g' !! created g = Some (value, at_) /\ at_ <= now g + ms)
          \/ (settled g' !! created g = None /\ _confirmationPromise g' = Some (created g) /\
              In (now g + ms) (timers g') /\ now g' < now g + ms /\
              StronglySorted Z.le (timers g'))) as [H|H]; [|done|lia].
  clear Hnow. subst g'. cbn [run fold_left handle].
  unfold confirm. rewrite Hh. cbn [negb snd]. fold ms.
  replace (Z.max 0 ms) with ms by lia.
  match goal with |- context [fold_left handle later ?g1] =>
    assert ((exists value at_, settled g1 !! created g = Some (value, at_)
                               /\ at_ <= now g + ms)
            \/ (settled g1 !! created g = None /\ _confirmationPromise g1 = Some (created g) /\
                In (now g + ms) (timers g1) /\ now g1 < now g + ms /\
                StronglySorted Z.le (timers g1))) as Hinv;
    [|generalize dependent g1]
  end.
  { right. cbn. repeat split; try done.
    - destruct (settled g !! created g) eqn:Hf; [|done].
      assert (created g < created g)%nat by (apply Hk; eauto). lia.
    - apply insert_timer_In. by left.
    - lia.
    - by apply insert_timer_sorted. }
  induction later as [|ev later IH]; intros g1 Hinv; [exact Hinv|].
  cbn [fold_left]. apply IH.
  - intros ev' Hin. apply Hlater. by right.
  - apply handle_pending; [|done]. apply Hlater. by left.
Qed.

(** Asked at 2000 with a timeout of 60000 while the timer of an earlier
    confirmation is still running: settled by 62000. *)
Lemma confirmation_settles_by_its_timeout_witness :
  let g := run [Confirm (Some 60000); Elapse 1000; Resolve true; Elapse 1000] (idle 0) in
  let g' := run [Confirm (Some 60000); Elapse 30000; Elapse 30000] g in
  now g + 60000 <= now g' /\
  exists value at_, settled g' !! created g = Some (value, at_) /\ at_ <= now g + 60000.
Proof.
  intros g g'. split; [vm_compute; discriminate|].
  apply (confirmation_settles_by_its_timeout 0
           [Confirm (Some 60000); Elapse 1000; Resolve true; Elapse 1000]
           [Elapse 30000; Elapse 30000] (Some 60000)).
  - reflexivity.
  - intros ev [<- |[<- |[]]] timeout'; discriminate.
  - vm_compute. discriminate.
Defined.
End GateExtras.

(** ** The [withBrowser] mixin: what reaches the storage *)

Section MixinExtras.
Import Remote BrowserMixin.

(** X25. What [stop] writes to the storage.  It reads the context once, before
    it reads [this.env], and the context is durable only when the env is
    cached already and the object holds the state of a Durable Object as its
    own [ctx]: then the stop succeeds and the storage holds the stopped
    record afterwards.  In every other case the storage is left as it was.
    So a stop that is the first to read [this.env] through the getter caches
    the env but stores nothing, and on a host that holds [env] as an own
    property the getter never runs, nothing is cached and nothing is
    stored. *)
Theorem mixin_stop_persists_with_cached_env_only (this : Mixin) (s : SessionState)
    (w : World) :
  _session this = Some s ->
  let r := stop this w in
  let this' := snd (fst r) in
  (_envCache this = true -> own_ctx this = ctx_durable ->
   fst (fst r) = Done tt /\
   _session this' = Some (set_status SessionStatus.stopped s) /\
   storage this' = _session this') /\
  (_envCache this = false \/ own_ctx this <> ctx_durable -> storage this' = storage this) /\
  (_envCache this = false -> own_env this = true ->
   fst (fst r) = Done tt /\
   _session this' = Some (set_status SessionStatus.stopped s) /\
   _envCache this' = false) /\
  (_envCache this = false -> own_env this = false -> proto_env this = true ->
   fst (fst r) = Done tt /\
   _session this' = Some (set_status SessionStatus.stopped s) /\
   _envCache this' = true).
Proof.
  intros Hs. cbv zeta. unfold stop. rewrite Hs.
  unfold context, env, put_session.
  destruct this as [ses url cache oenv penv octx sto]. cbn in Hs. subst ses.
  cbn [_envCache own_env proto_env own_ctx with_session with_storage with_envCache
       _session storage _workerUrl negb].
  split; [|split; [|split]].
  - intros -> ->. cbn [negb]. destruct oenv; cbn [own_env _envCache with_storage];
      by destruct (runPromise _ w).
  - intros [-> |Hne].
    + cbn [negb]. destruct oenv, penv;
        cbn [own_env _envCache proto_env with_envCache]; try destruct (runPromise _ w);
        done.
    + destruct cache, octx; try done; cbn [negb];
        destruct oenv, penv; cbn [own_env _envCache proto_env with_envCache with_storage];
        try destruct (runPromise _ w); done.
  - intros -> ->. cbn [negb own_env]. by destruct (runPromise _ w).
  - intros -> -> ->. cbn [negb own_env _envCache proto_env with_envCache].
    by destruct (runPromise _ w).
Qed.

(** The class of the README, a Durable Object that holds [env] and [ctx] as
    own properties: the stop succeeds and the storage keeps the record it
    held.  An object whose env is cached: the stopped record is stored. *)
Lemma mixin_stop_persists_with_cached_env_only_witness :
  let s := mkSession "s1" None SessionStatus.ready "http://localhost:1337/view/s1"
             "ws://localhost:1337/cdp/s1" None 0 0 (mkViewport 1280 720) (Some dark) in
  let w := Scenario.world 10 Scenario.ok_container in
  let durable_object :=
    mkMixin (Some s) "http://localhost:1337" false true false ctx_durable (Some s) in
  let cached :=
    mkMixin (Some s) "http://localhost:1337" true false true ctx_durable (Some s) in
  storage (snd (fst (stop durable_object w))) = Some s /\
  storage (snd (fst (stop cached w))) = Some (set_status SessionStatus.stopped s).
Proof.
  intros s w durable_object cached.
  destruct (mixin_stop_persists_with_cached_env_only durable_object s w eq_refl)
    as (_ & Hd & _).
  destruct (mixin_stop_persists_with_cached_env_only cached s w eq_refl)
    as (Hc & _).
  destruct (Hc eq_refl eq_refl) as (_ & Hs1 & Hst1).
  split; [exact (Hd (or_introl eq_refl))|by rewrite Hst1, Hs1].
Defined.

Lemma resizeBrowser_failure sessionId viewport w e :
  fst (Browser.resizeBrowser sessionId viewport w) = Failed e ->
  exists m, e = BrowserError ("Failed to resize: " ++ m) (Some (Error m)).
Proof.
  unfold Browser.resizeBrowser, tryPromise, bind.
  destruct (fetch _ w) as [r0 w0] eqn:Hf.
  pose proof (fetch_issues _ _ _ _ Hf) as (_ & _ & Hnf).
  destruct r0 as [[m|res]|e1| |]; cbn [fst throw]; try (intros H; discriminate H).
  - intros H. simplify_eq. by eexists.
  - destruct (negb (ok res)); cbn [fst throw ret]; intros H; simplify_eq. by eexists.
  - by destruct (Hnf e1).
Qed.

(** X26. [resize] of the mixin does not start a browser: without a ready session
    it fails with "Browser not ready" and sends nothing, and on a ready
    session without any [env] binding it fails before anything is sent.
    Otherwise it sends the one resize request.  When the container refuses,
    the caller gets the rejection of [Effect.runPromise] around the
    [BrowserError], and record and storage stay as they are.  When the
    container accepts, the new viewport is recorded in memory; the context is
    read after that, with the env cached if the getter ran: on an object that
    holds the state of a Durable Object as its own [ctx] the record is then
    written to the storage, on one without an own [ctx] the call fails with a
    [RangeError] in spite of the accepted resize, and without a cached env
    the call succeeds and stores nothing. *)
Theorem mixin_resize_records_accepted_viewport (this : Mixin) (w : World)
    (viewport : Viewport) :
  let r := resize viewport this w in
  let this' := snd (fst r) in
  (forall s, _session this = Some s -> status s <> SessionStatus.ready ->
     r = (Failed (SessionNotConnectedError "Browser not ready" (id s)), this, w)) /\
  (_session this = None ->
   r = (Failed (SessionNotConnectedError "Browser not ready" "unknown"), this, w)) /\
  (forall s, _session this = Some s -> status s = SessionStatus.ready ->
     own_env this = false -> _envCache this = false -> proto_env this = false ->
     r = (Failed (Error "withBrowser env not available. Ensure Agent has env binding with CONTAINER."),
          this, w)) /\
  (forall s, _session this = Some s -> status s = SessionStatus.ready ->
     own_env this = true \/ _envCache this = true \/ proto_env this = true ->
     let cached := _envCache this || (negb (own_env this) && proto_env this) in
     sends_only (mkRequest (id s) (PostResize viewport)) w (snd r) /\
     _envCache this' = cached /\
     match fst (Browser.resizeBrowser (id s) viewport w) with
     | Done _ =>
         _session this' =
           Some (set_lastActivity (clock (snd r)) (set_viewport viewport s)) /\
         (if cached
          then match own_ctx this with
               | ctx_durable => fst (fst r) = Done tt /\ storage this' = _session this'
               | ctx_falsy => fst (fst r) = Done tt /\ storage this' = storage this
               | ctx_inherited =>
                   (exists m, fst (fst r) = Failed (RangeError m)) /\
                   storage this' = storage this
               end
          else fst (fst r) = Done tt /\ storage this' = storage this)
     | Failed e =>
         fst (fst r) = Failed (FiberFailure (message_of e) e) /\
         _session this' = _session this /\ storage this' = storage this
     | _ => _session this' = _session this /\ storage this' = storage this
     end).
Proof.
  cbv zeta. unfold resize. split; [|split; [|split]].
  - intros s Hs Hst. rewrite Hs. by destruct (status s).
  - by intros ->.
  - intros s Hs Hst Ho Hc Hp. rewrite Hs, Hst. unfold env. by rewrite Ho, Hc, Hp.
  - intros s Hs Hst Henv. rewrite Hs, Hst.
    pose proof (resizeBrowser_sends_only (id s) viewport w) as Hsend.
    pose proof (resizeBrowser_failure (id s) viewport w) as Hfail.
    unfold runPromise.
    destruct (Browser.resizeBrowser (id s) viewport w) as [c w1]. cbn [fst snd] in *.
    assert (forall e, c = Failed e -> fiberFailureMessage e = message_of e) as Hmsg.
    { intros e ->. by destruct (Hfail e eq_refl) as [m ->]. }
    unfold env, context, put_session.
    destruct this as [ses url cache oenv penv octx sto]. cbn in Hs. subst ses.
    cbn [_envCache own_env proto_env own_ctx with_session with_storage with_envCache
         _session storage _workerUrl] in *.
    destruct oenv, cache, penv;
      try (by destruct Henv as [?|[?|?]]);
      cbn [negb orb andb _envCache own_env proto_env own_ctx with_session with_storage
           with_envCache _session storage _workerUrl];
      (destruct c as [[]|e| |]; [destruct octx| | |]);
      cbn [fst snd _envCache own_env proto_env own_ctx with_session with_storage
           with_envCache _session storage _workerUrl negb];
      rewrite ?(Hmsg _ eq_refl); eauto 10.
Qed.

(** An object whose env is cached and which holds the state of a Durable
    Object: the accepted viewport reaches the storage. *)
Lemma mixin_resize_records_accepted_viewport_witness :
  let s := mkSession "s1" None SessionStatus.ready "http://localhost:1337/view/s1"
             "ws://localhost:1337/cdp/s1" None 0 0 (mkViewport 1280 720) (Some dark) in
  let accepted := Scenario.always (mkExchange 40 (Responds (mkResponse 200 None (inl "")))) in
  let w := Scenario.world 10 accepted in
  let this := mkMixin (Some s) "http://localhost:1337" true false true ctx_durable None in
  let r := resize (mkViewport 800 600) this w in
  fst (fst r) = Done tt /\
  storage (snd (fst r)) = Some (set_lastActivity 50 (set_viewport (mkViewport 800 600) s)).
Proof.
  intros s accepted w this r.
  destruct (mixin_resize_records_accepted_viewport this w (mkViewport 800 600))
    as (_ & _ & _ & H).
  destruct (H s eq_refl eq_refl (or_intror (or_introl eq_refl))) as (_ & _ & Hs & Hd & Hst).
  split; [exact Hd|].
  etransitivity; [exact Hst|]. etransitivity; [exact Hs|]. vm_compute. reflexivity.
Defined.
End MixinExtras.
